(** * KNIME-SQL: a shallow embedding of the node translators and the viewer

    The repository turns the settings of KNIME workflow nodes (xml-js
    compact JSON made from [settings.xml]) into SQL text.  This file
    embeds the four translators present in the sources
    ([convertRowFilterNodeToSQL], [convertGroupByNodeToSQL],
    [convertSorterNodeToSQL], [convertConcatenateNodeToSQL]), the
    dispatcher [convertSelectedNodeToSQL] and the record construction of
    [handleUpload], and states the specification's properties about them.

    Conventions of the embedding.
    - A JavaScript string is a [string]; one [ascii] stands for one UTF-16
      code unit, so the strings covered are those whose code units are
      below 256.
    - A [TypeError] raised by the code is the result [Fault]; everything
      else returns [Ret].
    - [console.warn] and [console.log] write to the console only and are
      left out. *)

From Stdlib Require Import String Ascii ZArith Lia.
From stdpp Require Import base option list gmap strings sorting pretty.

Local Open Scope string_scope.

(** ** Results: a value, or a raised fault *)

Inductive result (A : Type) : Type :=
| Fault : result A
| Ret (a : A) : result A.
Arguments Fault {A}.
Arguments Ret {A} a.

#[global] Instance result_ret : MRet result := fun A a => Ret a.
#[global] Instance result_bind : MBind result := fun A B f m =>
  match m with Fault => Fault | Ret a => f a end.

Fixpoint traverse {A B : Type} (f : A -> result B) (l : list A) : result (list B) :=
  match l with
  | [] => Ret []
  | x :: l' => y ← f x; ys ← traverse f l'; Ret (y :: ys)
  end.

(** ** JavaScript string primitives *)

Module JS.

Definition str1 (c : ascii) : string := String c EmptyString.

(** The double quote and the line feed, which the sources write as
    escapes. *)
Definition dqc : ascii := "034"%char.
Definition dq : string := str1 dqc.
Definition nl : string := str1 "010"%char.

(** [s.replace(/c/g, by)] for a one-character pattern and a replacement
    text without [$]. *)
Fixpoint replaceChar (c : ascii) (by_ : string) (s : string) : string :=
  match s with
  | EmptyString => EmptyString
  | String a s' =>
      (if Ascii.eqb a c then by_ else str1 a) +:+ replaceChar c by_ s'
  end.

(** Identifier quoting: every double quote of [s] is doubled and the
    whole is put between double quotes. *)
Definition quoteIdent (s : string) : string :=
  dq +:+ replaceChar dqc (dq +:+ dq) s +:+ dq.

(** String-literal escaping: every single quote of [s] is doubled. *)
Definition escapeQuote (s : string) : string := replaceChar "'"%char "''" s.

(** [Array.prototype.join] *)
Fixpoint join (sep : string) (l : list string) : string :=
  match l with
  | [] => EmptyString
  | x :: l' =>
      match l' with
      | [] => x
      | _ :: _ => x +:+ sep +:+ join sep l'
      end
  end.

Definition startsWith (p s : string) : bool := String.prefix p s.

(** [s.includes(sub)] *)
Fixpoint includes (sub s : string) : bool :=
  String.prefix sub s ||
  match s with
  | EmptyString => false
  | String _ s' => includes sub s'
  end.

Fixpoint hasChar (c : ascii) (s : string) : bool :=
  match s with
  | EmptyString => false
  | String a s' => Ascii.eqb a c || hasChar c s'
  end.

(** [s.endsWith(suf)] *)
Fixpoint endsWith (suf s : string) : bool :=
  String.eqb s suf ||
  match s with
  | EmptyString => false
  | String _ s' => endsWith suf s'
  end.

(** White space and line terminators among the code units below 256. *)
Definition isWs (c : ascii) : bool :=
  let n := nat_of_ascii c in
  (Nat.leb 9 n && Nat.leb n 13) || Nat.eqb n 32 || Nat.eqb n 160.

Fixpoint trimStart (s : string) : string :=
  match s with
  | EmptyString => EmptyString
  | String c s' => if isWs c then trimStart s' else s
  end.

Fixpoint trimEnd (s : string) : string :=
  match s with
  | EmptyString => EmptyString
  | String c s' =>
      match trimEnd s' with
      | EmptyString => if isWs c then EmptyString else str1 c
      | r => String c r
      end
  end.

Definition trim (s : string) : string := trimEnd (trimStart s).

Definition inRange (lo hi : nat) (c : ascii) : bool :=
  let n := nat_of_ascii c in Nat.leb lo n && Nat.leb n hi.
Definition isDigit (c : ascii) : bool := inRange 48 57 c.
Definition isHexDigit (c : ascii) : bool :=
  isDigit c || inRange 65 70 c || inRange 97 102 c.
Definition isOctDigit (c : ascii) : bool := inRange 48 55 c.
Definition isBinDigit (c : ascii) : bool := inRange 48 49 c.
Definition isAlnum_ (c : ascii) : bool :=
  isDigit c || inRange 65 90 c || inRange 97 122 c || Ascii.eqb c "_"%char.

Fixpoint allChars (p : ascii -> bool) (s : string) : bool :=
  match s with
  | EmptyString => true
  | String c s' => p c && allChars p s'
  end.

Definition someAll (p : ascii -> bool) (s : string) : bool :=
  match s with
  | EmptyString => false
  | String _ _ => allChars p s
  end.

(** The longest prefix of digits: its length and what follows it. *)
Fixpoint spanDigits (s : string) : nat * string :=
  match s with
  | EmptyString => (0, EmptyString)
  | String c s' =>
      if isDigit c then let '(n, r) := spanDigits s' in (S n, r) else (0, s)
  end.

Definition dropSign (s : string) : string :=
  match s with
  | String c r => if Ascii.eqb c "+"%char || Ascii.eqb c "-"%char then r else s
  | EmptyString => s
  end.

(** [ExponentPart] followed by the end of the text, or the end itself. *)
Definition exponentOrEnd (s : string) : bool :=
  match s with
  | EmptyString => true
  | String c r =>
      (Ascii.eqb c "e"%char || Ascii.eqb c "E"%char) && someAll isDigit (dropSign r)
  end.

(** [StrDecimalLiteral]: a sign, then [Infinity] or digits with an
    optional fraction and exponent. *)
Definition isStrDecimalLiteral (s : string) : bool :=
  let u := dropSign s in
  if String.eqb u "Infinity" then true
  else
    let '(n1, s1) := spanDigits u in
    let '(n2, s3) :=
      match s1 with
      | String c r => if Ascii.eqb c "."%char then spanDigits r else (0, s1)
      | EmptyString => (0, s1)
      end in
    Nat.ltb 0 (n1 + n2) && exponentOrEnd s3.

(** [!isNaN(Number(s))] for a string [s]: the grammar
    [StringNumericLiteral] of ECMAScript. *)
Definition isNumericString (s : string) : bool :=
  match trim s with
  | EmptyString => true
  | String c0 (String c1 r) as t =>
      if Ascii.eqb c0 "0"%char && (Ascii.eqb c1 "x"%char || Ascii.eqb c1 "X"%char)
      then someAll isHexDigit r
      else if Ascii.eqb c0 "0"%char && (Ascii.eqb c1 "o"%char || Ascii.eqb c1 "O"%char)
      then someAll isOctDigit r
      else if Ascii.eqb c0 "0"%char && (Ascii.eqb c1 "b"%char || Ascii.eqb c1 "B"%char)
      then someAll isBinDigit r
      else isStrDecimalLiteral t
  | t => isStrDecimalLiteral t
  end.

Definition headIs (p : ascii -> bool) (s : string) : bool :=
  match s with
  | EmptyString => false
  | String c _ => p c
  end.

(** [isNaN(parseInt(s))] for a string [s] (no radix given). *)
Definition parseIntIsNaN (s : string) : bool :=
  match dropSign (trimStart s) with
  | String c0 (String c1 r) as t =>
      if Ascii.eqb c0 "0"%char && (Ascii.eqb c1 "x"%char || Ascii.eqb c1 "X"%char)
      then negb (headIs isHexDigit r)
      else negb (headIs isDigit t)
  | t => negb (headIs isDigit t)
  end.

End JS.

(** ** The settings tree

    xml-js (compact) turns an element into an object with an optional
    [_attributes] object and, for each child tag, either one object or an
    array of objects.  The tags of a KNIME settings document are [entry]
    and [config]; the attributes read by the sources are [key], [type] and
    [value]. *)

Record Attrs : Type := mkAttrs {
  a_key : option string;
  a_type : option string;
  a_value : option string
}.

Inductive Elem : Type :=
| mkElem (attributes : option Attrs) (entry : Multi) (config : Multi)
with Multi : Type :=
| Absent
| One (e : Elem)
| Many (l : list Elem).

Definition attributes (e : Elem) : option Attrs :=
  match e with mkElem a _ _ => a end.
Definition entry (e : Elem) : Multi :=
  match e with mkElem _ x _ => x end.
Definition config (e : Elem) : Multi :=
  match e with mkElem _ _ c => c end.

(** [Array.isArray(x) ? x : [x]] *)
Definition toArray (m : Multi) : list Elem :=
  match m with
  | Absent => []
  | One e => [e]
  | Many l => l
  end.

(** Truthiness of a child property: absent is [undefined], an object or an
    array is truthy. *)
Definition present (m : Multi) : bool :=
  match m with Absent => false | _ => true end.

(** The values [getEntryValue] hands out. *)
Inductive jsval : Type :=
| JNull
| JBool (b : bool)
| JStr (s : string).

Definition truthy (v : jsval) : bool :=
  match v with
  | JNull => false
  | JBool b => b
  | JStr s => negb (String.eqb s EmptyString)
  end.

(** [`${v}`] *)
Definition toText (v : jsval) : string :=
  match v with
  | JNull => "null"
  | JBool true => "true"
  | JBool false => "false"
  | JStr s => s
  end.

Definition isStr (v : jsval) (s : string) : bool :=
  match v with JStr x => String.eqb x s | _ => false end.

Definition optIs (o : option string) (s : string) : bool :=
  match o with Some x => String.eqb x s | None => false end.

(** [e._attributes && e._attributes.key === key] *)
Definition hasKey (k : string) (e : Elem) : bool :=
  match attributes e with
  | Some a => optIs (a_key a) k
  | None => false
  end.

(** [getEntryValue] of the translators (src/common/getEntryValue.js). *)
Definition getEntryValue (entryProp : Multi) (k : string) : jsval :=
  match entryProp with
  | Absent => JNull
  | _ =>
      match find (hasKey k) (toArray entryProp) with
      | Some e =>
          match attributes e with
          | Some a =>
              if optIs (a_type a) "xboolean" then JBool (optIs (a_value a) "true")
              else
                match a_value a with
                | Some v => if String.eqb v EmptyString then JNull else JStr v
                | None => JNull
                end
          | None => JNull
          end
      | None => JNull
      end
  end.

(** [findConfigByKey] (src/common/findConfigByKey.js). *)
Definition findConfigByKey (cfg : Multi) (k : string) : option Elem :=
  match cfg with
  | Absent => None
  | _ => find (hasKey k) (toArray cfg)
  end.

(** [x?.entry] and [x?.config] on the result of [findConfigByKey]. *)
Definition entryOf (o : option Elem) : Multi :=
  match o with Some e => entry e | None => Absent end.
Definition configOf (o : option Elem) : Multi :=
  match o with Some e => config e | None => Absent end.

(** [v.replace(...)] and the like on a value that has to be a string. *)
Definition asString (v : jsval) : result string :=
  match v with
  | JStr s => Ret s
  | _ => Fault
  end.

(** Identifier quoting of a value: [v.replace] is a fault unless [v] is
    a string. *)
Definition quoteValue (v : jsval) : result string :=
  s ← asString v; Ret (JS.quoteIdent s).

(** ** RowFilter (src/functions/convertRowFilterNodeToSQL.js) *)

Module RowFilter.
Import JS.

Definition ROW_FILTER_FACTORY : string :=
  "org.knime.base.node.preproc.filter.row3.RowFilterNodeFactory".

Definition mapKnimeOperatorToSQL (knimeOperator : string) : string :=
  if String.eqb knimeOperator "EQ" then "="
  else if String.eqb knimeOperator "NEQ" then "!="
  else if String.eqb knimeOperator "LT" then "<"
  else if String.eqb knimeOperator "LE" then "<="
  else if String.eqb knimeOperator "GT" then ">"
  else if String.eqb knimeOperator "GE" then ">="
  else if String.eqb knimeOperator "LIKE" then "LIKE"
  else if String.eqb knimeOperator "REGEX" then "REGEXP"
  else if String.eqb knimeOperator "IS_MISSING" then "IS NULL"
  else if String.eqb knimeOperator "IS_NOT_MISSING" then "IS NOT NULL"
  else "=".

(** The first line of [translateKnimeWildcardToSQL]: literal [%] and [_]
    get a backslash. *)
Definition escapeSqlWildcards (s : string) : string :=
  replaceChar "_"%char "\_" (replaceChar "%"%char "\%" s).

(** Its second line, also used alone by the ESCAPE test: [*] becomes [%]
    and [?] becomes [_]. *)
Definition knimeToSqlWildcards (s : string) : string :=
  replaceChar "?"%char "_" (replaceChar "*"%char "%" s).

Definition translateKnimeWildcardToSQL (knimePattern : jsval) : string :=
  match knimePattern with
  | JStr s => knimeToSqlWildcards (escapeSqlWildcards s)
  | _ => EmptyString
  end.

(** [!isNaN(Number(value))] *)
Definition isNumericValue (value : jsval) : bool :=
  match value with
  | JStr s => isNumericString s
  | JBool _ => true
  | JNull => true
  end.

(** [cellClass?.includes(...)] with the text StringCell, read as a
    condition. *)
Definition includesStringCell (cellClass : jsval) : result bool :=
  match cellClass with
  | JNull => Ret false
  | JStr s => Ret (includes "StringCell" s)
  | JBool _ => Fault
  end.

Definition isTextOperator (sqlOperator : string) : bool :=
  String.eqb sqlOperator "=" || String.eqb sqlOperator "!=" ||
  String.eqb sqlOperator "LIKE" || String.eqb sqlOperator "REGEXP".

(** The value configuration's [is_null] and [cell_class], read from
    its [typeIdentifier] child. *)
Definition isNullOf (singleValueConfig : Elem) : jsval :=
  let typeIdentifierConfig :=
    findConfigByKey (config singleValueConfig) "typeIdentifier" in
  getEntryValue (entryOf typeIdentifierConfig) "is_null".

Definition cellClassOf (singleValueConfig : Elem) : jsval :=
  let typeIdentifierConfig :=
    findConfigByKey (config singleValueConfig) "typeIdentifier" in
  getEntryValue (entryOf typeIdentifierConfig) "cell_class".

(** The [stringCaseMatching] test. *)
Definition caseSensitiveOf (singleValueConfig : Elem) : bool :=
  let caseSensitiveConfig :=
    findConfigByKey (config singleValueConfig) "stringCaseMatching" in
  isStr (getEntryValue (entryOf caseSensitiveConfig) "caseMatching")
        "CASESENSITIVE".

(** The last part of the predicate callback (from the extraction of
    [value] to the returned condition), for a predicate whose operator
    needs a value. *)
Definition valueCondition (columnName : jsval) (sqlOperator : string)
    (singleValueConfig : Elem) : result (option string) :=
  let value := getEntryValue (entry singleValueConfig) "value" in
  let isNull := isNullOf singleValueConfig in
  let cellClass := cellClassOf singleValueConfig in
  match isNull with
  | JBool true =>
      quotedColumnName ← quoteValue columnName;
      Ret (Some (quotedColumnName +:+ " IS NULL"))
  | _ =>
      match value with
      | JNull => Ret None
      | _ =>
          quotedColumnName ← quoteValue columnName;
          isStringType ← includesStringCell cellClass;
          let isNumeric := isNumericValue value in
          let needsQuotes := isStringType || negb isNumeric in
          sqlValue ←
            (if String.eqb sqlOperator "LIKE" then
               Ret ("'" +:+ escapeQuote (translateKnimeWildcardToSQL value) +:+ "'")
             else if String.eqb sqlOperator "REGEXP" then
               s ← asString value; Ret ("'" +:+ escapeQuote s +:+ "'")
             else if needsQuotes then
               s ← asString value; Ret ("'" +:+ escapeQuote s +:+ "'")
             else Ret (toText value));
          let caseSensitive := caseSensitiveOf singleValueConfig in
          let condition :=
            if needsQuotes && negb caseSensitive && isTextOperator sqlOperator
            then "LOWER(" +:+ quotedColumnName +:+ ") " +:+ sqlOperator
                 +:+ " LOWER(" +:+ sqlValue +:+ ")"
            else quotedColumnName +:+ " " +:+ sqlOperator +:+ " " +:+ sqlValue in
          needsEscape ←
            (if String.eqb sqlOperator "LIKE" then
               s ← asString value;
               Ret (negb (String.eqb (translateKnimeWildcardToSQL value)
                                     (knimeToSqlWildcards s)))
             else Ret false);
          Ret (Some (if needsEscape : bool then condition +:+ " ESCAPE '\'"
                     else condition))
      end
  end.

(** [operatorEntry._attributes.value] *)
Definition attributeValue (e : Elem) : result (option string) :=
  match attributes e with
  | Some a => Ret (a_value a)
  | None => Fault
  end.

(** The first part of the callback, up to the second warning: the
    column name, the KNIME operator and the [values] node of a predicate
    that has them all, [None] for a predicate that is skipped. *)
Definition predicateParts (predConfig : Elem)
    : result (option (jsval * string * Elem)) :=
  if negb (present (config predConfig)) then Ret None
  else
    match findConfigByKey (config predConfig) "column",
          findConfigByKey (entry predConfig) "operator",
          findConfigByKey (config predConfig) "predicateValues" with
    | Some columnNode, Some operatorEntry, Some predicateValuesNode =>
        if negb (present (config predicateValuesNode)) then Ret None
        else
          let columnName := getEntryValue (entry columnNode) "selected" in
          knimeOperator ← attributeValue operatorEntry;
          match knimeOperator,
                findConfigByKey (config predicateValuesNode) "values" with
          | Some knimeOperator, Some valuesNode =>
              if negb (truthy columnName)
                 || String.eqb knimeOperator EmptyString
                 || negb (present (config valuesNode))
              then Ret None
              else Ret (Some (columnName, knimeOperator, valuesNode))
          | _, _ => Ret None
          end
    | _, _, _ => Ret None
    end.

(** The value configuration keyed 0, when it has both [entry] and
    [config]. *)
Definition singleValueConfigOf (valuesNode : Elem) : option Elem :=
  match findConfigByKey (config valuesNode) "0" with
  | Some singleValueConfig =>
      if negb (present (entry singleValueConfig))
         || negb (present (config singleValueConfig))
      then None
      else Some singleValueConfig
  | None => None
  end.

(** The middle part: operators that need no value are answered at once,
    the others go on to the value. *)
Definition operatorCondition (columnName : jsval) (knimeOperator : string)
    (valuesNode : Elem) : result (option string) :=
  let sqlOperator := mapKnimeOperatorToSQL knimeOperator in
  if String.eqb sqlOperator "IS NULL" || String.eqb sqlOperator "IS NOT NULL"
  then
    quotedColumnName ← quoteValue columnName;
    Ret (Some (quotedColumnName +:+ " " +:+ sqlOperator))
  else
    match singleValueConfigOf valuesNode with
    | None => Ret None
    | Some singleValueConfig =>
        valueCondition columnName sqlOperator singleValueConfig
    end.

(** The callback mapped over the predicate configurations; [None] is the
    [null] that the later [filter] removes. *)
Definition predicateCondition (predConfig : Elem) : result (option string) :=
  parts ← predicateParts predConfig;
  match parts with
  | None => Ret None
  | Some (columnName, knimeOperator, valuesNode) =>
      operatorCondition columnName knimeOperator valuesNode
  end.

Definition degraded (previousNodeName : string) : string :=
  "SELECT * FROM " +:+ quoteIdent previousNodeName
  +:+ "; -- Warning: No valid filter conditions generated or applied".

Definition convertRowFilterNodeToSQL (nodeConfig : Elem)
    (previousNodeName : string) : result string :=
  let factory := getEntryValue (entry nodeConfig) "factory" in
  if negb (isStr factory ROW_FILTER_FACTORY) then
    Ret ("Error: Expected Row Filter node factory (" +:+ ROW_FILTER_FACTORY
         +:+ "), but got "
         +:+ (if truthy factory then toText factory else "N/A") +:+ ".")
  else
    match findConfigByKey (config nodeConfig) "model" with
    | None => Ret "Error: Model configuration not found."
    | Some modelNode =>
        if negb (present (config modelNode)) then
          Ret "Error: Model configuration not found."
        else
          let outputMode := getEntryValue (entry modelNode) "outputMode" in
          let matchCriteria := getEntryValue (entry modelNode) "matchCriteria" in
          let predicatesNode := findConfigByKey (config modelNode) "predicates" in
          if negb (truthy outputMode) || negb (truthy matchCriteria)
             || negb (present (configOf predicatesNode))
          then
            Ret "Error: Essential filtering parameters (outputMode, matchCriteria, predicates) not found."
          else
            let predicateConfigs := toArray (configOf predicatesNode) in
            mapped ← traverse predicateCondition predicateConfigs;
            let conditions := omap id (mapped : list (option string)) in
            match conditions with
            | [] => Ret (degraded previousNodeName)
            | _ :: _ =>
                let combinedConditions :=
                  join (" " +:+ toText matchCriteria +:+ " ") conditions in
                let whereClause :=
                  if isStr outputMode "NON_MATCHING"
                  then "NOT (" +:+ combinedConditions +:+ ")"
                  else combinedConditions in
                Ret ("SELECT * FROM " +:+ quoteIdent previousNodeName
                     +:+ " WHERE " +:+ whereClause +:+ ";")
            end
    end.

End RowFilter.

(** The operator table as the specification words it, to be compared
    with [RowFilter.mapKnimeOperatorToSQL]. *)
Definition specOperatorTable : list (string * string) :=
  [("EQ", "="); ("NEQ", "!="); ("LT", "<"); ("LE", "<="); ("GT", ">");
   ("GE", ">="); ("LIKE", "LIKE"); ("REGEX", "REGEXP");
   ("IS_MISSING", "IS NULL"); ("IS_NOT_MISSING", "IS NOT NULL")].

(** ** GroupBy (src/functions/convertGroupByNodeToSQL.js) *)

Module GroupBy.
Import JS.

Definition GROUPBY_FACTORY : string :=
  "org.knime.base.node.preproc.groupby.GroupByNodeFactory".

Definition mapKnimeAggregationToSQL (knimeMethod : string) : option string :=
  if String.eqb knimeMethod "Sum" then Some "SUM"
  else if String.eqb knimeMethod "Count" then Some "COUNT"
  else if String.eqb knimeMethod "Mean" || String.eqb knimeMethod "Average"
  then Some "AVG"
  else if String.eqb knimeMethod "Minimum" then Some "MIN"
  else if String.eqb knimeMethod "Maximum" then Some "MAX"
  else if String.eqb knimeMethod "StandardDeviation" then Some "STDDEV_SAMP"
  else if String.eqb knimeMethod "Variance" then Some "VAR_SAMP"
  else if String.eqb knimeMethod "Median" then None
  else if String.eqb knimeMethod "Concatenate" || String.eqb knimeMethod "List"
  then Some "LISTAGG"
  else if String.eqb knimeMethod "First" then Some "MIN"
  else if String.eqb knimeMethod "Last" then Some "MAX"
  else if String.eqb knimeMethod "Unique count"
  then Some "COUNT(DISTINCT $$col$$)"
  else if String.eqb knimeMethod "Missing value count"
  then Some "SUM(CASE WHEN $$col$$ IS NULL THEN 1 ELSE 0 END)"
  else None.

(** The replacement text of [String.prototype.replace] is not taken
    literally: [$$] stands for a dollar, [$&] for the matched text, a
    dollar and a backquote for the text before the match, a dollar and a
    quote for the text after it.  The pattern used here has no capture
    group, so a dollar before anything else stays as it is. *)
Fixpoint expandReplacement (matched before after repl : string) : string :=
  match repl with
  | EmptyString => EmptyString
  | String a t =>
      if Ascii.eqb a "$"%char then
        match t with
        | String c r =>
            if Ascii.eqb c "$"%char
            then "$" +:+ expandReplacement matched before after r
            else if Ascii.eqb c "&"%char
            then matched +:+ expandReplacement matched before after r
            else if Ascii.eqb c "`"%char
            then before +:+ expandReplacement matched before after r
            else if Ascii.eqb c "'"%char
            then after +:+ expandReplacement matched before after r
            else String a (expandReplacement matched before after t)
        | EmptyString => str1 a
        end
      else String a (expandReplacement matched before after t)
  end.

Fixpoint dropChars (n : nat) (s : string) : string :=
  match n, s with
  | S k, String _ s' => dropChars k s'
  | _, _ => s
  end.

(** [s.replace(/pat/g, repl)] for a literal, non-empty [pat]: [skip]
    counts the characters of the current match still to pass, [before] is
    the text already passed. *)
Fixpoint replaceAllGo (pat repl : string) (skip : nat) (before s : string) : string :=
  match s with
  | EmptyString => EmptyString
  | String c s' =>
      match skip with
      | S k => replaceAllGo pat repl k (before +:+ str1 c) s'
      | O =>
          if String.prefix pat s then
            expandReplacement pat before (dropChars (String.length pat) s) repl
            +:+ replaceAllGo pat repl (String.length pat - 1) (before +:+ str1 c) s'
          else String c (replaceAllGo pat repl 0 (before +:+ str1 c) s')
      end
  end.

Definition replaceAll (pat repl s : string) : string :=
  replaceAllGo pat repl 0 EmptyString s.

(** [s.replace(/[^a-zA-Z0-9_]/g, "_")] *)
Fixpoint cleanName (s : string) : string :=
  match s with
  | EmptyString => EmptyString
  | String c s' => String (if isAlnum_ c then c else "_"%char) (cleanName s')
  end.

(** [v || d] *)
Definition orDefault (v : jsval) (d : string) : jsval :=
  if truthy v then v else JStr d.

(** One turn of the aggregation loop: the text pushed on [aggregations],
    or [None] when the method is not mapped. *)
Definition aggregation (columnNamePolicy valueDelimiter : jsval)
    (colName knimeMethod : string) : result (option string) :=
  match mapKnimeAggregationToSQL knimeMethod with
  | None => Ret None
  | Some sqlFunctionTemplate =>
      let quotedColName := quoteIdent colName in
      sqlFunctionCall ←
        (if includes "$$col$$" sqlFunctionTemplate then
           Ret (replaceAll "$$col$$" quotedColName sqlFunctionTemplate)
         else if String.eqb knimeMethod "Count" then
           Ret ("COUNT(" +:+ quotedColName +:+ ")")
         else if String.eqb knimeMethod "List" || String.eqb knimeMethod "Concatenate"
         then
           delimiter ← asString valueDelimiter;
           Ret (sqlFunctionTemplate +:+ "(" +:+ quotedColName +:+ ", '"
                +:+ escapeQuote delimiter +:+ "')")
         else Ret (sqlFunctionTemplate +:+ "(" +:+ quotedColName +:+ ")"));
      let cleanColName := cleanName colName in
      let cleanMethod := cleanName knimeMethod in
      let alias :=
        if isStr columnNamePolicy "Aggregation method (column name)"
        then cleanMethod +:+ "_" +:+ cleanColName
        else if isStr columnNamePolicy "Column name (aggregation method)"
        then cleanColName +:+ "_" +:+ cleanMethod
        else cleanColName +:+ "_agg" in
      Ret (Some (sqlFunctionCall +:+ " AS " +:+ quoteIdent alias))
  end.

Section Translator.

(** [getArrayValuesFromConfig] (src/common/getArrayValuesFromConfig.js)
    is imported by the translator and is not among the sources: it is a
    parameter here.  The translator calls [.length] and [.map] on its
    result and [.replace] on the elements, so it yields an array of
    strings. *)
Variable getArrayValuesFromConfig : option Elem -> list string.

(** Steps 3 and 4 of the translator, on the located model. *)
Definition groupingColumnsOf (modelNode : Elem) : list string :=
  let groupByColumnsNode := findConfigByKey (config modelNode) "grouByColumns" in
  let inclListGroupNode :=
    findConfigByKey (configOf groupByColumnsNode) "InclList" in
  getArrayValuesFromConfig inclListGroupNode.

Definition aggregationsOf (modelNode : Elem) : result (list string) :=
  let aggColumnNode := findConfigByKey (config modelNode) "aggregationColumn" in
  let aggColNamesNode := findConfigByKey (configOf aggColumnNode) "columnNames" in
  let aggColMethodsNode :=
    findConfigByKey (configOf aggColumnNode) "aggregationMethod" in
  let aggColumnNames := getArrayValuesFromConfig aggColNamesNode in
  let aggMethods := getArrayValuesFromConfig aggColMethodsNode in
  let columnNamePolicy :=
    orDefault (getEntryValue (entry modelNode) "columnNamePolicy")
              "Aggregation method (column name)" in
  let valueDelimiter :=
    orDefault (getEntryValue (entry modelNode) "valueDelimiter") ", " in
  pushed ← traverse (fun p => aggregation columnNamePolicy valueDelimiter p.1 p.2)
                    (zip aggColumnNames aggMethods);
  Ret (omap id (pushed : list (option string))).

(** Step 5, on the extracted lists. *)
Definition constructQuery (groupingColumns aggregations : list string)
    (previousNodeName : string) : string :=
  let quotedGroupingColumns := map quoteIdent groupingColumns in
  let quotedPreviousNodeName := quoteIdent previousNodeName in
  let selectParts := (quotedGroupingColumns ++ aggregations)%list in
  match selectParts with
  | [] =>
      "Error: Cannot generate SELECT clause. No grouping or aggregation columns specified/successful."
  | _ :: _ =>
      let selectClause := "SELECT" +:+ nl +:+ "  "
                          +:+ join ("," +:+ nl +:+ "  ") selectParts in
      let fromClause := "FROM " +:+ quotedPreviousNodeName in
      match quotedGroupingColumns, aggregations with
      | [], [] =>
          "Error: GroupBy node has neither grouping columns nor aggregation columns configured."
      | _, _ =>
          let groupByClause :=
            match quotedGroupingColumns with
            | [] => EmptyString
            | _ :: _ => "GROUP BY" +:+ nl +:+ "  "
                        +:+ join ("," +:+ nl +:+ "  ") quotedGroupingColumns
            end in
          match groupingColumns, aggregations with
          | _ :: _, [] =>
              "SELECT DISTINCT" +:+ nl +:+ "  "
              +:+ join ("," +:+ nl +:+ "  ") quotedGroupingColumns
              +:+ nl +:+ fromClause +:+ ";"
          | _, _ =>
              join nl ([selectClause; fromClause]
                       ++ (if String.eqb groupByClause EmptyString then []
                           else [groupByClause]))%list
              +:+ ";"
          end
      end
  end.

(** [previousNodeName] is [None] when the argument is left out: the
    parameter then takes its default. *)
Definition convertGroupByNodeToSQL (nodeConfig : Elem)
    (previousNodeName : option string) : result string :=
  let previousNodeName := default "input_table" previousNodeName in
  let factory := getEntryValue (entry nodeConfig) "factory" in
  if negb (isStr factory GROUPBY_FACTORY) then
    let factoryInfo :=
      if truthy factory then dq +:+ toText factory +:+ dq else "N/A" in
    Ret ("Error: Expected GroupBy node factory (" +:+ GROUPBY_FACTORY
         +:+ "), but got " +:+ factoryInfo +:+ ".")
  else
    match findConfigByKey (config nodeConfig) "model" with
    | None => Ret "Error: Model configuration not found or invalid."
    | Some modelNode =>
        if negb (present (config modelNode)) || negb (present (entry modelNode))
        then Ret "Error: Model configuration not found or invalid."
        else
          let groupingColumns := groupingColumnsOf modelNode in
          aggregations ← aggregationsOf modelNode;
          Ret (constructQuery groupingColumns aggregations previousNodeName)
    end.

End Translator.

End GroupBy.

(** ** Sorter (src/functions/convertSorterNodeToSQL.js) *)

Module Sorter.
Import JS.

Definition SORTER_FACTORY : string :=
  "org.knime.base.node.preproc.sorter.SorterNodeFactory".

(** [missingToEnd === true ? ... : ...] *)
Definition nullsOrderOf (missingToEnd : jsval) : string :=
  match missingToEnd with
  | JBool true => "NULLS LAST"
  | _ => "NULLS FIRST"
  end.

Definition directionOf (sortingOrder : jsval) : string :=
  if isStr sortingOrder "DESCENDING" then "DESC" else "ASC".

(** [isNaN(parseInt(criterionConfig._attributes.key))]; a missing key is
    [undefined], which [parseInt] reads as the text undefined. *)
Definition keyIsNaN (a : Attrs) : bool :=
  match a_key a with
  | Some k => parseIntIsNaN k
  | None => true
  end.

Definition advisory (columnName : jsval) : string :=
  " -- Note: Alphanumeric string comparison requested for "
  +:+ toText columnName
  +:+ ". Standard ORDER BY used; verify behavior with DB.".

(** One turn of the loop over the criteria: the term pushed on
    [orderByParts], or [None] where the loop says [continue]. *)
Definition criterionTerm (missingToEnd : jsval) (criterionConfig : Elem)
    : result (option string) :=
  match attributes criterionConfig with
  | None => Ret None
  | Some a =>
      if keyIsNaN a then Ret None
      else
        let columnNode := findConfigByKey (config criterionConfig) "column" in
        let columnName := getEntryValue (entryOf columnNode) "selected" in
        let sortingOrder := getEntryValue (entry criterionConfig) "sortingOrder" in
        let stringComparison :=
          getEntryValue (entry criterionConfig) "stringComparison" in
        if negb (truthy columnName) || negb (truthy sortingOrder) then Ret None
        else
          let direction := directionOf sortingOrder in
          let nullsOrder := nullsOrderOf missingToEnd in
          quotedColumnName ← quoteValue columnName;
          let comment :=
            if isStr stringComparison "ALPHANUMERIC" then advisory columnName
            else EmptyString in
          Ret (Some (quotedColumnName +:+ " " +:+ direction +:+ " "
                     +:+ nullsOrder +:+ comment))
  end.

(** The loop: the flag [missingToEnd] is read once, before it. *)
Definition orderByPartsOf (modelNode : Elem) (criteriaConfigs : list Elem)
    : result (list string) :=
  let missingToEnd := getEntryValue (entry modelNode) "missingToEnd" in
  pushed ← traverse (criterionTerm missingToEnd) criteriaConfigs;
  Ret (omap id (pushed : list (option string))).

Definition passthrough (previousNodeName warning : string) : string :=
  "SELECT * FROM " +:+ quoteIdent previousNodeName +:+ "; -- Warning: " +:+ warning.

Definition convertSorterNodeToSQL (nodeConfig : Elem)
    (previousNodeName : option string) : result string :=
  let previousNodeName := default "input_table" previousNodeName in
  let factory := getEntryValue (entry nodeConfig) "factory" in
  if negb (isStr factory SORTER_FACTORY) then
    let factoryInfo :=
      if truthy factory then dq +:+ toText factory +:+ dq else "N/A" in
    Ret ("Error: Expected Sorter node factory (" +:+ SORTER_FACTORY
         +:+ "), but got " +:+ factoryInfo +:+ ".")
  else
    match findConfigByKey (config nodeConfig) "model" with
    | None => Ret "Error: Model configuration not found or invalid."
    | Some modelNode =>
        if negb (present (config modelNode)) || negb (present (entry modelNode))
        then Ret "Error: Model configuration not found or invalid."
        else
          let sortingCriteriaNode :=
            findConfigByKey (config modelNode) "sortingCriteria" in
          if negb (present (configOf sortingCriteriaNode)) then
            Ret (passthrough previousNodeName "No sorting criteria found")
          else
            let criteriaConfigs := toArray (configOf sortingCriteriaNode) in
            orderByParts ← orderByPartsOf modelNode criteriaConfigs;
            match orderByParts with
            | [] =>
                Ret (passthrough previousNodeName
                                 "No valid sorting criteria processed")
            | _ :: _ =>
                let quotedPreviousNodeName := quoteIdent previousNodeName in
                let selectClause := "SELECT *" in
                let fromClause := "FROM " +:+ quotedPreviousNodeName in
                let orderByClause :=
                  "ORDER BY" +:+ nl +:+ "  "
                  +:+ join ("," +:+ nl +:+ "  ") orderByParts in
                Ret (selectClause +:+ nl +:+ fromClause +:+ nl
                     +:+ orderByClause +:+ ";")
            end
    end.

End Sorter.

(** ** Concatenate (src/functions/convertConcatenateNodeToSQL.js) *)

Module Concatenate.
Import JS.

Definition CONCATENATE_FACTORY : string :=
  "org.knime.base.node.preproc.append.row.AppendedRowsNodeFactory".

(** One predecessor context, [{ nodeName, nodes }]; [nodes] is [None]
    when the property is missing (then it is not an array). *)
Record Pred : Type := mkPred {
  nodeName : string;
  nodes : option (list string)
}.

(** [JSON.stringify] on the values of this model, for the diagnostics. *)
Definition hexDigit (n : nat) : ascii :=
  ascii_of_nat (if Nat.ltb n 10 then 48 + n else 87 + n).

Definition jsonChar (c : ascii) : string :=
  let n := nat_of_ascii c in
  if Ascii.eqb c dqc then "\" +:+ dq
  else if Ascii.eqb c "\"%char then "\\"
  else if Nat.eqb n 8 then "\b"
  else if Nat.eqb n 9 then "\t"
  else if Nat.eqb n 10 then "\n"
  else if Nat.eqb n 12 then "\f"
  else if Nat.eqb n 13 then "\r"
  else if Nat.ltb n 32
  then "\u00" +:+ str1 (hexDigit (n / 16)) +:+ str1 (hexDigit (n mod 16))
  else str1 c.

Fixpoint jsonChars (s : string) : string :=
  match s with
  | EmptyString => EmptyString
  | String c s' => jsonChar c +:+ jsonChars s'
  end.

Definition jsonString (s : string) : string := dq +:+ jsonChars s +:+ dq.

Definition jsonPred (p : option Pred) : string :=
  match p with
  | None => "null"
  | Some p =>
      "{" +:+ dq +:+ "nodeName" +:+ dq +:+ ":" +:+ jsonString (nodeName p)
      +:+ match nodes p with
          | None => EmptyString
          | Some l =>
              "," +:+ dq +:+ "nodes" +:+ dq +:+ ":["
              +:+ join "," (map jsonString l) +:+ "]"
          end
      +:+ "}"
  end.

Definition jsonContext (ctx : option (list (option Pred))) : string :=
  match ctx with
  | None => "undefined"
  | Some l => "[" +:+ join "," (map jsonPred l) +:+ "]"
  end.

(** The validation loop: the first index whose context is not
    [{ nodeName: string, nodes: string[] }], or all the contexts. *)
Fixpoint validate (i : nat) (l : list (option Pred))
    : (nat * option Pred) + list (string * list string) :=
  match l with
  | [] => inr []
  | p :: l' =>
      match p with
      | Some (mkPred name (Some cols)) =>
          if String.eqb name EmptyString then inl (i, p)
          else
            match validate (S i) l' with
            | inl bad => inl bad
            | inr ok => inr ((name, cols) :: ok)
            end
      | _ => inl (i, p)
      end
  end.

(** A JavaScript [Set] of strings: the elements in insertion order. *)
Definition has (s : list string) (x : string) : bool :=
  existsb (String.eqb x) s.
Definition add (s : list string) (x : string) : list string :=
  if has s x then s else (s ++ [x])%list.
Definition setOf (l : list string) : list string := foldl add [] l.

Definition intersectionOf (allInputColumnSets : list (list string)) : list string :=
  match allInputColumnSets with
  | [] => []
  | first :: rest =>
      foldl (fun intersection colSet =>
               setOf (List.filter (fun col => has colSet col) intersection))
            (setOf first) rest
  end.

Definition unionOf (allInputColumnSets : list (list string)) : list string :=
  foldl (fun unionSet colSet => foldl add unionSet colSet) [] allInputColumnSets.

(** [Array.prototype.sort] without a comparator orders strings by their
    code units. *)
Definition strLe (x y : string) : Prop := String.leb x y = true.
#[global] Instance strLe_dec x y : Decision (strLe x y).
Proof. unfold strLe. apply _. Defined.

Definition sortColumns (l : list string) : list string := merge_sort strLe l.

(** Step 4: the final output columns before sorting. *)
Definition finalColumnsOf (intersectionOfColumns : bool)
    (allInputColumnSets : list (list string)) : list string :=
  if intersectionOfColumns then intersectionOf allInputColumnSets
  else unionOf allInputColumnSets.

(** Step 5: the entry of one predecessor's select list for one column. *)
Definition selectItem (quotedPredName : string) (predColumns : list string)
    (col : string) : string :=
  let quotedCol := quoteIdent col in
  if has predColumns col then quotedPredName +:+ "." +:+ quotedCol
  else "NULL AS " +:+ quotedCol.

Definition selectListOf (finalOutputColumns : list string)
    (pred : string * list string) : list string :=
  map (selectItem (quoteIdent pred.1) (setOf pred.2)) finalOutputColumns.

Definition selectStatement (finalOutputColumns : list string)
    (pred : string * list string) : string :=
  "SELECT" +:+ nl +:+ "    "
  +:+ join ("," +:+ nl +:+ "    ") (selectListOf finalOutputColumns pred)
  +:+ nl +:+ "  FROM " +:+ quoteIdent pred.1.

Definition sqlCommentOf (intersectionOfColumns : bool)
    (failOnDuplicates appendSuffix : jsval) : string :=
  "-- Concatenate Node Conversion (using UNION ALL)" +:+ nl
  +:+ (if intersectionOfColumns then "-- Mode: Intersection of columns" +:+ nl
       else "-- Mode: Union of columns (default)" +:+ nl)
  +:+ match failOnDuplicates, appendSuffix with
      | JNull, JNull => EmptyString
      | _, _ =>
          "-- Note: KNIME options 'fail_on_duplicates' and 'append_suffix' for column names are not directly translated. SQL UNION ALL requires columns in SELECT lists to align."
          +:+ nl
      end.

(** Step 3: where the settings are read from, the flag, and the
    comment that heads the output. *)
Definition configSourceOf (nodeConfig : Elem) : Multi :=
  let modelNode := findConfigByKey (config nodeConfig) "model" in
  if present (entryOf modelNode) then entryOf modelNode else entry nodeConfig.

Definition intersectionFlag (nodeConfig : Elem) : bool :=
  match getEntryValue (configSourceOf nodeConfig) "intersection_of_columns" with
  | JBool true => true
  | _ => false
  end.

Definition commentFor (nodeConfig : Elem) : string :=
  let configSource := configSourceOf nodeConfig in
  let failOnDuplicates := getEntryValue configSource "fail_on_duplicates" in
  let appendSuffix := getEntryValue configSource "append_suffix" in
  sqlCommentOf (intersectionFlag nodeConfig) failOnDuplicates appendSuffix.

(** [predecessorNodeContext] is [None] when it is not an array. *)
Definition convertConcatenateNodeToSQL (nodeConfig : Elem)
    (predecessorNodeContext : option (list (option Pred))) : string :=
  let factory := getEntryValue (entry nodeConfig) "factory" in
  if negb (isStr factory CONCATENATE_FACTORY) then
    let factoryInfo :=
      if truthy factory then dq +:+ toText factory +:+ dq else "N/A" in
    "Error: Expected Concatenate node factory (" +:+ CONCATENATE_FACTORY
    +:+ "), but got " +:+ factoryInfo +:+ "."
  else
    let found := length (default [] predecessorNodeContext) in
    if negb (bool_decide (is_Some predecessorNodeContext)) || Nat.ltb found 2 then
      "Error: Concatenate node requires at least two predecessors, but found "
      +:+ pretty found +:+ ". Context: " +:+ jsonContext predecessorNodeContext
    else
      match validate 0 (default [] predecessorNodeContext) with
      | inl (i, pred) =>
          "Error: Invalid predecessor context at index " +:+ pretty i
          +:+ ". Expected { nodeName: string, nodes: string[] }, got: "
          +:+ jsonPred pred
      | inr preds =>
          let intersectionOfColumns := intersectionFlag nodeConfig in
          let sqlComment := commentFor nodeConfig in
          let allInputColumnSets := map (fun pred => setOf pred.2) preds in
          let unsorted := finalColumnsOf intersectionOfColumns allInputColumnSets in
          if intersectionOfColumns && bool_decide (unsorted = []) then
            "Error: Intersection of columns resulted in an empty column set."
          else
            let finalOutputColumns := sortColumns unsorted in
            match finalOutputColumns with
            | [] => "Error: No columns determined for the output."
            | _ :: _ =>
                let unionParts := map (selectStatement finalOutputColumns) preds in
                let finalSql :=
                  sqlComment
                  +:+ join (nl +:+ "UNION ALL" +:+ nl) unionParts in
                trim finalSql +:+ ";"
            end
      end.

(** The context array made of valid predecessor contexts, each given by
    its name and its columns. *)
Definition contextOf (preds : list (string * list string))
    : option (list (option Pred)) :=
  Some (map (fun p => Some (mkPred p.1 (Some p.2))) preds).

End Concatenate.

(** ** The viewer (src/KNIMEViewer.jsx): dispatcher and node records *)

Module Viewer.
Import JS.

(** [entries.find((e) => e._attributes.key === key)]: reading [key] of a
    missing [_attributes] is a fault. *)
Fixpoint findEntry (k : string) (entries : list Elem) : result (option Elem) :=
  match entries with
  | [] => Ret None
  | e :: l =>
      match attributes e with
      | None => Fault
      | Some a => if optIs (a_key a) k then Ret (Some e) else findEntry k l
      end
  end.

(** The viewer's own [getEntryValue]: it takes the node, not its
    entries, and answers the empty text where nothing is found. *)
Definition getEntryValue (data : option Elem) (k : string) : result string :=
  match data with
  | None => Ret EmptyString
  | Some d =>
      if negb (present (entry d)) then Ret EmptyString
      else
        found ← findEntry k (toArray (entry d));
        Ret (match found with
             | Some e =>
                 match attributes e with
                 | Some a => default EmptyString (a_value a)
                 | None => EmptyString
                 end
             | None => EmptyString
             end)
  end.

Definition CSV_READER_FACTORY : string :=
  "org.knime.base.node.io.filehandling.csv.reader.CSVTableReaderNodeFactory".
Definition COLUMN_FILTER_FACTORY : string :=
  "org.knime.base.node.preproc.filter.column.DataColumnSpecFilterNodeFactory".

Definition NOT_SUPPORTED : string :=
  "Conversion for this node type is not supported.".
Definition MISSING_FACTORY : string :=
  "Invalid node configuration: missing factory value.".

Section Dispatcher.

(** The two translators the dispatcher knows are imported from files
    that are not among the sources: they are parameters here. *)
Variable convertCSVReaderNodeToSQL : Elem -> result string.
Variable convertColumnFilterNodeToSQL : Elem -> string -> result string.

Definition convertSelectedNodeToSQL (nodeConfig : Elem)
    (previousNodeName : string) : result string :=
  factory ← getEntryValue (Some nodeConfig) "factory";
  if String.eqb factory EmptyString then Ret MISSING_FACTORY
  else if String.eqb factory CSV_READER_FACTORY
  then convertCSVReaderNodeToSQL nodeConfig
  else if String.eqb factory COLUMN_FILTER_FACTORY
  then convertColumnFilterNodeToSQL nodeConfig
         (if String.eqb previousNodeName EmptyString then "input_table"
          else previousNodeName)
  else Ret NOT_SUPPORTED.

End Dispatcher.

(** *** handleUpload

    [parseWorkflowKnime] is imported from a file that is not among the
    sources: it is a parameter below.  The ids of the nodes and of the
    connections it returns are numbers, as the specification has them. *)

Record WfNode : Type := mkWfNode { wf_id : N }.
Record Connection : Type := mkConnection { sourceID : N; destID : N }.

(** What [parseInt] gives on a text of digits: a finite number or
    [Infinity]. *)
Inductive Num : Type :=
| Finite (n : N)
| Infinity.

(** One entry of the archive: its path and what
    [JSON.parse(xmlJs.xml2json(text, ...))] makes of its text, that is
    the [config] property of the JSON ([None] when the JSON has none), or
    [Fault] when reading or converting the text raises. *)
Record ZipFile : Type := mkZipFile {
  filePath : string;
  fileJson : result (option Elem)
}.

(** A row of [nodeData]; [order] is [None] for the text N/A, [id] is
    [None] for [null]. *)
Record NodeRecord : Type := mkNodeRecord {
  id : option Num;
  nodeName : string;
  nodeType : string;
  nodeStatus : string;
  description : string;
  nodeConfig : option Elem;
  order : option nat;
  nextNodes : list N
}.

Definition nodeOrderMapOf (nodes : list WfNode) : gmap N nat :=
  foldl (fun m p => <[wf_id p.2 := p.1]> m) ∅
        (zip (seq 0 (length nodes)) nodes).

Definition nextNodeMapOf (connections : list Connection) : gmap N (list N) :=
  foldl (fun m conn =>
           <[sourceID conn := (default [] (m !! sourceID conn) ++ [destID conn])%list]> m)
        ∅ connections.

(** [nodeOrderMap[nodeId]] and [nextNodeMap[nodeId]]: the key of a
    property is the text of the number, so that a number finds what was
    stored under the same number; the ids stored are finite. *)
Definition lookupId {A : Type} (m : gmap N A) (nodeId : Num) : option A :=
  match nodeId with
  | Finite n => m !! n
  | Infinity => None
  end.

(** [s.split(c)] for a one-character separator. *)
Fixpoint splitOn (sep : ascii) (s : string) : list string :=
  match s with
  | EmptyString => [EmptyString]
  | String c s' =>
      if Ascii.eqb c sep then EmptyString :: splitOn sep s'
      else
        match splitOn sep s' with
        | h :: t => String c h :: t
        | [] => [str1 c]
        end
  end.

(** The test that finds the descriptor:
    [parts[parts.length - 1] === ...]. *)
Definition isWorkflowPath (path : string) : bool :=
  match rev (splitOn "/"%char path) with
  | lastPart :: _ => String.eqb lastPart "workflow.knime"
  | [] => false
  end.

(** The filter that keeps the settings documents:
    [parts.length > 1 && parts[parts.length - 1] === ...]. *)
Definition isSettingsPath (path : string) : bool :=
  match rev (splitOn "/"%char path) with
  | lastPart :: _ :: _ => String.eqb lastPart "settings.xml"
  | _ => false
  end.

(** [pathParts[pathParts.length - 2]] *)
Definition nodeFolderOf (path : string) : option string :=
  match rev (splitOn "/"%char path) with
  | _ :: folder :: _ => Some folder
  | _ => None
  end.

Fixpoint takeChars (n : nat) (s : string) : string :=
  match n, s with
  | S k, String c s' => String c (takeChars k s')
  | _, _ => EmptyString
  end.

(** The first group of the leftmost match of a hash sign, one or more
    digits, an optional closing parenthesis and the end of the text. *)
Fixpoint matchTrailingId (s : string) : option string :=
  match s with
  | EmptyString => None
  | String c s' =>
      if Ascii.eqb c "#"%char then
        let '(n, r) := spanDigits s' in
        if Nat.ltb 0 n && (String.eqb r EmptyString || String.eqb r ")")
        then Some (takeChars n s')
        else matchTrailingId s'
      else matchTrailingId s'
  end.

(** The integer that a text of digits spells. *)
Definition digitsValue (digits : string) : N :=
  let fix go (acc : N) (s : string) : N :=
    match s with
    | EmptyString => acc
    | String c s' => go (acc * 10 + (N_of_ascii c - 48))%N s'
    end in
  go 0%N digits.

(** The Number value for an integer: the integer itself below 2^53;
    above, the nearest number with a significand of 53 bits, the even
    significand where two are as near; [Infinity] from 2^1024 on.
    (ECMAScript lets an engine read the digits after the twentieth of a
    longer text as zeros; the exact conversion is the one modelled.) *)
Definition toNumber (n : N) : Num :=
  let e := (N.log2 n - 52)%N in
  let q := N.shiftr n e in
  let r := (n - N.shiftl q e)%N in
  let half := N.shiftr (N.shiftl 1 e) 1 in
  let up := N.ltb half r || (N.eqb r half && N.odd q && N.ltb 0 e) in
  let rounded := N.shiftl (if up then q + 1 else q)%N e in
  if N.ltb rounded (2 ^ 1024)%N then Finite rounded else Infinity.

(** [parseInt(digits, 10)] on a text of digits. *)
Definition parseDigits (digits : string) : Num := toNumber (digitsValue digits).

Definition nodeIdOf (nodeFolder : string) : option Num :=
  parseDigits <$> matchTrailingId nodeFolder.

(** The body of the callback run on each settings document: the record
    it appends with [setNodeData], or a fault (then nothing is
    appended; the rejection of the callback's promise is not handled
    anywhere). *)
Definition buildNode (nodeOrderMap : gmap N nat) (nextNodeMap : gmap N (list N))
    (item : ZipFile) : result NodeRecord :=
  jsonConfig ← fileJson item;
  let nodeId := nodeFolderOf (filePath item) ≫= nodeIdOf in
  let order := nodeId ≫= lookupId nodeOrderMap in
  let nextNodes := default [] (nodeId ≫= lookupId nextNodeMap) in
  name ← getEntryValue jsonConfig "name";
  factory ← getEntryValue jsonConfig "factory";
  state ← getEntryValue jsonConfig "state";
  customDescription ← getEntryValue jsonConfig "customDescription";
  Ret {| id := nodeId; nodeName := name; nodeType := factory;
         nodeStatus := state; description := customDescription;
         nodeConfig := jsonConfig; order := order; nextNodes := nextNodes |}.

Definition NOT_FOUND : string := "workflow.knime not found in the .knwf file".
Definition FAILED : string := "Failed to process .knwf file".

(** What the call of [handleUpload] leaves when it returns: either
    [message.error] was called with a text and no state was set, or
    [setNextNodeMap] was called and one callback was started for each
    settings document.  A callback is given by what it will do when it
    finishes: append a record, or raise. *)
Inductive Upload : Type :=
| Refused (message : string)
| Started (nextNodeMap : gmap N (list N)) (callbacks : list (result NodeRecord)).

Section Upload.

Variable parseWorkflowKnime : option Elem -> result (list WfNode * list Connection).

(** [zipContent] is [Fault] when [zip.loadAsync] rejects; otherwise it
    is the entries of the archive in the order of
    [Object.keys(zipContent.files)].  Whatever raises inside [try]
    (loading, reading and converting the descriptor, the parser, the
    loops over a missing list) ends in the [catch]. *)
Definition handleUpload (zipContent : result (list ZipFile)) : Upload :=
  match zipContent with
  | Fault => Refused FAILED
  | Ret allFiles =>
      match find (fun f => isWorkflowPath (filePath f)) allFiles with
      | None => Refused NOT_FOUND
      | Some knimeFile =>
          match fileJson knimeFile ≫= parseWorkflowKnime with
          | Fault => Refused FAILED
          | Ret (nodes, connections) =>
              let nodeOrderMap := nodeOrderMapOf nodes in
              let nextNodeMap := nextNodeMapOf connections in
              let xmlPaths :=
                List.filter (fun f => isSettingsPath (filePath f)) allFiles in
              Started nextNodeMap (map (buildNode nodeOrderMap nextNodeMap) xmlPaths)
          end
      end
  end.

End Upload.

(** [setNodeData((prev) => [...prev, node])] *)
Definition appended (r : result NodeRecord) : list NodeRecord :=
  match r with
  | Ret node => [node]
  | Fault => []
  end.

(** The callbacks finish one at a time, in any order: [finishes
    callbacks nodeData final] says that, with these callbacks still
    running and [nodeData] as it is now, [final] is a state of
    [nodeData] once all have finished. *)
Inductive finishes : list (result NodeRecord) -> list NodeRecord
                     -> list NodeRecord -> Prop :=
| finishes_done (nodeData : list NodeRecord) : finishes [] nodeData nodeData
| finishes_next (before after : list (result NodeRecord)) (callback : result NodeRecord)
      (nodeData final : list NodeRecord) :
    finishes (before ++ after) (nodeData ++ appended callback) final ->
    finishes (before ++ callback :: after) nodeData final.

(** The run in which the callbacks finish in the order they were
    started. *)
Definition finishInOrder (callbacks : list (result NodeRecord))
    (nodeData : list NodeRecord) : list NodeRecord :=
  (nodeData ++ flat_map appended callbacks)%list.

(** [nodeData] after an upload whose callbacks finish in that order. *)
Definition nodeDataAfter (upload : Upload) (nodeData : list NodeRecord)
    : list NodeRecord :=
  match upload with
  | Refused _ => nodeData
  | Started _ callbacks => finishInOrder callbacks nodeData
  end.

End Viewer.

(** ** Concrete settings trees

    Builders that lay a tree out as xml-js does: an element with one
    child of a tag holds it as an object, with several as an array. *)

Module Build.

Definition children (l : list Elem) : Multi :=
  match l with
  | [] => Absent
  | [e] => One e
  | _ => Many l
  end.

(** [<entry key=k type=ty value=v/>] *)
Definition leaf (k ty v : string) : Elem :=
  mkElem (Some (mkAttrs (Some k) (Some ty) (Some v))) Absent Absent.

(** [<config key=k> entries configs </config>] *)
Definition node (k : string) (entries configs : list Elem) : Elem :=
  mkElem (Some (mkAttrs (Some k) None None)) (children entries) (children configs).

(** The root [<config>] of a settings document for a node of the given
    factory, with the children of its model. *)
Definition settings (factory : string) (modelEntries modelConfigs : list Elem) : Elem :=
  mkElem None
         (children [leaf "factory" "xstring" factory])
         (children [node "model" modelEntries modelConfigs]).

(** One predicate of a Row Filter: column, operator and the first value
    with the entries and configs of its value configuration. *)
Definition predicate (k column operator : string)
    (valueEntries valueConfigs : list Elem) : Elem :=
  node k
       [leaf "operator" "xstring" operator]
       [node "column" [leaf "selected" "xstring" column] [];
        node "predicateValues" []
             [node "values" [] [node "0" valueEntries valueConfigs]]].

Definition typeIdentifier (cellClass : string) (isNull : bool) : Elem :=
  node "typeIdentifier"
       [leaf "cell_class" "xstring" cellClass;
        leaf "is_null" "xboolean" (if isNull then "true" else "false")]
       [].

Definition rowFilter (outputMode matchCriteria : string) (predicates : list Elem) : Elem :=
  settings RowFilter.ROW_FILTER_FACTORY
           [leaf "outputMode" "xstring" outputMode;
            leaf "matchCriteria" "xstring" matchCriteria]
           [node "predicates" [] predicates].

End Build.

(** Modelled from the spec: [getArrayValuesFromConfig]
    (src/common/getArrayValuesFromConfig.js) is missing from the
    sources.  The specification's indexed-list accessor reads a node
    whose children are keyed by the sequential integers 0, 1, ... written
    as text, and returns them in numeric order as scalars; absence is
    an empty list. *)
Module IndexedList.

Fixpoint indexedFrom (fuel i : nat) (entries : list Elem) : list string :=
  match fuel with
  | O => []
  | S fuel' =>
      match find (hasKey (pretty i)) entries with
      | Some e =>
          default EmptyString (attributes e ≫= a_value)
          :: indexedFrom fuel' (S i) entries
      | None => []
      end
  end.

Definition getArrayValuesFromConfig (node : option Elem) : list string :=
  let entries := toArray (entryOf node) in
  indexedFrom (length entries) 0 entries.

End IndexedList.

(** ** Inputs used by the closing examples *)

Module Ex.
Import Build.

Definition intCell : string := "org.knime.core.data.def.IntCell".
Definition stringCell : string := "org.knime.core.data.def.StringCell".

(** [colA EQ 5] and [colB IS_MISSING] *)
Definition colA_eq_5 : Elem :=
  predicate "0" "colA" "EQ" [leaf "value" "xstring" "5"]
            [typeIdentifier intCell false].
Definition colB_missing : Elem := predicate "1" "colB" "IS_MISSING" [] [].

(** A LIKE predicate on [name] with the pattern [a_b*c?%]. *)
Definition name_like : Elem :=
  predicate "0" "name" "LIKE" [leaf "value" "xstring" "a_b*c?%"]
            [typeIdentifier stringCell false].

(** A LIKE predicate whose value entry is a boolean leaf. *)
Definition flag_like_true : Elem :=
  predicate "0" "flag" "LIKE" [leaf "value" "xboolean" "true"]
            [typeIdentifier stringCell false].
Definition likeBooleanFilter : Elem := rowFilter "MATCHING" "AND" [flag_like_true].

(** A predicate with no value entry: it is skipped. *)
Definition no_value : Elem :=
  predicate "0" "c" "GT" [] [typeIdentifier intCell false].
Definition droppedFilter : Elem := rowFilter "MATCHING" "AND" [no_value].

(** Predicates whose value configuration says [is_null = true]. *)
Definition c_gt_null : Elem :=
  predicate "0" "c" "GT" [leaf "value" "xstring" "5"]
            [typeIdentifier intCell true].
Definition c_not_missing_null : Elem :=
  predicate "0" "c" "IS_NOT_MISSING" [leaf "value" "xstring" "5"]
            [typeIdentifier intCell true].

(** A node of a type the dispatcher does not know. *)
Definition unknownNode : Elem :=
  settings "org.example.UnknownNodeFactory" [] [].

(** A list node as the modelled accessor reads it. *)
Definition listNode (k : string) (values : list string) : Elem :=
  node k (imap (fun i v => leaf (pretty i) "xstring" v) values) [].

Definition groupBy (policy : string) (grouping aggColumns aggMethods : list string) : Elem :=
  settings GroupBy.GROUPBY_FACTORY
           [leaf "columnNamePolicy" "xstring" policy]
           [node "grouByColumns" [] [listNode "InclList" grouping];
            node "aggregationColumn" []
                 [listNode "columnNames" aggColumns;
                  listNode "aggregationMethod" aggMethods]].

Definition regionSum : Elem :=
  groupBy "Aggregation method (column name)" ["region"] ["sales"] ["Sum"].
Definition regionOnly : Elem :=
  groupBy "Aggregation method (column name)" ["region"] [] [].
Definition sumOnly : Elem :=
  groupBy "Aggregation method (column name)" [] ["sales"] ["Sum"].
Definition nothing : Elem :=
  groupBy "Aggregation method (column name)" [] [] [].

(** A Sorter with the criteria [age DESCENDING] and [name ASCENDING]
    and [missingToEnd = true]. *)
Definition criterion (k column sortingOrder : string) : Elem :=
  node k
       [leaf "sortingOrder" "xstring" sortingOrder;
        leaf "stringComparison" "xstring" "NATURAL"]
       [node "column" [leaf "selected" "xstring" column] []].

Definition criterionWith (k column sortingOrder stringComparison : string) : Elem :=
  node k
       [leaf "sortingOrder" "xstring" sortingOrder;
        leaf "stringComparison" "xstring" stringComparison]
       [node "column" [leaf "selected" "xstring" column] []].

(** A Sorter with the one criterion [age DESCENDING], compared
    alphanumerically, and [missingToEnd = true]. *)
Definition sorterAlphanumeric : Elem :=
  mkElem None
         (children [leaf "factory" "xstring" Sorter.SORTER_FACTORY])
         (children
            [node "model" [leaf "missingToEnd" "xboolean" "true"]
                  [node "sortingCriteria" []
                        [criterionWith "0" "age" "DESCENDING" "ALPHANUMERIC"]]]).

Definition sorterModel : Elem :=
  node "model" [leaf "missingToEnd" "xboolean" "true"]
       [node "sortingCriteria" []
             [criterion "0" "age" "DESCENDING"; criterion "1" "name" "ASCENDING"]].

Definition sorter : Elem :=
  mkElem None
         (children [leaf "factory" "xstring" Sorter.SORTER_FACTORY])
         (children [sorterModel]).

(** A Concatenate node in union mode and its two predecessors, with the
    columns a, b and b, c. *)
Definition concatenate (intersection : bool) : Elem :=
  settings Concatenate.CONCATENATE_FACTORY
           [leaf "intersection_of_columns" "xboolean"
                 (if intersection then "true" else "false")]
           [].

Definition predAB : Concatenate.Pred := Concatenate.mkPred "t1" (Some ["a"; "b"]).
Definition predBC : Concatenate.Pred := Concatenate.mkPred "t2" (Some ["b"; "c"]).
Definition twoPreds : option (list (option Concatenate.Pred)) :=
  Some [Some predAB; Some predBC].

(** A workflow with the nodes 1 and 2, one connection, and an archive
    that holds a settings document for node 2 only. *)
Definition wfNodes : list Viewer.WfNode := [Viewer.mkWfNode 1; Viewer.mkWfNode 2].
Definition wfConnections : list Viewer.Connection := [Viewer.mkConnection 1 2].
Definition node2Settings : Elem :=
  mkElem None
         (children [leaf "name" "xstring" "Row Filter";
                    leaf "factory" "xstring" RowFilter.ROW_FILTER_FACTORY;
                    leaf "state" "xstring" "EXECUTED"])
         Absent.
Definition archive : list Viewer.ZipFile :=
  [Viewer.mkZipFile "wf/workflow.knime" (Ret None);
   Viewer.mkZipFile "wf/Row Filter (#2)/settings.xml" (Ret (Some node2Settings))].

(** The parser's answer on the descriptor of that archive. *)
Definition parsed (workflowJson : option Elem)
    : result (list Viewer.WfNode * list Viewer.Connection) :=
  Ret (wfNodes, wfConnections).


(** The same archive without its descriptor. *)
Definition settingsOnly : list Viewer.ZipFile :=
  [Viewer.mkZipFile "wf/Row Filter (#2)/settings.xml" (Ret (Some node2Settings))].

End Ex.

(** ** Notions used to state the properties *)

(** The table read from the SQL side. *)
Definition operatorOfSql (sqlOperator : string) : string :=
  if String.eqb sqlOperator "=" then "EQ"
  else if String.eqb sqlOperator "!=" then "NEQ"
  else if String.eqb sqlOperator "<" then "LT"
  else if String.eqb sqlOperator "<=" then "LE"
  else if String.eqb sqlOperator ">" then "GT"
  else if String.eqb sqlOperator ">=" then "GE"
  else if String.eqb sqlOperator "LIKE" then "LIKE"
  else if String.eqb sqlOperator "REGEXP" then "REGEX"
  else if String.eqb sqlOperator "IS NULL" then "IS_MISSING"
  else "IS_NOT_MISSING".

(** The comparison of a LIKE predicate, before the ESCAPE clause. *)
Definition likeComparison (c : string) (lower : bool) (pattern : string) : string :=
  let literal := "'" +:+ JS.escapeQuote pattern +:+ "'" in
  if lower
  then "LOWER(" +:+ JS.quoteIdent c +:+ ") LIKE LOWER(" +:+ literal +:+ ")"
  else JS.quoteIdent c +:+ " LIKE " +:+ literal.

(** The last character of a text. *)
Fixpoint lastChar (s : string) : option ascii :=
  match s with
  | EmptyString => None
  | String c s' =>
      match lastChar s' with
      | None => Some c
      | last => last
      end
  end.

(** Every entry of the document's root has its [_attributes]: what the
    viewer's [getEntryValue] needs to return. *)
Definition entriesReadable (cfg : option Elem) : Prop :=
  match cfg with
  | None => True
  | Some d => Forall (fun e => is_Some (attributes e)) (toArray (entry d))
  end.

(** ** More of the viewer and notions for further properties *)

Module Display.
Import JS.

(** [formatNodeType] of the viewer: [fullType.split(".").pop() || fullType],
    the text after the last dot, or the whole text when nothing follows
    the last dot. *)
Definition formatNodeType (fullType : string) : string :=
  match rev (Viewer.splitOn "."%char fullType) with
  | lastPart :: _ =>
      if String.eqb lastPart EmptyString then fullType else lastPart
  | [] => fullType
  end.

End Display.

(** An [_attributes] object that has one of the [keys] and the type
    xboolean. *)
Definition booleanAttrs (keys : list string) (a : option Attrs) : bool :=
  match a with
  | Some a => existsb (optIs (a_key a)) keys && optIs (a_type a) "xboolean"
  | None => false
  end.

(** No element of the tree that carries one of the [keys] is typed
    xboolean: [getEntryValue] then never hands out a boolean for these
    keys, anywhere in the tree. *)
Fixpoint textAt (keys : list string) (e : Elem) {struct e} : bool :=
  match e with
  | mkElem a en cf =>
      negb (booleanAttrs keys a) && textAtM keys en && textAtM keys cf
  end
with textAtM (keys : list string) (m : Multi) {struct m} : bool :=
  match m with
  | Absent => true
  | One e => textAt keys e
  | Many l =>
      (fix all (l : list Elem) : bool :=
         match l with
         | [] => true
         | x :: l' => textAt keys x && all l'
         end) l
  end.

(** The keys whose values the Row Filter and the Sorter use as text. *)
Definition rowFilterTextKeys : list string := ["selected"; "value"; "cell_class"].
Definition sorterTextKeys : list string := ["selected"].

(** A predecessor context that passes the validation of Concatenate. *)
Definition isValidPred (p : option Concatenate.Pred) : bool :=
  match p with
  | Some (Concatenate.mkPred name (Some _)) => negb (String.eqb name EmptyString)
  | _ => false
  end.

(** The two lists the GroupBy translator zips. *)
Definition aggColumnNamesOf (getArrayValuesFromConfig : option Elem -> list string)
    (modelNode : Elem) : list string :=
  let aggColumnNode := findConfigByKey (config modelNode) "aggregationColumn" in
  getArrayValuesFromConfig (findConfigByKey (configOf aggColumnNode) "columnNames").

Definition aggMethodsOf (getArrayValuesFromConfig : option Elem -> list string)
    (modelNode : Elem) : list string :=
  let aggColumnNode := findConfigByKey (config modelNode) "aggregationColumn" in
  getArrayValuesFromConfig
    (findConfigByKey (configOf aggColumnNode) "aggregationMethod").

(** The model of [Ex.regionSum]. *)
Definition regionSumModel : Elem :=
  Build.node "model"
    [Build.leaf "columnNamePolicy" "xstring" "Aggregation method (column name)"]
    [Build.node "grouByColumns" [] [Ex.listNode "InclList" ["region"]];
     Build.node "aggregationColumn" []
       [Ex.listNode "columnNames" ["sales"];
        Ex.listNode "aggregationMethod" ["Sum"]]].


(** * Properties *)

(** ** Strings *)

Section StringFacts.
Import JS.

Lemma append_cons (c : ascii) (a b : string) :
  String c a +:+ b = String c (a +:+ b).
Proof. reflexivity. Qed.

Lemma append_nil_l (s : string) : EmptyString +:+ s = s.
Proof. reflexivity. Qed.


Lemma append_assoc (a b c : string) : (a +:+ b) +:+ c = a +:+ (b +:+ c).
Proof.
  induction a as [|x a IH]; [reflexivity |].
  rewrite !append_cons. now rewrite IH.
Qed.

Lemma length_append (a b : string) :
  String.length (a +:+ b) = String.length a + String.length b.
Proof.
  induction a as [|x a IH]; [reflexivity |].
  rewrite append_cons. simpl. now rewrite IH.
Qed.

Lemma endsWith_unfold (suf s : string) :
  endsWith suf s =
  String.eqb s suf ||
  match s with
  | EmptyString => false
  | String _ s' => endsWith suf s'
  end.
Proof. destruct s; reflexivity. Qed.

Lemma endsWith_refl (suf : string) : endsWith suf suf = true.
Proof. rewrite endsWith_unfold, String.eqb_refl. reflexivity. Qed.

Lemma endsWith_cons (suf : string) (c : ascii) (s : string) :
  endsWith suf s = true -> endsWith suf (String c s) = true.
Proof. intros H. rewrite endsWith_unfold, H. apply orb_true_r. Qed.

Lemma endsWith_append (suf a s : string) :
  endsWith suf s = true -> endsWith suf (a +:+ s) = true.
Proof.
  intros H. induction a as [|c a IH]; [exact H |].
  rewrite append_cons. now apply endsWith_cons.
Qed.

Lemma hasChar_false_replaceChar (c : ascii) (by_ s : string) :
  hasChar c s = false -> replaceChar c by_ s = s.
Proof.
  induction s as [|a s IH]; simpl; [reflexivity |].
  intros H. apply orb_false_iff in H as [Ha Hs].
  rewrite Ha. rewrite IH by exact Hs. reflexivity.
Qed.

Lemma replaceChar_length_1 (c d : ascii) (s : string) :
  String.length (replaceChar c (str1 d) s) = String.length s.
Proof.
  induction s as [|a s IH]; simpl; [reflexivity |].
  rewrite length_append, IH. destruct (Ascii.eqb a c); reflexivity.
Qed.

Lemma replaceChar_length_2 (c d e : ascii) (s : string) :
  String.length s <= String.length (replaceChar c (String d (str1 e)) s)
  /\ (hasChar c s = true ->
      String.length s < String.length (replaceChar c (String d (str1 e)) s)).
Proof.
  induction s as [|a s [IH1 IH2]]; simpl; [split; [lia | discriminate] |].
  rewrite length_append.
  destruct (Ascii.eqb a c); simpl.
  - split; [lia | intros _; lia].
  - split; [lia | intros H; specialize (IH2 H); lia].
Qed.

End StringFacts.

(** Membership in a list written out. *)
Ltac elem_of_listed :=
  cbn; repeat first [apply list_elem_of_here | apply list_elem_of_further].
Ltac not_elem_of_listed :=
  cbn; rewrite ?not_elem_of_cons;
  repeat split; first [assumption | discriminate | apply not_elem_of_nil].

(** ** The translators are not total (C1) *)

(** C1.  The specification asks that every translator return a value on
    every settings tree.  The Row Filter translator does not: on a LIKE
    predicate whose value entry is a boolean leaf, [getEntryValue] hands
    out a boolean, [translateKnimeWildcardToSQL] answers the empty text
    for it as its guard for non-string input says, and the ESCAPE test
    then calls [replace] on the boolean, which raises. *)
Theorem rowFilter_like_boolean_value_faults :
  getEntryValue (entry (mkElem None (Build.children [Build.leaf "value" "xboolean" "true"]) Absent))
                "value" = JBool true
  /\ RowFilter.translateKnimeWildcardToSQL (JBool true) = EmptyString
  /\ RowFilter.convertRowFilterNodeToSQL Ex.likeBooleanFilter "t" = Fault.
Proof. repeat split; vm_compute; reflexivity. Qed.

(** ** The dispatcher (C3) *)

(** C3, as the code has it.  For every factory identifier that the
    dispatcher reads and does not know (not empty, not one of the two
    registered), it returns the fixed text
    [Conversion for this node type is not supported.] as a value, whatever
    the registered translators are; that text does not start with
    [Error:]. *)
Theorem dispatcher_unknown_factory
    (convertCSVReaderNodeToSQL : Elem -> result string)
    (convertColumnFilterNodeToSQL : Elem -> string -> result string)
    (nodeConfig : Elem) (previousNodeName factory : string) :
  Viewer.getEntryValue (Some nodeConfig) "factory" = Ret factory ->
  factory <> EmptyString ->
  factory <> Viewer.CSV_READER_FACTORY ->
  factory <> Viewer.COLUMN_FILTER_FACTORY ->
  Viewer.convertSelectedNodeToSQL convertCSVReaderNodeToSQL
    convertColumnFilterNodeToSQL nodeConfig previousNodeName
  = Ret Viewer.NOT_SUPPORTED
  /\ JS.startsWith "Error:" Viewer.NOT_SUPPORTED = false.
Proof.
  intros Hf Hne Hcsv Hcf. split; [| reflexivity].
  unfold Viewer.convertSelectedNodeToSQL. rewrite Hf. cbn [mbind result_bind].
  apply String.eqb_neq in Hne, Hcsv, Hcf. now rewrite Hne, Hcsv, Hcf.
Qed.

Lemma dispatcher_unknown_factory_witness :
  Viewer.convertSelectedNodeToSQL (fun _ => Fault) (fun _ _ => Fault)
    Ex.unknownNode "t"
  = Ret Viewer.NOT_SUPPORTED
  /\ JS.startsWith "Error:" Viewer.NOT_SUPPORTED = false.
Proof.
  apply (dispatcher_unknown_factory _ _ Ex.unknownNode "t"
           "org.example.UnknownNodeFactory");
    [reflexivity | discriminate | discriminate | discriminate].
Defined.

(** C3, as the specification words it, fails: at a node of an unknown
    type the dispatcher's answer is a diagnostic and has no [Error:]
    prefix, for any pair of registered translators. *)
Lemma dispatcher_diagnostic_without_error_prefix :
  (fun csv columnFilter =>
     Viewer.convertSelectedNodeToSQL csv columnFilter Ex.unknownNode "t")
  = (fun _ _ => Ret "Conversion for this node type is not supported.")
  /\ JS.startsWith "Error:" "Conversion for this node type is not supported." = false.
Proof. split; reflexivity. Qed.

(** ** The operator table (C5) *)

Section OperatorTable.
Import RowFilter.

Lemma table_entries_inverse :
  Forall (fun kv => mapKnimeOperatorToSQL kv.1 = kv.2 /\ operatorOfSql kv.2 = kv.1)
         specOperatorTable.
Proof. repeat constructor. Qed.

Lemma mapKnimeOperatorToSQL_cases (op : string) :
  ((op, mapKnimeOperatorToSQL op) ∈ specOperatorTable)
  \/ ((op ∉ specOperatorTable.*1) /\ mapKnimeOperatorToSQL op = "=").
Proof.
  unfold mapKnimeOperatorToSQL.
  repeat
    match goal with
    | |- context [String.eqb op ?k] =>
        destruct (String.eqb_spec op k) as [-> | ?];
        [left; elem_of_listed |]
    end.
  right. split; [| reflexivity].
  not_elem_of_listed.
Qed.

(** C5, as the code has it.  The ten operators of the table are mapped
    as the table says, one to one, and every value of the mapping is one
    of the ten SQL operators; an operator outside the table is not
    refused, it is mapped to [=]. *)
Theorem operator_table_with_default :
  (forall k v, (k, v) ∈ specOperatorTable -> mapKnimeOperatorToSQL k = v)
  /\ (forall k1 k2, k1 ∈ specOperatorTable.*1 -> k2 ∈ specOperatorTable.*1 ->
        mapKnimeOperatorToSQL k1 = mapKnimeOperatorToSQL k2 -> k1 = k2)
  /\ (forall op, mapKnimeOperatorToSQL op ∈ specOperatorTable.*2)
  /\ (forall op, op ∉ specOperatorTable.*1 -> mapKnimeOperatorToSQL op = "=").
Proof.
  pose proof table_entries_inverse as Htab.
  rewrite Forall_forall in Htab.
  assert (Hkey : forall k, k ∈ specOperatorTable.*1 ->
                 operatorOfSql (mapKnimeOperatorToSQL k) = k).
  { intros k Hk. apply list_elem_of_fmap in Hk as [[k' v] [-> Hkv]].
    destruct (Htab _ Hkv) as [H1 H2]. simpl in *. now rewrite H1. }
  repeat split.
  - intros k v Hkv. exact (proj1 (Htab _ Hkv)).
  - intros k1 k2 H1 H2 Heq.
    rewrite <- (Hkey k1 H1), <- (Hkey k2 H2). now rewrite Heq.
  - intros op. destruct (mapKnimeOperatorToSQL_cases op) as [H | [_ ->]].
    + apply list_elem_of_fmap. now exists (op, mapKnimeOperatorToSQL op).
    + elem_of_listed.
  - intros op Hop. destruct (mapKnimeOperatorToSQL_cases op) as [H | [_ H]]; [| exact H].
    exfalso. apply Hop. apply list_elem_of_fmap.
    now exists (op, mapKnimeOperatorToSQL op).
Qed.

Lemma operator_table_with_default_witness :
  mapKnimeOperatorToSQL "REGEX" = "REGEXP"
  /\ mapKnimeOperatorToSQL "BETWEEN" = "=".
Proof.
  destruct operator_table_with_default as (Htable & _ & _ & Hdefault).
  split.
  - apply Htable. elem_of_listed.
  - apply Hdefault. not_elem_of_listed.
Defined.

(** C5, as the specification words it, fails: an operator outside the
    table is mapped to a SQL operator. *)
Lemma operator_outside_table_is_mapped :
  ("BETWEEN" ∉ specOperatorTable.*1)
  /\ mapKnimeOperatorToSQL "BETWEEN" = "="
  /\ "=" ∈ specOperatorTable.*2.
Proof.
  split; [| split]; [not_elem_of_listed | reflexivity | elem_of_listed].
Qed.

End OperatorTable.

(** ** Row Filter predicates (C6, C10) *)

Section RowFilterPredicates.
Import JS RowFilter.

Lemma hasChar_append (d : ascii) (a b : string) :
  hasChar d (a +:+ b) = hasChar d a || hasChar d b.
Proof.
  induction a as [|x a IH]; [reflexivity |].
  rewrite append_cons. simpl. rewrite IH. apply orb_assoc.
Qed.

Lemma hasChar_replaceChar_other (d c : ascii) (by_ s : string) :
  Ascii.eqb d c = false ->
  hasChar d s = true -> hasChar d (replaceChar c by_ s) = true.
Proof.
  intros Hdc. induction s as [|a s IH]; simpl; [discriminate |].
  intros H. rewrite hasChar_append.
  apply orb_true_iff in H as [H | H].
  - apply Ascii.eqb_eq in H as ->.
    rewrite Hdc. simpl. now rewrite Ascii.eqb_refl.
  - rewrite (IH H). apply orb_true_r.
Qed.

Lemma knimeToSqlWildcards_length (s : string) :
  String.length (knimeToSqlWildcards s) = String.length s.
Proof.
  unfold knimeToSqlWildcards.
  rewrite (replaceChar_length_1 "?" "_"), (replaceChar_length_1 "*" "%").
  reflexivity.
Qed.

Lemma escapeSqlWildcards_unchanged (v : string) :
  hasChar "%" v || hasChar "_" v = false -> escapeSqlWildcards v = v.
Proof.
  intros H. apply orb_false_iff in H as [H1 H2]. unfold escapeSqlWildcards.
  rewrite (hasChar_false_replaceChar "%" _ v H1).
  now apply hasChar_false_replaceChar.
Qed.

Lemma escapeSqlWildcards_longer (v : string) :
  hasChar "%" v || hasChar "_" v = true ->
  String.length v < String.length (escapeSqlWildcards v).
Proof.
  intros H. unfold escapeSqlWildcards.
  destruct (replaceChar_length_2 "%" "\" "%" v) as [Hle1 Hlt1].
  destruct (replaceChar_length_2 "_" "\" "_" (replaceChar "%" "\%" v))
    as [Hle2 Hlt2].
  change (String "\" (str1 "%")) with "\%" in *.
  change (String "\" (str1 "_")) with "\_" in *.
  destruct (hasChar "%" v) eqn:Hp.
  - specialize (Hlt1 eq_refl). lia.
  - simpl in H.
    assert (Hu : hasChar "_" (replaceChar "%" "\%" v) = true)
      by (apply hasChar_replaceChar_other; [reflexivity | exact H]).
    specialize (Hlt2 Hu). lia.
Qed.

(** The ESCAPE test of the code compares the full translation with the
    translation of the wildcards alone; they differ exactly when the
    value holds a literal [%] or [_]. *)
Lemma escape_test (v : string) :
  negb (String.eqb (translateKnimeWildcardToSQL (JStr v)) (knimeToSqlWildcards v))
  = hasChar "%" v || hasChar "_" v.
Proof.
  simpl. destruct (hasChar "%" v || hasChar "_" v) eqn:H.
  - apply negb_true_iff, String.eqb_neq. intros Heq.
    apply (f_equal String.length) in Heq.
    rewrite !knimeToSqlWildcards_length in Heq.
    pose proof (escapeSqlWildcards_longer v H). lia.
  - rewrite (escapeSqlWildcards_unchanged v H), String.eqb_refl. reflexivity.
Qed.

(** C6.  For a LIKE predicate with the string column [c] and the string
    value [v] (and a value configuration that is not marked [is_null],
    with a cell class that is a string or missing), the pattern is [v]
    with its literal [%] and [_] escaped first and then [*] and [?]
    replaced by [%] and [_]; the ESCAPE clause is appended to the
    condition exactly when [v] holds a literal [%] or [_], which is
    exactly when the escaping step changed [v]. *)
Theorem like_pattern_and_escape (p : Elem) (c : string) (vn svc : Elem)
    (v : string) (isStringType : bool) :
  predicateParts p = Ret (Some (JStr c, "LIKE", vn)) ->
  singleValueConfigOf vn = Some svc ->
  getEntryValue (entry svc) "value" = JStr v ->
  isNullOf svc <> JBool true ->
  includesStringCell (cellClassOf svc) = Ret isStringType ->
  let pattern :=
    replaceChar "?" "_" (replaceChar "*" "%" (escapeSqlWildcards v)) in
  let lower := (isStringType || negb (isNumericString v)) && negb (caseSensitiveOf svc) in
  let escaped := hasChar "%" v || hasChar "_" v in
  predicateCondition p
  = Ret (Some (if escaped
               then likeComparison c lower pattern +:+ " ESCAPE '\'"
               else likeComparison c lower pattern))
  /\ (escaped = true <-> escapeSqlWildcards v <> v).
Proof.
  intros Hparts Hsvc Hv Hnull Hcell pattern lower escaped. split.
  - unfold predicateCondition. rewrite Hparts. cbn [mbind result_bind].
    unfold operatorCondition.
    change (mapKnimeOperatorToSQL "LIKE") with "LIKE".
    change (String.eqb "LIKE" "IS NULL" || String.eqb "LIKE" "IS NOT NULL")
      with false.
    cbv iota. rewrite Hsvc. unfold valueCondition.
    rewrite Hv, Hcell.
    change (quoteValue (JStr c)) with (Ret (quoteIdent c)).
    cbn [mbind result_bind asString isNumericValue].
    change (String.eqb "LIKE" "LIKE") with true. cbv iota.
    cbn [mbind result_bind].
    rewrite escape_test. fold escaped.
    change (isTextOperator "LIKE") with true. rewrite andb_true_r.
    fold lower.
    assert (Hgoal :
      Ret (Some (if escaped
                 then (if lower
                       then "LOWER(" +:+ quoteIdent c +:+ ") " +:+ "LIKE"
                            +:+ " LOWER("
                            +:+ ("'" +:+ escapeQuote (translateKnimeWildcardToSQL (JStr v)) +:+ "'")
                            +:+ ")"
                       else quoteIdent c +:+ " " +:+ "LIKE" +:+ " "
                            +:+ ("'" +:+ escapeQuote (translateKnimeWildcardToSQL (JStr v)) +:+ "'"))
                      +:+ " ESCAPE '\'"
                 else (if lower
                       then "LOWER(" +:+ quoteIdent c +:+ ") " +:+ "LIKE"
                            +:+ " LOWER("
                            +:+ ("'" +:+ escapeQuote (translateKnimeWildcardToSQL (JStr v)) +:+ "'")
                            +:+ ")"
                       else quoteIdent c +:+ " " +:+ "LIKE" +:+ " "
                            +:+ ("'" +:+ escapeQuote (translateKnimeWildcardToSQL (JStr v)) +:+ "'"))))
      = Ret (Some (if escaped
                   then likeComparison c lower pattern +:+ " ESCAPE '\'"
                   else likeComparison c lower pattern))).
    { unfold likeComparison, pattern. destruct escaped, lower; reflexivity. }
    destruct (isNullOf svc) as [| [|] |]; [| contradiction | |]; exact Hgoal.
  - unfold escaped. split.
    + intros H Heq. pose proof (escapeSqlWildcards_longer v H) as Hlt.
      rewrite Heq in Hlt. lia.
    + intros Hne. destruct (hasChar "%" v || hasChar "_" v) eqn:H; [reflexivity |].
      exfalso. apply Hne. now apply escapeSqlWildcards_unchanged.
Qed.

Lemma like_pattern_and_escape_witness :
  predicateCondition Ex.name_like
  = Ret (Some ("LOWER(" +:+ dq +:+ "name" +:+ dq
               +:+ ") LIKE LOWER('a\_b%c_\%') ESCAPE '\'"))
  /\ (hasChar "%" "a_b*c?%" || hasChar "_" "a_b*c?%" = true
      <-> escapeSqlWildcards "a_b*c?%" <> "a_b*c?%").
Proof.
  refine (like_pattern_and_escape Ex.name_like "name"
            (Build.node "values" []
               [Build.node "0" [Build.leaf "value" "xstring" "a_b*c?%"]
                  [Build.typeIdentifier Ex.stringCell false]])
            (Build.node "0" [Build.leaf "value" "xstring" "a_b*c?%"]
               [Build.typeIdentifier Ex.stringCell false])
            "a_b*c?%" true _ _ _ _ _);
    [reflexivity | reflexivity | reflexivity | discriminate | reflexivity].
Defined.

(** C10.  The value configuration of a predicate is extracted when its
    operator needs a value, that is when the operator is not mapped to
    [IS NULL] or [IS NOT NULL] (those two are answered before anything
    is extracted).  For such a predicate with the string column [c],
    whose value configuration (the one keyed 0, with its [entry] and
    [config] children) says [is_null = true], the condition is the
    quoted column followed by [IS NULL], whatever the declared operator
    and whatever the literal value. *)
Theorem is_null_condition (p : Elem) (c op : string) (vn svc : Elem) :
  predicateParts p = Ret (Some (JStr c, op, vn)) ->
  mapKnimeOperatorToSQL op <> "IS NULL" ->
  mapKnimeOperatorToSQL op <> "IS NOT NULL" ->
  singleValueConfigOf vn = Some svc ->
  isNullOf svc = JBool true ->
  predicateCondition p = Ret (Some (quoteIdent c +:+ " IS NULL")).
Proof.
  intros Hparts Hop1 Hop2 Hsvc Hnull.
  unfold predicateCondition. rewrite Hparts. cbn [mbind result_bind].
  unfold operatorCondition.
  destruct (String.eqb_spec (mapKnimeOperatorToSQL op) "IS NULL") as [Heq | _];
    [contradiction |].
  destruct (String.eqb_spec (mapKnimeOperatorToSQL op) "IS NOT NULL") as [Heq | _];
    [contradiction |].
  cbn [orb]. rewrite Hsvc. unfold valueCondition. rewrite Hnull. reflexivity.
Qed.

Lemma is_null_condition_witness :
  predicateCondition Ex.c_gt_null
  = Ret (Some (quoteIdent "c" +:+ " IS NULL"))
  /\ RowFilter.convertRowFilterNodeToSQL
       (Build.rowFilter "MATCHING" "AND" [Ex.c_gt_null]) "t"
     = Ret ("SELECT * FROM " +:+ dq +:+ "t" +:+ dq +:+ " WHERE "
            +:+ dq +:+ "c" +:+ dq +:+ " IS NULL;").
Proof.
  split; [| reflexivity].
  refine (is_null_condition Ex.c_gt_null "c" "GT"
            (Build.node "values" []
               [Build.node "0" [Build.leaf "value" "xstring" "5"]
                  [Build.typeIdentifier Ex.intCell true]])
            (Build.node "0" [Build.leaf "value" "xstring" "5"]
               [Build.typeIdentifier Ex.intCell true])
            _ _ _ _ _);
    (reflexivity || discriminate).
Defined.

(** The two operators that need no value are answered before the value
    configuration is looked at: with [IS_NOT_MISSING] the condition is
    [IS NOT NULL], whatever sits under the predicate's values. *)
Example is_not_missing_is_answered_first :
  predicateCondition Ex.c_not_missing_null
  = Ret (Some (dq +:+ "c" +:+ dq +:+ " IS NOT NULL"))
  /\ RowFilter.convertRowFilterNodeToSQL
       (Build.rowFilter "MATCHING" "AND" [Ex.c_not_missing_null]) "t"
     = Ret ("SELECT * FROM " +:+ dq +:+ "t" +:+ dq +:+ " WHERE "
            +:+ dq +:+ "c" +:+ dq +:+ " IS NOT NULL;").
Proof. split; reflexivity. Qed.

End RowFilterPredicates.

(** ** Traversals *)

Lemma traverse_Forall2 {A B : Type} (f : A -> result B) (l : list A) (ys : list B) :
  traverse f l = Ret ys -> Forall2 (fun x y => f x = Ret y) l ys.
Proof.
  revert ys. induction l as [|x l IH]; intros ys H; simpl in H.
  - injection H as <-. constructor.
  - destruct (f x) as [|y] eqn:Hx; [discriminate |].
    cbn [mbind result_bind] in H.
    destruct (traverse f l) as [|ys'] eqn:Hl; [discriminate |].
    cbn [mbind result_bind] in H. injection H as <-.
    constructor; [exact Hx | now apply IH].
Qed.

Lemma traverse_kept {A B : Type} (f : A -> result (option B)) (l : list A)
    (ys : list (option B)) (t : B) :
  traverse f l = Ret ys -> t ∈ omap id ys ->
  exists x, x ∈ l /\ f x = Ret (Some t).
Proof.
  intros Htr Ht. apply traverse_Forall2 in Htr.
  apply list_elem_of_omap in Ht as [o [Ho Hid]]. simpl in Hid. subst o.
  induction Htr as [|x y l ys Hxy _ IH].
  - inversion Ho.
  - apply elem_of_cons in Ho as [-> | Ho].
    + exists x. split; [apply list_elem_of_here | exact Hxy].
    + destruct (IH Ho) as [x' [Hin Hx']].
      exists x'. split; [now apply list_elem_of_further | exact Hx'].
Qed.

(** ** Sorter (C9) *)

Section SorterTerms.
Import JS Sorter.

(** One turn of the loop, by cases, for a criterion whose selected
    column is not the boolean [true]. *)
Lemma criterionTerm_cases (missingToEnd : jsval) (criterion : Elem) :
  let columnName :=
    getEntryValue (entryOf (findConfigByKey (config criterion) "column")) "selected" in
  let sortingOrder := getEntryValue (entry criterion) "sortingOrder" in
  let stringComparison := getEntryValue (entry criterion) "stringComparison" in
  columnName <> JBool true ->
  criterionTerm missingToEnd criterion
  = Ret (if match attributes criterion with
            | Some a =>
                match a_key a with
                | Some k => negb (parseIntIsNaN k)
                | None => false
                end
            | None => false
            end
            && truthy columnName && truthy sortingOrder
         then Some (quoteIdent (toText columnName) +:+ " "
                    +:+ (if isStr sortingOrder "DESCENDING" then "DESC" else "ASC")
                    +:+ " "
                    +:+ match missingToEnd with
                        | JBool true => "NULLS LAST"
                        | _ => "NULLS FIRST"
                        end
                    +:+ (if isStr stringComparison "ALPHANUMERIC"
                         then " -- Note: Alphanumeric string comparison requested for "
                              +:+ toText columnName
                              +:+ ". Standard ORDER BY used; verify behavior with DB."
                         else EmptyString))
         else None).
Proof.
  intros columnName sortingOrder stringComparison Hcol.
  unfold criterionTerm. fold columnName sortingOrder stringComparison.
  destruct (attributes criterion) as [a|]; [| reflexivity].
  unfold keyIsNaN. destruct (a_key a) as [k|]; [| reflexivity].
  destruct (parseIntIsNaN k); [reflexivity |]. cbn [negb andb].
  destruct columnName as [| [|] | column]; try reflexivity; [congruence |].
  destruct (truthy (JStr column)) eqn:Hc; [| reflexivity].
  destruct (truthy sortingOrder); [| reflexivity].
  cbn [negb orb andb quoteValue asString toText mbind result_bind].
  unfold directionOf, nullsOrderOf, advisory. cbn [toText].
  destruct (isStr stringComparison "ALPHANUMERIC"); reflexivity.
Qed.

Lemma omap_id_map_if {A B : Type} (yields : A -> bool) (f : A -> B) (l : list A) :
  omap id (map (fun x => if yields x then Some (f x) else None) l)
  = map f (List.filter yields l).
Proof.
  induction l as [|x l IH]; [reflexivity |].
  cbn [map List.filter]. destruct (yields x); csimpl; now rewrite IH.
Qed.

Lemma traverse_pure {A B : Type} (f : A -> result B) (g : A -> B) (l : list A) :
  Forall (fun x => f x = Ret (g x)) l -> traverse f l = Ret (map g l).
Proof.
  induction 1 as [|x l Hx _ IH]; [reflexivity |].
  simpl. rewrite Hx. cbn [mbind result_bind]. rewrite IH. reflexivity.
Qed.

(** C9, as the code has it.  On a Sorter tree with the matching factory,
    its model and its criteria (none of which selects a boolean
    column), the output is spelled out.  The criteria that yield a term
    are those with an integer key, a column and a sorting order; the
    term of each is the quoted column, [ASC] or [DESC], and the null
    ordering, followed by the advisory comment when the criterion asks
    for the alphanumeric comparison.  The null ordering is read once
    from the model's [missingToEnd] and is the same in every term:
    [NULLS LAST] when it is [true], [NULLS FIRST] otherwise.  The terms
    are joined under ORDER BY in the order of the criteria; with no term
    the output is the input passed through with a warning. *)
Theorem sorter_terms_share_null_ordering (nodeConfig modelNode criteriaNode : Elem)
    (previousNodeName : option string) :
  isStr (getEntryValue (entry nodeConfig) "factory") SORTER_FACTORY = true ->
  findConfigByKey (config nodeConfig) "model" = Some modelNode ->
  present (config modelNode) = true ->
  present (entry modelNode) = true ->
  findConfigByKey (config modelNode) "sortingCriteria" = Some criteriaNode ->
  present (config criteriaNode) = true ->
  let columnOf (criterion : Elem) :=
    getEntryValue (entryOf (findConfigByKey (config criterion) "column")) "selected" in
  Forall (fun criterion => columnOf criterion <> JBool true)
         (toArray (config criteriaNode)) ->
  let nullsOrder :=
    match getEntryValue (entry modelNode) "missingToEnd" with
    | JBool true => "NULLS LAST"
    | _ => "NULLS FIRST"
    end in
  let yields (criterion : Elem) :=
    match attributes criterion with
    | Some a =>
        match a_key a with
        | Some k => negb (parseIntIsNaN k)
        | None => false
        end
    | None => false
    end
    && truthy (columnOf criterion)
    && truthy (getEntryValue (entry criterion) "sortingOrder") in
  let termOf (criterion : Elem) :=
    quoteIdent (toText (columnOf criterion)) +:+ " "
    +:+ (if isStr (getEntryValue (entry criterion) "sortingOrder") "DESCENDING"
         then "DESC" else "ASC")
    +:+ " " +:+ nullsOrder
    +:+ (if isStr (getEntryValue (entry criterion) "stringComparison") "ALPHANUMERIC"
         then " -- Note: Alphanumeric string comparison requested for "
              +:+ toText (columnOf criterion)
              +:+ ". Standard ORDER BY used; verify behavior with DB."
         else EmptyString) in
  let input := quoteIdent (default "input_table" previousNodeName) in
  let terms := map termOf (List.filter yields (toArray (config criteriaNode))) in
  convertSorterNodeToSQL nodeConfig previousNodeName
  = Ret (match terms with
         | [] =>
             "SELECT * FROM " +:+ input
             +:+ "; -- Warning: No valid sorting criteria processed"
         | _ :: _ =>
             "SELECT *" +:+ nl +:+ "FROM " +:+ input +:+ nl
             +:+ "ORDER BY" +:+ nl +:+ "  "
             +:+ join ("," +:+ nl +:+ "  ") terms +:+ ";"
         end).
Proof.
  intros Hfactory Hmodel Hconfig Hentry Hcriteria Hpresent columnOf Hcols
         nullsOrder yields termOf input terms.
  unfold convertSorterNodeToSQL.
  rewrite Hfactory, Hmodel, Hconfig, Hentry, Hcriteria.
  cbn [negb orb configOf]. rewrite Hpresent. cbn [negb].
  unfold orderByPartsOf.
  rewrite (traverse_pure _ (fun criterion =>
                              if yields criterion then Some (termOf criterion)
                              else None)).
  - cbn [mbind result_bind]. rewrite omap_id_map_if. fold terms.
    destruct terms; reflexivity.
  - apply Forall_forall. intros criterion Hin.
    apply (proj1 (Forall_forall _ _) Hcols) in Hin.
    exact (criterionTerm_cases _ criterion Hin).
Qed.

Lemma sorter_terms_share_null_ordering_witness :
  convertSorterNodeToSQL Ex.sorter (Some "t")
  = Ret ("SELECT *" +:+ nl +:+ "FROM " +:+ dq +:+ "t" +:+ dq +:+ nl
         +:+ "ORDER BY" +:+ nl
         +:+ "  " +:+ dq +:+ "age" +:+ dq +:+ " DESC NULLS LAST," +:+ nl
         +:+ "  " +:+ dq +:+ "name" +:+ dq +:+ " ASC NULLS LAST;").
Proof.
  assert (Hcols :
    Forall (fun criterion =>
              getEntryValue (entryOf (findConfigByKey (config criterion) "column"))
                            "selected" <> JBool true)
           [Ex.criterion "0" "age" "DESCENDING"; Ex.criterion "1" "name" "ASCENDING"])
    by (repeat constructor; discriminate).
  exact (sorter_terms_share_null_ordering Ex.sorter Ex.sorterModel
           (Build.node "sortingCriteria" []
              [Ex.criterion "0" "age" "DESCENDING"; Ex.criterion "1" "name" "ASCENDING"])
           (Some "t") eq_refl eq_refl eq_refl eq_refl eq_refl eq_refl Hcols).
Defined.

(** C9, as the specification words it, fails for a criterion that asks
    for the alphanumeric comparison: its term does not end with the
    null ordering, the advisory comment follows it. *)
Lemma alphanumeric_term_carries_comment :
  criterionTerm (JBool true) (Ex.criterionWith "0" "age" "DESCENDING" "ALPHANUMERIC")
  = Ret (Some (dq +:+ "age" +:+ dq +:+ " DESC NULLS LAST"
               +:+ " -- Note: Alphanumeric string comparison requested for age. Standard ORDER BY used; verify behavior with DB."))
  /\ convertSorterNodeToSQL Ex.sorterAlphanumeric (Some "t")
     = Ret ("SELECT *" +:+ nl +:+ "FROM " +:+ dq +:+ "t" +:+ dq +:+ nl
            +:+ "ORDER BY" +:+ nl
            +:+ "  " +:+ dq +:+ "age" +:+ dq +:+ " DESC NULLS LAST"
            +:+ " -- Note: Alphanumeric string comparison requested for age. Standard ORDER BY used; verify behavior with DB.;").
Proof. split; reflexivity. Qed.

End SorterTerms.

(** ** GroupBy (C7) *)

Section GroupByShape.
Import JS GroupBy.

Variable getArrayValuesFromConfig : option Elem -> list string.

(** C7.  On a GroupBy tree with the matching factory whose model is
    found (with its [config] and [entry] children), write [g] for the
    grouping columns read from the model and [aggregations] for the
    aggregations that were mapped.  With [g] not empty and no
    aggregation the output is SELECT DISTINCT over the quoted grouping
    columns and the input, with no GROUP BY; with aggregations it is a
    SELECT of the grouping columns followed by the aggregations, then
    FROM, then GROUP BY over the grouping columns, and the GROUP BY is
    left out when [g] is empty; with neither it is a diagnostic. *)
Theorem groupBy_shape (nodeConfig modelNode : Elem)
    (previousNodeName : option string) (aggregations : list string) :
  isStr (getEntryValue (entry nodeConfig) "factory") GROUPBY_FACTORY = true ->
  findConfigByKey (config nodeConfig) "model" = Some modelNode ->
  present (config modelNode) = true ->
  present (entry modelNode) = true ->
  aggregationsOf getArrayValuesFromConfig modelNode = Ret aggregations ->
  let g := groupingColumnsOf getArrayValuesFromConfig modelNode in
  let quoted := map quoteIdent g in
  let input := quoteIdent (default "input_table" previousNodeName) in
  let sep := "," +:+ nl +:+ "  " in
  exists out,
    convertGroupByNodeToSQL getArrayValuesFromConfig nodeConfig previousNodeName
    = Ret out
    /\ (g <> [] -> aggregations = [] ->
        out = "SELECT DISTINCT" +:+ nl +:+ "  " +:+ join sep quoted +:+ nl
              +:+ "FROM " +:+ input +:+ ";")
    /\ (g <> [] -> aggregations <> [] ->
        out = "SELECT" +:+ nl +:+ "  " +:+ join sep (quoted ++ aggregations)%list
              +:+ nl +:+ "FROM " +:+ input +:+ nl
              +:+ "GROUP BY" +:+ nl +:+ "  " +:+ join sep quoted +:+ ";")
    /\ (g = [] -> aggregations <> [] ->
        out = "SELECT" +:+ nl +:+ "  " +:+ join sep aggregations
              +:+ nl +:+ "FROM " +:+ input +:+ ";")
    /\ (g = [] -> aggregations = [] -> startsWith "Error:" out = true).
Proof.
  intros Hfactory Hmodel Hconfig Hentry Haggs g quoted input sep.
  unfold convertGroupByNodeToSQL.
  rewrite Hfactory, Hmodel, Hconfig, Hentry, Haggs.
  cbn [negb orb mbind result_bind].
  eexists. split; [reflexivity |].
  fold g. unfold constructQuery. fold quoted input sep.
  subst quoted. destruct g as [|g0 g'], aggregations as [|a0 aggs'].
  - repeat split; intros; try congruence; reflexivity.
  - repeat split; intros; try congruence.
    cbn [map app]. unfold join at 1. fold (join sep (a0 :: aggs')).
    cbn [String.eqb app]. unfold join at 1.
    now rewrite !append_assoc.
  - repeat split; intros; try congruence; reflexivity.
  - repeat split; intros; try congruence.
    cbn [map app].
    set (q := quoteIdent g0 :: map quoteIdent g').
    change (String.eqb ("GROUP BY" +:+ nl +:+ "  " +:+ join sep q) EmptyString)
      with false.
    cbv iota. cbn [app]. unfold join at 1.
    now rewrite !append_assoc.
Qed.

End GroupByShape.

Lemma groupBy_shape_witness :
  GroupBy.convertGroupByNodeToSQL IndexedList.getArrayValuesFromConfig
    Ex.regionOnly (Some "t")
  = Ret ("SELECT DISTINCT" +:+ JS.nl +:+ "  " +:+ JS.dq +:+ "region" +:+ JS.dq
         +:+ JS.nl +:+ "FROM " +:+ JS.dq +:+ "t" +:+ JS.dq +:+ ";").
Proof.
  destruct (groupBy_shape IndexedList.getArrayValuesFromConfig Ex.regionOnly
              (Build.node "model"
                 [Build.leaf "columnNamePolicy" "xstring"
                    "Aggregation method (column name)"]
                 [Build.node "grouByColumns" [] [Ex.listNode "InclList" ["region"]];
                  Build.node "aggregationColumn" []
                    [Ex.listNode "columnNames" [];
                     Ex.listNode "aggregationMethod" []]])
              (Some "t") [] eq_refl eq_refl eq_refl eq_refl eq_refl)
    as (out & Hout & Hdistinct & _).
  rewrite Hout. f_equal. apply Hdistinct; [discriminate | reflexivity].
Defined.

(** The specification's example with one aggregation. *)
Example groupBy_region_sum :
  GroupBy.convertGroupByNodeToSQL IndexedList.getArrayValuesFromConfig
    Ex.regionSum (Some "t")
  = Ret ("SELECT" +:+ JS.nl +:+ "  " +:+ JS.dq +:+ "region" +:+ JS.dq +:+ ","
         +:+ JS.nl +:+ "  SUM(" +:+ JS.dq +:+ "sales" +:+ JS.dq +:+ ") AS "
         +:+ JS.dq +:+ "Sum_sales" +:+ JS.dq
         +:+ JS.nl +:+ "FROM " +:+ JS.dq +:+ "t" +:+ JS.dq
         +:+ JS.nl +:+ "GROUP BY" +:+ JS.nl +:+ "  " +:+ JS.dq +:+ "region" +:+ JS.dq
         +:+ ";").
Proof. reflexivity. Qed.

(** ** Concatenate (C8) *)

Section ConcatenateColumns.
Import JS Concatenate.

Lemma has_elem_of (s : list string) (x : string) : has s x = true <-> x ∈ s.
Proof.
  unfold has. rewrite existsb_exists. split.
  - intros [y [Hin Heq]]. apply String.eqb_eq in Heq as ->.
    now apply list_elem_of_In.
  - intros Hin. exists x. split; [now apply list_elem_of_In | apply String.eqb_refl].
Qed.

Lemma elem_of_add (s : list string) (y x : string) :
  x ∈ add s y <-> x ∈ s \/ x = y.
Proof.
  unfold add. destruct (has s y) eqn:Hy.
  - apply has_elem_of in Hy. split; [now left | intros [H | ->]; assumption].
  - rewrite elem_of_app, list_elem_of_singleton. reflexivity.
Qed.

Lemma NoDup_add (s : list string) (y : string) : NoDup s -> NoDup (add s y).
Proof.
  intros Hs. unfold add. destruct (has s y) eqn:Hy; [exact Hs |].
  apply NoDup_app. repeat split; [exact Hs | | apply NoDup_singleton].
  intros x Hx Hxy. apply list_elem_of_singleton in Hxy as ->.
  apply has_elem_of in Hx. congruence.
Qed.

Lemma elem_of_foldl_add (l acc : list string) (x : string) :
  x ∈ foldl add acc l <-> x ∈ acc \/ x ∈ l.
Proof.
  revert acc. induction l as [|y l IH]; intros acc; simpl.
  - rewrite elem_of_nil. tauto.
  - rewrite IH, elem_of_add, elem_of_cons. tauto.
Qed.

Lemma NoDup_foldl_add (l acc : list string) : NoDup acc -> NoDup (foldl add acc l).
Proof.
  revert acc. induction l as [|y l IH]; intros acc Hacc; simpl; [exact Hacc |].
  apply IH. now apply NoDup_add.
Qed.

Lemma elem_of_setOf (l : list string) (x : string) : x ∈ setOf l <-> x ∈ l.
Proof. unfold setOf. rewrite elem_of_foldl_add, elem_of_nil. tauto. Qed.

Lemma NoDup_setOf (l : list string) : NoDup (setOf l).
Proof. apply NoDup_foldl_add. constructor. Qed.

Lemma elem_of_intersect_step (rest : list (list string)) (acc : list string) (x : string) :
  x ∈ foldl (fun intersection colSet =>
               setOf (List.filter (fun col => has colSet col) intersection))
            acc rest
  <-> x ∈ acc /\ forall s, s ∈ rest -> x ∈ s.
Proof.
  revert acc. induction rest as [|s rest IH]; intros acc; simpl.
  - split; [intros H; split; [exact H | intros s Hs; inversion Hs] | tauto].
  - rewrite IH, elem_of_setOf, list_elem_of_In, filter_In, has_elem_of,
      <- list_elem_of_In.
    split.
    + intros [[Hacc Hs] Hrest]. split; [exact Hacc |].
      intros s' Hs'. apply elem_of_cons in Hs' as [-> | Hs']; auto.
    + intros [Hacc Hall]. repeat split; [exact Hacc | |].
      * apply Hall, list_elem_of_here.
      * intros s' Hs'. apply Hall. now apply list_elem_of_further.
Qed.

Lemma NoDup_intersect_step (rest : list (list string)) (acc : list string) :
  NoDup acc ->
  NoDup (foldl (fun intersection colSet =>
                  setOf (List.filter (fun col => has colSet col) intersection))
               acc rest).
Proof.
  revert acc. induction rest as [|s rest IH]; intros acc Hacc; simpl; [exact Hacc |].
  apply IH, NoDup_setOf.
Qed.

Lemma elem_of_unionOf_step (sets : list (list string)) (acc : list string) (x : string) :
  x ∈ foldl (fun unionSet colSet => foldl add unionSet colSet) acc sets
  <-> x ∈ acc \/ exists s, s ∈ sets /\ x ∈ s.
Proof.
  revert acc. induction sets as [|s sets IH]; intros acc; simpl.
  - split; [now left | intros [H | [s [Hs _]]]; [exact H | inversion Hs]].
  - rewrite IH, elem_of_foldl_add. split.
    + intros [[H | H] | [s' [Hs' Hx]]].
      * now left.
      * right. exists s. split; [apply list_elem_of_here | exact H].
      * right. exists s'. split; [now apply list_elem_of_further | exact Hx].
    + intros [H | [s' [Hs' Hx]]].
      * left. now left.
      * apply elem_of_cons in Hs' as [-> | Hs'].
        -- left. now right.
        -- right. now exists s'.
Qed.

Lemma NoDup_unionOf_step (sets : list (list string)) (acc : list string) :
  NoDup acc ->
  NoDup (foldl (fun unionSet colSet => foldl add unionSet colSet) acc sets).
Proof.
  revert acc. induction sets as [|s sets IH]; intros acc Hacc; simpl; [exact Hacc |].
  apply IH. now apply NoDup_foldl_add.
Qed.

Lemma NoDup_finalColumnsOf (flag : bool) (preds : list (string * list string)) :
  NoDup (finalColumnsOf flag (map (fun pred => setOf pred.2) preds)).
Proof.
  destruct flag; simpl.
  - destruct preds as [|p preds]; simpl; [constructor |].
    apply NoDup_intersect_step, NoDup_setOf.
  - apply NoDup_unionOf_step. constructor.
Qed.

Lemma elem_of_finalColumnsOf (flag : bool) (preds : list (string * list string))
    (col : string) :
  preds <> [] ->
  col ∈ finalColumnsOf flag (map (fun pred => setOf pred.2) preds)
  <-> if flag then forall p, p ∈ preds -> col ∈ p.2
      else exists p, p ∈ preds /\ col ∈ p.2.
Proof.
  intros Hne. destruct flag; simpl.
  - destruct preds as [|p0 preds]; [congruence |]. simpl.
    rewrite elem_of_intersect_step, !elem_of_setOf. split.
    + intros [H0 Hrest] p Hp. apply elem_of_cons in Hp as [-> | Hp]; [exact H0 |].
      apply elem_of_setOf. apply Hrest.
      apply list_elem_of_fmap. now exists p.
    + intros Hall. split; [apply Hall, list_elem_of_here |].
      intros s Hs. apply list_elem_of_fmap in Hs as [p [-> Hp]].
      apply elem_of_setOf, Hall. now apply list_elem_of_further.
  - unfold unionOf. rewrite elem_of_unionOf_step, elem_of_nil. split.
    + intros [[] | [s [Hs Hx]]].
      apply list_elem_of_fmap in Hs as [p [-> Hp]].
      exists p. split; [exact Hp | now apply elem_of_setOf].
    + intros [p [Hp Hx]]. right. exists (setOf p.2).
      split; [apply list_elem_of_fmap; now exists p | now apply elem_of_setOf].
Qed.

#[local] Instance strLe_total : Total strLe.
Proof. intros x y. apply String.leb_total. Qed.

Lemma sortColumns_perm (l : list string) : sortColumns l ≡ₚ l.
Proof. apply merge_sort_Permutation. Qed.

Lemma validate_contextOf (preds : list (string * list string)) (i : nat) :
  Forall (fun p => p.1 <> EmptyString) preds ->
  validate i (map (fun p => Some (mkPred p.1 (Some p.2))) preds) = inr preds.
Proof.
  intros H. revert i. induction H as [|[name cols] preds Hname _ IH]; intros i.
  - reflexivity.
  - simpl in *. apply String.eqb_neq in Hname. rewrite Hname, IH. reflexivity.
Qed.

(** C8.  With the matching factory and at least two valid predecessor
    contexts, the returned text is spelled out.  The flag is read from
    the entries of the model (from the entries of the node when the
    model has none): intersection mode when [intersection_of_columns]
    is the boolean [true], union mode otherwise.  The final output
    columns are the columns common to all predecessors (intersection
    mode) or found in any of them (union mode), sorted and without
    repeats.  With no final column the text is the diagnostic of the
    mode.  Otherwise it is the comment, then one SELECT for each
    predecessor, joined by UNION ALL; each SELECT runs over the final
    columns in their order and has the column qualified by the
    predecessor's quoted name where the predecessor has it, and [NULL
    AS] the quoted column where it lacks it. *)
Theorem concatenate_columns (nodeConfig : Elem)
    (preds : list (string * list string)) :
  isStr (getEntryValue (entry nodeConfig) "factory") CONCATENATE_FACTORY = true ->
  2 <= length preds ->
  Forall (fun p => p.1 <> EmptyString) preds ->
  let modelNode := findConfigByKey (config nodeConfig) "model" in
  let configSource :=
    if present (entryOf modelNode) then entryOf modelNode else entry nodeConfig in
  let intersection :=
    match getEntryValue configSource "intersection_of_columns" with
    | JBool true => true
    | _ => false
    end in
  let comment :=
    "-- Concatenate Node Conversion (using UNION ALL)" +:+ nl
    +:+ (if intersection then "-- Mode: Intersection of columns" +:+ nl
         else "-- Mode: Union of columns (default)" +:+ nl)
    +:+ match getEntryValue configSource "fail_on_duplicates",
              getEntryValue configSource "append_suffix" with
        | JNull, JNull => EmptyString
        | _, _ =>
            "-- Note: KNIME options 'fail_on_duplicates' and 'append_suffix' for column names are not directly translated. SQL UNION ALL requires columns in SELECT lists to align."
            +:+ nl
        end in
  let final :=
    sortColumns (finalColumnsOf intersection (map (fun p => setOf p.2) preds)) in
  let selectOf (p : string * list string) :=
    "SELECT" +:+ nl +:+ "    "
    +:+ join ("," +:+ nl +:+ "    ")
             (map (fun col =>
                     if bool_decide (col ∈ p.2)
                     then quoteIdent p.1 +:+ "." +:+ quoteIdent col
                     else "NULL AS " +:+ quoteIdent col)
                  final)
    +:+ nl +:+ "  FROM " +:+ quoteIdent p.1 in
  Sorted strLe final
  /\ NoDup final
  /\ (forall col,
        col ∈ final
        <-> if intersection then forall p, p ∈ preds -> col ∈ p.2
            else exists p, p ∈ preds /\ col ∈ p.2)
  /\ convertConcatenateNodeToSQL nodeConfig (contextOf preds)
     = if bool_decide (final = []) then
         if intersection
         then "Error: Intersection of columns resulted in an empty column set."
         else "Error: No columns determined for the output."
       else
         trim (comment +:+ join (nl +:+ "UNION ALL" +:+ nl) (map selectOf preds))
         +:+ ";".
Proof.
  intros Hfactory Hlen Hvalid modelNode configSource intersection comment final
         selectOf.
  assert (Hne : preds <> []) by (intros ->; simpl in Hlen; lia).
  pose proof (sortColumns_perm
                (finalColumnsOf intersection (map (fun p => setOf p.2) preds)))
    as Hperm.
  fold final in Hperm.
  split; [apply Sorted_merge_sort, _ |].
  split; [rewrite Hperm; apply NoDup_finalColumnsOf |].
  split; [intros col; rewrite Hperm; now apply elem_of_finalColumnsOf |].
  assert (Hselect : map (selectStatement final) preds = map selectOf preds).
  { apply map_ext. intros p. unfold selectStatement, selectOf, selectListOf.
    assert (Hitems :
      map (selectItem (quoteIdent p.1) (setOf p.2)) final
      = map (fun col =>
               if bool_decide (col ∈ p.2)
               then quoteIdent p.1 +:+ "." +:+ quoteIdent col
               else "NULL AS " +:+ quoteIdent col)
            final).
    { apply map_ext. intros col. unfold selectItem.
      destruct (has (setOf p.2) col) eqn:Hhas.
      - apply has_elem_of in Hhas. apply (proj1 (elem_of_setOf _ _)) in Hhas.
        rewrite (bool_decide_eq_true_2 _ Hhas). reflexivity.
      - assert (Hnot : col ∉ p.2).
        { intros Hin. apply (proj2 (elem_of_setOf _ _)) in Hin.
          apply has_elem_of in Hin. congruence. }
        rewrite (bool_decide_eq_false_2 _ Hnot). reflexivity. }
    now rewrite Hitems. }
  unfold convertConcatenateNodeToSQL, contextOf.
  rewrite Hfactory. cbn [negb default]. unfold id.
  rewrite bool_decide_eq_true_2 by eauto.
  rewrite length_map.
  destruct (Nat.ltb_spec (length preds) 2) as [Hlt | _]; [lia |].
  cbn [negb orb]. rewrite validate_contextOf by exact Hvalid.
  change (intersectionFlag nodeConfig) with intersection.
  change (commentFor nodeConfig) with comment.
  set (unsorted := finalColumnsOf intersection (map (fun pred => setOf pred.2) preds)).
  fold unsorted in Hperm. change (sortColumns unsorted) with final.
  destruct (decide (final = [])) as [Hnil | Hcons].
  - rewrite (bool_decide_eq_true_2 (final = [])) by exact Hnil.
    assert (Hunsorted : unsorted = []).
    { apply Permutation_nil_r. rewrite <- Hperm, Hnil. reflexivity. }
    rewrite (bool_decide_eq_true_2 (unsorted = [])) by exact Hunsorted.
    destruct intersection; simpl; [reflexivity |].
    rewrite Hnil. reflexivity.
  - rewrite (bool_decide_eq_false_2 (final = [])) by exact Hcons.
    assert (Hunsorted : unsorted <> []).
    { intros Hu. apply Hcons. apply Permutation_nil_r.
      rewrite Hperm, Hu. reflexivity. }
    rewrite (bool_decide_eq_false_2 (unsorted = [])) by exact Hunsorted.
    rewrite andb_false_r. rewrite <- Hselect.
    destruct final as [|c0 final']; [congruence | reflexivity].
Qed.

End ConcatenateColumns.

Lemma concatenate_columns_witness :
  Concatenate.convertConcatenateNodeToSQL (Ex.concatenate false) Ex.twoPreds
  = "-- Concatenate Node Conversion (using UNION ALL)" +:+ JS.nl
    +:+ "-- Mode: Union of columns (default)" +:+ JS.nl
    +:+ "SELECT" +:+ JS.nl
    +:+ "    " +:+ JS.dq +:+ "t1" +:+ JS.dq +:+ "." +:+ JS.dq +:+ "a" +:+ JS.dq
    +:+ "," +:+ JS.nl
    +:+ "    " +:+ JS.dq +:+ "t1" +:+ JS.dq +:+ "." +:+ JS.dq +:+ "b" +:+ JS.dq
    +:+ "," +:+ JS.nl
    +:+ "    NULL AS " +:+ JS.dq +:+ "c" +:+ JS.dq +:+ JS.nl
    +:+ "  FROM " +:+ JS.dq +:+ "t1" +:+ JS.dq +:+ JS.nl
    +:+ "UNION ALL" +:+ JS.nl
    +:+ "SELECT" +:+ JS.nl
    +:+ "    NULL AS " +:+ JS.dq +:+ "a" +:+ JS.dq +:+ "," +:+ JS.nl
    +:+ "    " +:+ JS.dq +:+ "t2" +:+ JS.dq +:+ "." +:+ JS.dq +:+ "b" +:+ JS.dq
    +:+ "," +:+ JS.nl
    +:+ "    " +:+ JS.dq +:+ "t2" +:+ JS.dq +:+ "." +:+ JS.dq +:+ "c" +:+ JS.dq
    +:+ JS.nl
    +:+ "  FROM " +:+ JS.dq +:+ "t2" +:+ JS.dq +:+ ";"
  /\ Concatenate.convertConcatenateNodeToSQL (Ex.concatenate true) Ex.twoPreds
     = "-- Concatenate Node Conversion (using UNION ALL)" +:+ JS.nl
       +:+ "-- Mode: Intersection of columns" +:+ JS.nl
       +:+ "SELECT" +:+ JS.nl
       +:+ "    " +:+ JS.dq +:+ "t1" +:+ JS.dq +:+ "." +:+ JS.dq +:+ "b" +:+ JS.dq
       +:+ JS.nl
       +:+ "  FROM " +:+ JS.dq +:+ "t1" +:+ JS.dq +:+ JS.nl
       +:+ "UNION ALL" +:+ JS.nl
       +:+ "SELECT" +:+ JS.nl
       +:+ "    " +:+ JS.dq +:+ "t2" +:+ JS.dq +:+ "." +:+ JS.dq +:+ "b" +:+ JS.dq
       +:+ JS.nl
       +:+ "  FROM " +:+ JS.dq +:+ "t2" +:+ JS.dq +:+ ";".
Proof.
  assert (Hvalid : Forall (fun p : string * list string => p.1 <> EmptyString)
                          [("t1", ["a"; "b"]); ("t2", ["b"; "c"])])
    by (repeat constructor; discriminate).
  change Ex.twoPreds
    with (Concatenate.contextOf [("t1", ["a"; "b"]); ("t2", ["b"; "c"])]).
  split.
  - destruct (concatenate_columns (Ex.concatenate false)
                [("t1", ["a"; "b"]); ("t2", ["b"; "c"])]
                eq_refl (le_n 2) Hvalid)
      as (_ & _ & _ & Hout).
    rewrite Hout. reflexivity.
  - destruct (concatenate_columns (Ex.concatenate true)
                [("t1", ["a"; "b"]); ("t2", ["b"; "c"])]
                eq_refl (le_n 2) Hvalid)
      as (_ & _ & _ & Hout).
    rewrite Hout. reflexivity.
Defined.

(** ** The end of the output text (C2) *)

Section OutputEnd.
Import JS.

Lemma lastChar_append (a b : string) :
  b <> EmptyString -> lastChar (a +:+ b) = lastChar b.
Proof.
  intros Hb. induction a as [|c a IH]; [reflexivity |].
  rewrite append_cons. simpl. rewrite IH.
  destruct b as [|d b]; [congruence |]. simpl.
  destruct (lastChar b); reflexivity.
Qed.

Lemma endsWith_char (c : ascii) (s : string) :
  endsWith (str1 c) s
  = match lastChar s with
    | Some d => Ascii.eqb d c
    | None => false
    end.
Proof.
  induction s as [|a s IH]; [reflexivity |].
  rewrite endsWith_unfold, IH. simpl.
  destruct s as [|b s]; simpl; destruct (Ascii.eqb a c);
    try reflexivity; destruct (lastChar s); reflexivity.
Qed.

Lemma degraded_no_semicolon (previousNodeName : string) :
  endsWith ";" (RowFilter.degraded previousNodeName) = false.
Proof.
  change ";" with (str1 ";"). rewrite endsWith_char.
  unfold RowFilter.degraded.
  rewrite !lastChar_append by discriminate. reflexivity.
Qed.

Lemma passthrough_no_semicolon (previousNodeName warning : string) :
  warning = "No sorting criteria found"
  \/ warning = "No valid sorting criteria processed" ->
  endsWith ";" (Sorter.passthrough previousNodeName warning) = false.
Proof.
  intros Hw. change ";" with (str1 ";"). rewrite endsWith_char.
  unfold Sorter.passthrough.
  rewrite !lastChar_append by (destruct Hw as [-> | ->]; discriminate).
  destruct Hw as [-> | ->]; reflexivity.
Qed.

Lemma rowFilter_output (nodeConfig : Elem) (previousNodeName s : string) :
  RowFilter.convertRowFilterNodeToSQL nodeConfig previousNodeName = Ret s ->
  startsWith "Error:" s = true \/ endsWith ";" s = true
  \/ s = RowFilter.degraded previousNodeName.
Proof.
  unfold RowFilter.convertRowFilterNodeToSQL.
  destruct (negb (isStr _ RowFilter.ROW_FILTER_FACTORY)).
  { intros H. injection H as <-. now left. }
  destruct (findConfigByKey (config nodeConfig) "model") as [modelNode|].
  2: { intros H. injection H as <-. now left. }
  destruct (negb (present (config modelNode))).
  { intros H. injection H as <-. now left. }
  destruct (_ || _ || _).
  { intros H. injection H as <-. now left. }
  destruct (traverse _ _) as [|mapped]; [discriminate |].
  cbn [mbind result_bind].
  destruct (omap id mapped) as [|c0 conditions].
  - intros H. injection H as <-. right. now right.
  - intros H. injection H as <-. right. left.
    do 4 apply endsWith_append. reflexivity.
Qed.

Lemma constructQuery_output (groupingColumns aggregations : list string)
    (previousNodeName : string) :
  let s := GroupBy.constructQuery groupingColumns aggregations previousNodeName in
  startsWith "Error:" s = true \/ endsWith ";" s = true.
Proof.
  unfold GroupBy.constructQuery.
  destruct groupingColumns as [|g0 g], aggregations as [|a0 aggs]; cbn [map app].
  - now left.
  - right. apply endsWith_append. reflexivity.
  - right. do 6 apply endsWith_append. reflexivity.
  - right. apply endsWith_append. reflexivity.
Qed.

Lemma groupBy_output (getArrayValuesFromConfig : option Elem -> list string)
    (nodeConfig : Elem) (previousNodeName : option string) (s : string) :
  GroupBy.convertGroupByNodeToSQL getArrayValuesFromConfig nodeConfig previousNodeName
  = Ret s ->
  startsWith "Error:" s = true \/ endsWith ";" s = true.
Proof.
  unfold GroupBy.convertGroupByNodeToSQL.
  destruct (negb (isStr _ GroupBy.GROUPBY_FACTORY)).
  { intros H. injection H as <-. now left. }
  destruct (findConfigByKey (config nodeConfig) "model") as [modelNode|].
  2: { intros H. injection H as <-. now left. }
  destruct (_ || _).
  { intros H. injection H as <-. now left. }
  destruct (GroupBy.aggregationsOf _ _) as [|aggregations]; [discriminate |].
  cbn [mbind result_bind]. intros H. injection H as <-.
  apply constructQuery_output.
Qed.

Lemma sorter_output (nodeConfig : Elem) (previousNodeName : option string)
    (s : string) :
  Sorter.convertSorterNodeToSQL nodeConfig previousNodeName = Ret s ->
  startsWith "Error:" s = true \/ endsWith ";" s = true
  \/ exists warning,
       (warning = "No sorting criteria found"
        \/ warning = "No valid sorting criteria processed")
       /\ s = Sorter.passthrough (default "input_table" previousNodeName) warning.
Proof.
  unfold Sorter.convertSorterNodeToSQL.
  destruct (negb (isStr _ Sorter.SORTER_FACTORY)).
  { intros H. injection H as <-. now left. }
  destruct (findConfigByKey (config nodeConfig) "model") as [modelNode|].
  2: { intros H. injection H as <-. now left. }
  destruct (_ || _).
  { intros H. injection H as <-. now left. }
  destruct (negb (present _)).
  { intros H. injection H as <-. right. right. eexists. eauto. }
  destruct (Sorter.orderByPartsOf _ _) as [|orderByParts]; [discriminate |].
  cbn [mbind result_bind].
  destruct orderByParts as [|t0 terms].
  - intros H. injection H as <-. right. right. eexists. eauto.
  - intros H. injection H as <-. right. left.
    do 5 apply endsWith_append. reflexivity.
Qed.

Lemma concatenate_output (nodeConfig : Elem)
    (predecessorNodeContext : option (list (option Concatenate.Pred))) :
  let s := Concatenate.convertConcatenateNodeToSQL nodeConfig predecessorNodeContext in
  startsWith "Error:" s = true \/ endsWith ";" s = true.
Proof.
  unfold Concatenate.convertConcatenateNodeToSQL.
  destruct (negb (isStr _ Concatenate.CONCATENATE_FACTORY)); [now left |].
  destruct (_ || _); [now left |].
  destruct (Concatenate.validate _ _) as [[i pred] | preds]; [now left |].
  destruct (_ && _); [now left |].
  destruct (Concatenate.sortColumns _); [now left |].
  right. apply endsWith_append. reflexivity.
Qed.

(** C2, as the code has it.  On a tree with the matching factory, a
    text that a translator returns and that is not a diagnostic ends in
    a semicolon, but for the degraded outputs: when every predicate of a
    Row Filter is dropped, or a Sorter has no criteria or none that is
    valid, the text is [SELECT * FROM] the quoted input and a semicolon,
    followed by a warning comment, and so does not end in a
    semicolon. *)
Theorem output_ends_in_semicolon_unless_degraded :
  (forall nodeConfig previousNodeName s,
      isStr (getEntryValue (entry nodeConfig) "factory")
            RowFilter.ROW_FILTER_FACTORY = true ->
      RowFilter.convertRowFilterNodeToSQL nodeConfig previousNodeName = Ret s ->
      startsWith "Error:" s = false ->
      endsWith ";" s = true
      \/ (s = RowFilter.degraded previousNodeName /\ endsWith ";" s = false))
  /\ (forall getArrayValuesFromConfig nodeConfig previousNodeName s,
        isStr (getEntryValue (entry nodeConfig) "factory")
              GroupBy.GROUPBY_FACTORY = true ->
        GroupBy.convertGroupByNodeToSQL getArrayValuesFromConfig nodeConfig
          previousNodeName = Ret s ->
        startsWith "Error:" s = false ->
        endsWith ";" s = true)
  /\ (forall nodeConfig previousNodeName s,
        isStr (getEntryValue (entry nodeConfig) "factory")
              Sorter.SORTER_FACTORY = true ->
        Sorter.convertSorterNodeToSQL nodeConfig previousNodeName = Ret s ->
        startsWith "Error:" s = false ->
        endsWith ";" s = true
        \/ (exists warning,
              (warning = "No sorting criteria found"
               \/ warning = "No valid sorting criteria processed")
              /\ s = Sorter.passthrough (default "input_table" previousNodeName)
                                        warning)
           /\ endsWith ";" s = false)
  /\ (forall nodeConfig predecessorNodeContext,
        isStr (getEntryValue (entry nodeConfig) "factory")
              Concatenate.CONCATENATE_FACTORY = true ->
        startsWith "Error:"
          (Concatenate.convertConcatenateNodeToSQL nodeConfig predecessorNodeContext)
        = false ->
        endsWith ";"
          (Concatenate.convertConcatenateNodeToSQL nodeConfig predecessorNodeContext)
        = true).
Proof.
  repeat split.
  - intros nodeConfig previousNodeName s _ Hs Hnd.
    destruct (rowFilter_output _ _ _ Hs) as [He | [Hsemi | ->]];
      [congruence | now left | right].
    split; [reflexivity | apply degraded_no_semicolon].
  - intros getArr nodeConfig previousNodeName s _ Hs Hnd.
    destruct (groupBy_output _ _ _ _ Hs) as [He | Hsemi]; [congruence | exact Hsemi].
  - intros nodeConfig previousNodeName s _ Hs Hnd.
    destruct (sorter_output _ _ _ Hs) as [He | [Hsemi | (warning & Hw & ->)]];
      [congruence | now left | right].
    split; [now exists warning | now apply passthrough_no_semicolon].
  - intros nodeConfig predecessorNodeContext _ Hnd.
    destruct (concatenate_output nodeConfig predecessorNodeContext) as [He | Hsemi];
      [congruence | exact Hsemi].
Qed.

Lemma output_ends_in_semicolon_unless_degraded_witness :
  RowFilter.convertRowFilterNodeToSQL
    (Build.rowFilter "MATCHING" "AND" [Ex.colA_eq_5; Ex.colB_missing]) "t"
  = Ret ("SELECT * FROM " +:+ JS.dq +:+ "t" +:+ JS.dq +:+ " WHERE "
         +:+ JS.dq +:+ "colA" +:+ JS.dq +:+ " = 5 AND "
         +:+ JS.dq +:+ "colB" +:+ JS.dq +:+ " IS NULL;")
  /\ endsWith ";"
       ("SELECT * FROM " +:+ JS.dq +:+ "t" +:+ JS.dq +:+ " WHERE "
        +:+ JS.dq +:+ "colA" +:+ JS.dq +:+ " = 5 AND "
        +:+ JS.dq +:+ "colB" +:+ JS.dq +:+ " IS NULL;")
     = true.
Proof.
  split; [reflexivity |].
  destruct (proj1 output_ends_in_semicolon_unless_degraded
              (Build.rowFilter "MATCHING" "AND" [Ex.colA_eq_5; Ex.colB_missing])
              "t" _ eq_refl eq_refl eq_refl)
    as [Hsemi | [Hdegraded _]]; [exact Hsemi | discriminate Hdegraded].
Defined.

(** C2, as the specification words it, fails on a degraded output: the
    factory matches, the text is not a diagnostic, and it ends in the
    warning comment. *)
Lemma degraded_output_does_not_end_in_semicolon :
  isStr (getEntryValue (entry Ex.droppedFilter) "factory")
        RowFilter.ROW_FILTER_FACTORY = true
  /\ RowFilter.convertRowFilterNodeToSQL Ex.droppedFilter "t"
     = Ret ("SELECT * FROM " +:+ JS.dq +:+ "t" +:+ JS.dq
            +:+ "; -- Warning: No valid filter conditions generated or applied")
  /\ startsWith "Error:"
       ("SELECT * FROM " +:+ JS.dq +:+ "t" +:+ JS.dq
        +:+ "; -- Warning: No valid filter conditions generated or applied")
     = false
  /\ endsWith ";"
       ("SELECT * FROM " +:+ JS.dq +:+ "t" +:+ JS.dq
        +:+ "; -- Warning: No valid filter conditions generated or applied")
     = false.
Proof. repeat split; reflexivity. Qed.

End OutputEnd.

(** ** The node records (C4) *)

Section NodeRecords.
Import Viewer.

Lemma findEntry_returns (k : string) (entries : list Elem) :
  Forall (fun e => is_Some (attributes e)) entries ->
  exists found, findEntry k entries = Ret found.
Proof.
  induction 1 as [|e entries [a Ha] _ IH]; simpl; [now eexists |].
  rewrite Ha. destruct (optIs (a_key a) k); [now eexists | exact IH].
Qed.

Lemma getEntryValue_returns (cfg : option Elem) (k : string) :
  entriesReadable cfg -> exists s, Viewer.getEntryValue cfg k = Ret s.
Proof.
  intros H. unfold Viewer.getEntryValue. destruct cfg as [d|]; [| now eexists].
  destruct (negb (present (entry d))); [now eexists |].
  destruct (findEntry_returns k _ H) as [found ->]. now eexists.
Qed.

Lemma buildNode_returns (nodeOrderMap : gmap N nat) (nextNodeMap : gmap N (list N))
    (item : ZipFile) (cfg : option Elem) :
  fileJson item = Ret cfg ->
  entriesReadable cfg ->
  exists r,
    buildNode nodeOrderMap nextNodeMap item = Ret r
    /\ id r = nodeFolderOf (filePath item) ≫= nodeIdOf
    /\ nodeConfig r = cfg
    /\ order r = id r ≫= lookupId nodeOrderMap
    /\ nextNodes r = default [] (id r ≫= lookupId nextNodeMap).
Proof.
  intros Hjson H. unfold buildNode. rewrite Hjson. cbn [mbind result_bind].
  destruct (getEntryValue_returns _ "name" H) as [name ->].
  destruct (getEntryValue_returns _ "factory" H) as [factory ->].
  destruct (getEntryValue_returns _ "state" H) as [state ->].
  destruct (getEntryValue_returns _ "customDescription" H) as [descr ->].
  cbn [mbind result_bind]. eexists. repeat split.
Qed.

Lemma buildNode_id (nodeOrderMap : gmap N nat) (nextNodeMap : gmap N (list N))
    (item : ZipFile) (r : NodeRecord) :
  buildNode nodeOrderMap nextNodeMap item = Ret r ->
  id r = nodeFolderOf (filePath item) ≫= nodeIdOf.
Proof.
  unfold buildNode. destruct (fileJson item) as [|cfg]; [discriminate |].
  cbn [mbind result_bind].
  destruct (Viewer.getEntryValue _ "name"); [discriminate |].
  destruct (Viewer.getEntryValue _ "factory"); [discriminate |].
  destruct (Viewer.getEntryValue _ "state"); [discriminate |].
  destruct (Viewer.getEntryValue _ "customDescription"); [discriminate |].
  cbn [mbind result_bind]. intros H. injection H as <-. reflexivity.
Qed.

Lemma elem_of_appended (callbacks : list (result NodeRecord)) (r : NodeRecord) :
  r ∈ flat_map appended callbacks <-> Ret r ∈ callbacks.
Proof.
  rewrite list_elem_of_In, in_flat_map. split.
  - intros [cb [Hin Hr]]. destruct cb as [|r']; simpl in Hr; [contradiction |].
    destruct Hr as [-> | []]. now apply list_elem_of_In.
  - intros Hin. exists (Ret r). split; [now apply list_elem_of_In | now left].
Qed.

(** Every run of the callbacks appends their records in some order, and
    every order is the order of some run. *)
Lemma finishes_iff (callbacks : list (result NodeRecord))
    (nodeData final : list NodeRecord) :
  finishes callbacks nodeData final
  <-> exists finished,
        finished ≡ₚ callbacks
        /\ final = (nodeData ++ flat_map appended finished)%list.
Proof.
  split.
  - induction 1 as [nodeData | before after cb nodeData final _ IH].
    + exists []. split; [reflexivity | simpl; now rewrite app_nil_r].
    + destruct IH as (finished & Hperm & ->).
      exists (cb :: finished). split.
      * rewrite Hperm. apply Permutation_middle.
      * simpl. now rewrite app_assoc.
  - intros (finished & Hperm & ->). revert callbacks nodeData Hperm.
    induction finished as [|cb finished IH]; intros callbacks nodeData Hperm.
    + apply Permutation_nil_l in Hperm as <-. simpl. rewrite app_nil_r.
      constructor.
    + assert (Hin : cb ∈ callbacks)
        by (rewrite <- Hperm; apply list_elem_of_here).
      apply list_elem_of_split in Hin as (before & after & ->).
      apply finishes_next. simpl. rewrite app_assoc. apply IH.
      apply (Permutation_cons_inv (a := cb)).
      rewrite Hperm. symmetry. apply Permutation_middle.
Qed.

Lemma finishes_inOrder (callbacks : list (result NodeRecord))
    (nodeData : list NodeRecord) :
  finishes callbacks nodeData (finishInOrder callbacks nodeData).
Proof. apply finishes_iff. exists callbacks. split; reflexivity. Qed.

Lemma order_fold_lookup (ps : list (nat * WfNode)) (m : gmap N nat) (i : N) :
  is_Some (foldl (fun m p => <[wf_id p.2 := p.1]> m) m ps !! i)
  <-> is_Some (m !! i) \/ i ∈ wf_id <$> ps.*2.
Proof.
  revert m. induction ps as [|p ps IH]; intros m; simpl.
  - rewrite elem_of_nil. tauto.
  - rewrite IH, lookup_insert_is_Some, elem_of_cons.
    destruct (decide (wf_id p.2 = i)) as [Heq | Hne]; intuition congruence.
Qed.

(** The order of an id is resolved exactly when the descriptor lists a
    node with that id. *)
Lemma nodeOrderMapOf_is_Some (nodes : list WfNode) (i : N) :
  is_Some (nodeOrderMapOf nodes !! i) <-> i ∈ wf_id <$> nodes.
Proof.
  unfold nodeOrderMapOf. rewrite order_fold_lookup, lookup_empty.
  rewrite snd_zip by (rewrite length_seq; lia).
  split; [intros [[x Hx] | H]; [discriminate | exact H] | now right].
Qed.

(** C4, as the code has it.  Records are made only when the archive
    holds a descriptor that is found, read and parsed: without a
    [workflow.knime] entry, or when reading or parsing it raises, an
    error is reported and no record is made, whatever settings
    documents the archive holds.  With the descriptor parsed, one
    callback is started for each settings document, and whatever the
    order in which they finish: every settings document that converts
    and whose root entries can be read has its record among the new
    ones, with the id taken from its folder, its settings tree, and the
    order and successors that the descriptor has for that id (none when
    the descriptor does not know it); and every new record comes from a
    settings document, so that a node the descriptor names but that has
    no settings document gets no record.  The order of an id is known
    exactly when the descriptor lists it. *)
Theorem records_come_from_settings_documents
    (parseWorkflowKnime : option Elem -> result (list WfNode * list Connection))
    (allFiles : list ZipFile) :
  (find (fun f => isWorkflowPath (filePath f)) allFiles = None ->
   handleUpload parseWorkflowKnime (Ret allFiles) = Refused NOT_FOUND)
  /\ (forall knimeFile,
        find (fun f => isWorkflowPath (filePath f)) allFiles = Some knimeFile ->
        fileJson knimeFile ≫= parseWorkflowKnime = Fault ->
        handleUpload parseWorkflowKnime (Ret allFiles) = Refused FAILED)
  /\ (forall knimeFile nodes connections,
        find (fun f => isWorkflowPath (filePath f)) allFiles = Some knimeFile ->
        fileJson knimeFile ≫= parseWorkflowKnime = Ret (nodes, connections) ->
        exists callbacks,
          handleUpload parseWorkflowKnime (Ret allFiles)
          = Started (nextNodeMapOf connections) callbacks
          /\ (forall nodeData, finishes callbacks nodeData (finishInOrder callbacks nodeData))
          /\ forall nodeData final,
               finishes callbacks nodeData final ->
               exists new,
                 final = (nodeData ++ new)%list
                 /\ (forall item cfg,
                       item ∈ allFiles ->
                       isSettingsPath (filePath item) = true ->
                       fileJson item = Ret cfg ->
                       entriesReadable cfg ->
                       exists r,
                         r ∈ new
                         /\ id r = nodeFolderOf (filePath item) ≫= nodeIdOf
                         /\ nodeConfig r = cfg
                         /\ order r = id r ≫= lookupId (nodeOrderMapOf nodes)
                         /\ nextNodes r
                            = default [] (id r ≫= lookupId (nextNodeMapOf connections)))
                 /\ (forall r,
                       r ∈ new ->
                       exists item,
                         item ∈ allFiles
                         /\ isSettingsPath (filePath item) = true
                         /\ id r = nodeFolderOf (filePath item) ≫= nodeIdOf)
                 /\ (forall i,
                       is_Some (nodeOrderMapOf nodes !! i) <-> i ∈ wf_id <$> nodes)).
Proof.
  split; [| split].
  - intros Hfind. unfold handleUpload. now rewrite Hfind.
  - intros knimeFile Hfind Hparse. unfold handleUpload. now rewrite Hfind, Hparse.
  - intros knimeFile nodes connections Hfind Hparse.
    eexists. split; [unfold handleUpload; rewrite Hfind, Hparse; reflexivity |].
    split; [intros nodeData; apply finishes_inOrder |].
    intros nodeData final Hfin.
    apply finishes_iff in Hfin as (finished & Hperm & ->).
    exists (flat_map appended finished). split; [reflexivity |].
    split; [| split; [| apply nodeOrderMapOf_is_Some]].
    + intros item cfg Hin Hpath Hjson Hread.
      destruct (buildNode_returns (nodeOrderMapOf nodes) (nextNodeMapOf connections)
                  item cfg Hjson Hread) as (r & Hbuild & Hrest).
      exists r. split; [| exact Hrest].
      apply elem_of_appended. rewrite Hperm, <- Hbuild.
      apply list_elem_of_fmap. exists item. split; [reflexivity |].
      apply list_elem_of_In, filter_In. split; [now apply list_elem_of_In | exact Hpath].
    + intros r Hr. apply elem_of_appended in Hr. rewrite Hperm in Hr.
      apply list_elem_of_fmap in Hr as (item & Hbuild & Hitem).
      apply list_elem_of_In, filter_In in Hitem as [Hin Hpath].
      exists item. repeat split; [now apply list_elem_of_In | exact Hpath |].
      symmetry in Hbuild. exact (buildNode_id _ _ _ _ Hbuild).
Qed.

Lemma records_come_from_settings_documents_witness :
  exists callbacks r,
    handleUpload Ex.parsed (Ret Ex.archive)
    = Started (nextNodeMapOf Ex.wfConnections) callbacks
    /\ r ∈ finishInOrder callbacks []
    /\ id r = Some (Finite 2)
    /\ nodeConfig r = Some Ex.node2Settings
    /\ order r = Some 1
    /\ nextNodes r = [].
Proof.
  assert (Hread : entriesReadable (Some Ex.node2Settings))
    by (repeat constructor; eexists; reflexivity).
  destruct (records_come_from_settings_documents Ex.parsed Ex.archive)
    as (_ & _ & Hparsed).
  destruct (Hparsed (mkZipFile "wf/workflow.knime" (Ret None))
              Ex.wfNodes Ex.wfConnections eq_refl eq_refl)
    as (callbacks & Hstart & Hruns & Hall).
  destruct (Hall [] (finishInOrder callbacks []) (Hruns []))
    as (new & Hfinal & Hevery & _).
  destruct (Hevery
              (mkZipFile "wf/Row Filter (#2)/settings.xml" (Ret (Some Ex.node2Settings)))
              (Some Ex.node2Settings)
              (list_elem_of_further _ _ _ (list_elem_of_here _ _))
              eq_refl eq_refl Hread)
    as (r & Hin & Hid & Hcfg & Horder & Hnext).
  exists callbacks, r. rewrite Hnext, Horder, Hid, Hfinal.
  repeat split; [exact Hstart | exact Hin | exact Hcfg].
Defined.

(** C4, as the specification words it, fails in both directions.  The
    descriptor names the nodes 1 and 2 and the archive has a settings
    document for node 2 only: the records hold node 2 alone.  And the
    same archive without its descriptor gives no record at all: the
    upload is refused, though the settings document of node 2 is
    there. *)
Lemma descriptor_only_node_gets_no_record :
  wf_id <$> Ex.wfNodes = [1%N; 2%N]
  /\ id <$> nodeDataAfter (handleUpload Ex.parsed (Ret Ex.archive)) []
     = [Some (Finite 2)]
  /\ (fun parseWorkflowKnime => handleUpload parseWorkflowKnime (Ret Ex.settingsOnly))
     = (fun _ => Refused NOT_FOUND)
  /\ isSettingsPath "wf/Row Filter (#2)/settings.xml" = true.
Proof. repeat split; vm_compute; reflexivity. Qed.

End NodeRecords.

(** * Further properties of the code *)

(** ** The accessors *)

Section Accessors.

Lemma find_first {A : Type} (f : A -> bool) (before after : list A) (x : A) :
  Forall (fun y => f y = false) before -> f x = true ->
  find f (before ++ x :: after) = Some x.
Proof.
  induction 1 as [|y before Hy _ IH]; intros Hx; simpl.
  - now rewrite Hx.
  - rewrite Hy. now apply IH.
Qed.

Lemma find_none {A : Type} (f : A -> bool) (l : list A) :
  find f l = None <-> Forall (fun y => f y = false) l.
Proof.
  induction l as [|y l IH]; simpl.
  - split; [constructor | reflexivity].
  - destruct (f y) eqn:Hy.
    + split; [discriminate | intros H; inversion H; congruence].
    + rewrite IH. split; [now constructor | intros H; now inversion H].
Qed.

Lemma find_some_split {A : Type} (f : A -> bool) (l : list A) (x : A) :
  find f l = Some x ->
  exists before after,
    l = (before ++ x :: after)%list
    /\ Forall (fun y => f y = false) before /\ f x = true.
Proof.
  induction l as [|y l IH]; simpl; [discriminate |].
  destruct (f y) eqn:Hy.
  - intros H. injection H as <-. exists [], l. repeat split; [constructor | exact Hy].
  - intros H. destruct (IH H) as (before & after & -> & Hb & Hx).
    exists (y :: before), after. repeat split; [now constructor | exact Hx].
Qed.

(** X3.  [findConfigByKey] fails closed and takes the first match: it finds
    nothing exactly when no node of the list has the key, and what it
    finds is the first node that has it. *)
Theorem findConfigByKey_first_match (cfg : Multi) (k : string) :
  (findConfigByKey cfg k = None
   <-> Forall (fun e => hasKey k e = false) (toArray cfg))
  /\ (forall e,
        findConfigByKey cfg k = Some e
        <-> exists before after,
              toArray cfg = (before ++ e :: after)%list
              /\ Forall (fun x => hasKey k x = false) before
              /\ hasKey k e = true).
Proof.
  split.
  - destruct cfg; unfold findConfigByKey;
      [split; [intros _; constructor | reflexivity] | |]; apply find_none.
  - intros e. split.
    + destruct cfg; unfold findConfigByKey; [discriminate | |];
        apply find_some_split.
    + intros (before & after & Hl & Hb & He).
      destruct cfg; unfold findConfigByKey;
        [destruct before; discriminate | |];
        rewrite Hl; now apply find_first.
Qed.

Lemma findConfigByKey_first_match_witness :
  findConfigByKey
    (Many [Build.leaf "a" "xstring" "1"; Build.leaf "b" "xstring" "2";
           Build.leaf "b" "xstring" "3"]) "b"
  = Some (Build.leaf "b" "xstring" "2").
Proof.
  apply (proj2 (findConfigByKey_first_match _ "b")).
  exists [Build.leaf "a" "xstring" "1"], [Build.leaf "b" "xstring" "3"].
  repeat split. repeat constructor.
Defined.

(** The value read from one entry. *)
Lemma getEntryValue_One_cases (e : Elem) (k : string) :
  getEntryValue (One e) k <> JStr EmptyString.
Proof.
  unfold getEntryValue. cbn [toArray find].
  destruct (hasKey k e); [| discriminate].
  destruct (attributes e) as [a|]; [| discriminate].
  destruct (optIs (a_type a) "xboolean"); [discriminate |].
  destruct (a_value a) as [v|]; [| discriminate].
  destruct (String.eqb_spec v EmptyString); [discriminate | congruence].
Qed.

Lemma getEntryValue_first (entryProp : Multi) (k : string)
    (before after : list Elem) (e : Elem) :
  toArray entryProp = (before ++ e :: after)%list ->
  Forall (fun x => hasKey k x = false) before ->
  hasKey k e = true ->
  getEntryValue entryProp k = getEntryValue (One e) k.
Proof.
  intros Hl Hb He.
  assert (Hfind : find (hasKey k) (toArray entryProp) = Some e)
    by (rewrite Hl; now apply find_first).
  unfold getEntryValue at 2. cbn [toArray find]. rewrite He.
  unfold getEntryValue.
  destruct entryProp; [destruct before; discriminate | |];
    now rewrite Hfind.
Qed.

(** X2.  [getEntryValue] fails closed and takes the first match: with no
    entry of the key the answer is [null]; otherwise the first entry of
    the key decides alone; and the answer is never the empty text, so a
    text that is returned is truthy. *)
Theorem getEntryValue_first_match (entryProp : Multi) (k : string) :
  (Forall (fun e => hasKey k e = false) (toArray entryProp) ->
   getEntryValue entryProp k = JNull)
  /\ (forall before e after,
        toArray entryProp = (before ++ e :: after)%list ->
        Forall (fun x => hasKey k x = false) before ->
        hasKey k e = true ->
        getEntryValue entryProp k = getEntryValue (One e) k)
  /\ (forall s, getEntryValue entryProp k = JStr s -> s <> EmptyString).
Proof.
  split; [| split].
  - intros H. apply find_none in H. unfold getEntryValue.
    destruct entryProp; [reflexivity | |]; now rewrite H.
  - intros before e after. apply getEntryValue_first.
  - intros s Hs ->.
    destruct (find (hasKey k) (toArray entryProp)) as [e|] eqn:Hfind.
    + destruct (find_some_split _ _ _ Hfind) as (before & after & Hl & Hb & He).
      rewrite (getEntryValue_first _ _ _ _ _ Hl Hb He) in Hs.
      now apply (getEntryValue_One_cases e k).
    + unfold getEntryValue in Hs.
      destruct entryProp; [discriminate | |];
        rewrite Hfind in Hs; discriminate.
Qed.

Lemma getEntryValue_first_match_witness :
  getEntryValue
    (Many [Build.leaf "a" "xstring" "1"; Build.leaf "b" "xboolean" "true";
           Build.leaf "b" "xstring" "3"]) "b"
  = getEntryValue (One (Build.leaf "b" "xboolean" "true")) "b"
  /\ getEntryValue (Many [Build.leaf "a" "xstring" "1"]) "b" = JNull.
Proof.
  split.
  - apply (proj1 (proj2 (getEntryValue_first_match _ "b"))
             [Build.leaf "a" "xstring" "1"] _ [Build.leaf "b" "xstring" "3"]);
      [reflexivity | repeat constructor | reflexivity].
  - apply (proj1 (getEntryValue_first_match _ "b")). repeat constructor.
Defined.

End Accessors.

(** ** Where the Row Filter and the Sorter return *)

Section TextTrees.
Import JS.

Lemma traverse_returns {A B : Type} (f : A -> result B) (l : list A) :
  Forall (fun x => exists y, f x = Ret y) l -> exists ys, traverse f l = Ret ys.
Proof.
  induction 1 as [|x l [y Hy] _ [ys IH]]; simpl; [now eexists |].
  rewrite Hy, IH. now eexists.
Qed.

Lemma textAtM_toArray (keys : list string) (m : Multi) :
  textAtM keys m = true -> Forall (fun e => textAt keys e = true) (toArray m).
Proof.
  destruct m as [| e | l]; simpl.
  - constructor.
  - intros H. now repeat constructor.
  - induction l as [|x l IH]; [constructor |].
    intros H. apply andb_true_iff in H as [Hx Hl]. constructor; auto.
Qed.

Lemma textAt_children (keys : list string) (e : Elem) :
  textAt keys e = true ->
  booleanAttrs keys (attributes e) = false
  /\ textAtM keys (entry e) = true /\ textAtM keys (config e) = true.
Proof.
  destruct e as [a en cf]. simpl. intros H.
  apply andb_true_iff in H as [H Hcf]. apply andb_true_iff in H as [Ha Hen].
  apply negb_true_iff in Ha. auto.
Qed.

Lemma textAt_find (keys : list string) (m : Multi) (k : string) (e : Elem) :
  textAtM keys m = true -> findConfigByKey m k = Some e ->
  textAt keys e = true /\ hasKey k e = true.
Proof.
  intros Hm Hfind. apply textAtM_toArray in Hm. rewrite Forall_forall in Hm.
  destruct m; unfold findConfigByKey in Hfind; [discriminate | |];
    apply find_some in Hfind as [Hin He];
    (split; [apply Hm; now apply list_elem_of_In | exact He]).
Qed.

Lemma textAtM_entryOf (keys : list string) (o : option Elem) :
  (forall e, o = Some e -> textAt keys e = true) ->
  textAtM keys (entryOf o) = true /\ textAtM keys (configOf o) = true.
Proof.
  destruct o as [e|]; simpl; [| auto].
  intros H. destruct (textAt_children keys e (H e eq_refl)) as (_ & He & Hc). auto.
Qed.

(** For one of the keys, [getEntryValue] hands out a text or [null]. *)
Lemma getEntryValue_text (keys : list string) (m : Multi) (k : string) :
  textAtM keys m = true -> k ∈ keys ->
  getEntryValue m k = JNull \/ exists s, getEntryValue m k = JStr s.
Proof.
  intros Hm Hk. unfold getEntryValue.
  destruct m as [| e0 | l]; [now left | |];
    (destruct (find (hasKey k) _) as [e|] eqn:Hfind; [| now left]);
    match type of Hm with
    | textAtM keys ?m = true =>
        assert (Hf : findConfigByKey m k = Some e) by exact Hfind
    end;
    destruct (textAt_find keys _ k e Hm Hf) as [He Hkey];
    destruct (textAt_children keys e He) as (Hb & _ & _);
    unfold hasKey in Hkey;
    (destruct (attributes e) as [a|]; [| now left]);
    simpl in Hb;
    (assert (Hex : existsb (optIs (a_key a)) keys = true)
       by (apply existsb_exists; exists k; split;
           [now apply list_elem_of_In | exact Hkey]));
    rewrite Hex in Hb; simpl in Hb; rewrite Hb;
    (destruct (a_value a) as [v|]; [| now left]);
    (destruct (String.eqb v EmptyString); [now left | right; now eexists]).
Qed.

Lemma getEntryValue_truthy_text (keys : list string) (m : Multi) (k : string) :
  textAtM keys m = true -> k ∈ keys ->
  truthy (getEntryValue m k) = true -> exists s, getEntryValue m k = JStr s.
Proof.
  intros Hm Hk Ht.
  destruct (getEntryValue_text keys m k Hm Hk) as [H | H]; [| exact H].
  rewrite H in Ht. discriminate.
Qed.

(** The first part of the predicate callback never raises: the operator
    entry was found by its key, so it has its attributes. *)
Lemma predicateParts_returns (p : Elem) :
  exists parts, RowFilter.predicateParts p = Ret parts.
Proof.
  unfold RowFilter.predicateParts.
  destruct (negb (present (config p))); [now eexists |].
  destruct (findConfigByKey (config p) "column") as [columnNode|]; [| now eexists].
  destruct (findConfigByKey (entry p) "operator") as [operatorEntry|] eqn:Hop;
    [| now eexists].
  destruct (findConfigByKey (config p) "predicateValues") as [pv|]; [| now eexists].
  destruct (negb (present (config pv))); [now eexists |].
  assert (Hkey : hasKey "operator" operatorEntry = true).
  { destruct (entry p); unfold findConfigByKey in Hop; [discriminate | |];
      now apply find_some in Hop as [_ H]. }
  unfold RowFilter.attributeValue, hasKey in *.
  destruct (attributes operatorEntry) as [a|]; [| discriminate].
  cbn [mbind result_bind].
  destruct (a_value a) as [op|]; [| now eexists].
  destruct (findConfigByKey (config pv) "values") as [vn|]; [| now eexists].
  destruct (_ || _ || _); now eexists.
Qed.

Lemma predicateParts_text (p : Elem) (columnName : jsval) (op : string) (vn : Elem) :
  textAt rowFilterTextKeys p = true ->
  RowFilter.predicateParts p = Ret (Some (columnName, op, vn)) ->
  (exists c, columnName = JStr c) /\ textAt rowFilterTextKeys vn = true.
Proof.
  intros Hp. destruct (textAt_children _ _ Hp) as (_ & Hen & Hcf).
  unfold RowFilter.predicateParts.
  destruct (negb (present (config p))); [discriminate |].
  destruct (findConfigByKey (config p) "column") as [columnNode|] eqn:Hcol;
    [| discriminate].
  destruct (findConfigByKey (entry p) "operator") as [operatorEntry|];
    [| discriminate].
  destruct (findConfigByKey (config p) "predicateValues") as [pv|] eqn:Hpv;
    [| discriminate].
  destruct (negb (present (config pv))); [discriminate |].
  destruct (RowFilter.attributeValue operatorEntry) as [|o]; [discriminate |].
  cbn [mbind result_bind].
  destruct o as [op'|]; [| discriminate].
  destruct (findConfigByKey (config pv) "values") as [vn'|] eqn:Hvn;
    [| discriminate].
  destruct (textAt_find _ _ _ _ Hcf Hcol) as [Hcn _].
  destruct (textAt_children _ _ Hcn) as (_ & Hcne & _).
  destruct (textAt_find _ _ _ _ Hcf Hpv) as [Hpvt _].
  destruct (textAt_children _ _ Hpvt) as (_ & _ & Hpvc).
  destruct (textAt_find _ _ _ _ Hpvc Hvn) as [Hvnt _].
  destruct (truthy (getEntryValue (entry columnNode) "selected")) eqn:Ht;
    [| discriminate].
  cbn [negb orb].
  destruct (_ || _); [discriminate |].
  intros H. injection H as <- <- <-. split; [| exact Hvnt].
  apply (getEntryValue_truthy_text rowFilterTextKeys); [exact Hcne | | exact Ht].
  unfold rowFilterTextKeys. elem_of_listed.
Qed.

Lemma valueCondition_returns (c sqlOperator : string) (svc : Elem) :
  textAt rowFilterTextKeys svc = true ->
  exists r, RowFilter.valueCondition (JStr c) sqlOperator svc = Ret r.
Proof.
  intros Hsvc. destruct (textAt_children _ _ Hsvc) as (_ & Hen & Hcf).
  unfold RowFilter.valueCondition.
  change (quoteValue (JStr c)) with (Ret (quoteIdent c)).
  cbn [mbind result_bind].
  destruct (RowFilter.isNullOf svc) as [| [|] |]; try (now eexists).
  all: assert (Hcell : RowFilter.cellClassOf svc = JNull
                       \/ exists s, RowFilter.cellClassOf svc = JStr s).
  all: try (unfold RowFilter.cellClassOf;
            apply (getEntryValue_text rowFilterTextKeys);
            [| unfold rowFilterTextKeys; elem_of_listed];
            apply textAtM_entryOf; intros e He;
            now apply (textAt_find _ _ _ _ Hcf He)).
  all: assert (Hvalue : getEntryValue (entry svc) "value" = JNull
                        \/ exists s, getEntryValue (entry svc) "value" = JStr s)
    by (apply (getEntryValue_text rowFilterTextKeys);
        [exact Hen | unfold rowFilterTextKeys; elem_of_listed]).
  all: destruct Hvalue as [-> | [v ->]]; [now eexists |].
  all: destruct Hcell as [-> | [cls ->]]; cbn [RowFilter.includesStringCell mbind result_bind asString].
  all: destruct (String.eqb sqlOperator "LIKE");
    [| destruct (String.eqb sqlOperator "REGEXP");
       [| destruct (_ || negb _)]];
    cbn [mbind result_bind]; now eexists.
Qed.

Lemma predicateCondition_returns (p : Elem) :
  textAt rowFilterTextKeys p = true ->
  exists r, RowFilter.predicateCondition p = Ret r.
Proof.
  intros Hp. unfold RowFilter.predicateCondition.
  destruct (predicateParts_returns p) as [parts Hparts]. rewrite Hparts.
  cbn [mbind result_bind].
  destruct parts as [[[columnName op] vn]|]; [| now eexists].
  destruct (predicateParts_text _ _ _ _ Hp Hparts) as [[c ->] Hvn].
  unfold RowFilter.operatorCondition.
  change (quoteValue (JStr c)) with (Ret (quoteIdent c)).
  cbn [mbind result_bind].
  destruct (_ || _); [now eexists |].
  unfold RowFilter.singleValueConfigOf.
  destruct (findConfigByKey (config vn) "0") as [svc|] eqn:Hsvc; [| now eexists].
  destruct (_ || _); [now eexists |].
  apply valueCondition_returns.
  destruct (textAt_children _ _ Hvn) as (_ & _ & Hcf).
  now apply (textAt_find _ _ _ _ Hcf Hsvc).
Qed.

(** X5.  The Row Filter translator returns a text (SQL or a diagnostic) and
    never raises on a tree in which no element keyed [selected], [value]
    or [cell_class] is typed xboolean. *)
Theorem rowFilter_returns_on_text_trees (nodeConfig : Elem)
    (previousNodeName : string) :
  textAt rowFilterTextKeys nodeConfig = true ->
  exists s,
    RowFilter.convertRowFilterNodeToSQL nodeConfig previousNodeName = Ret s.
Proof.
  intros Hcfg. destruct (textAt_children _ _ Hcfg) as (_ & _ & Hcf).
  unfold RowFilter.convertRowFilterNodeToSQL.
  destruct (negb (isStr _ RowFilter.ROW_FILTER_FACTORY)); [now eexists |].
  destruct (findConfigByKey (config nodeConfig) "model") as [modelNode|] eqn:Hmodel;
    [| now eexists].
  destruct (negb (present (config modelNode))); [now eexists |].
  destruct (_ || _ || _); [now eexists |].
  destruct (textAt_find _ _ _ _ Hcf Hmodel) as [Hm _].
  destruct (textAt_children _ _ Hm) as (_ & _ & Hmc).
  assert (Hpreds : textAtM rowFilterTextKeys
                     (configOf (findConfigByKey (config modelNode) "predicates"))
                   = true).
  { apply textAtM_entryOf. intros e He. now apply (textAt_find _ _ _ _ Hmc He). }
  apply textAtM_toArray in Hpreds.
  destruct (traverse_returns RowFilter.predicateCondition _
              (Forall_impl _ _ _ Hpreds predicateCondition_returns))
    as [mapped ->].
  cbn [mbind result_bind]. destruct (omap id mapped); now eexists.
Qed.

Lemma rowFilter_returns_on_text_trees_witness :
  exists s,
    RowFilter.convertRowFilterNodeToSQL
      (Build.rowFilter "MATCHING" "AND" [Ex.colA_eq_5; Ex.colB_missing]) "t"
    = Ret s.
Proof.
  apply (rowFilter_returns_on_text_trees
           (Build.rowFilter "MATCHING" "AND" [Ex.colA_eq_5; Ex.colB_missing]) "t").
  reflexivity.
Defined.

Lemma criterionTerm_returns (missingToEnd : jsval) (criterion : Elem) :
  textAt sorterTextKeys criterion = true ->
  exists r, Sorter.criterionTerm missingToEnd criterion = Ret r.
Proof.
  intros Hc. destruct (textAt_children _ _ Hc) as (_ & _ & Hcf).
  unfold Sorter.criterionTerm.
  destruct (attributes criterion) as [a|]; [| now eexists].
  destruct (Sorter.keyIsNaN a); [now eexists |].
  destruct (truthy (getEntryValue
                      (entryOf (findConfigByKey (config criterion) "column"))
                      "selected")) eqn:Ht; [| now eexists].
  cbn [negb orb].
  destruct (negb (truthy _)); [now eexists |].
  assert (Hsel : exists s,
             getEntryValue (entryOf (findConfigByKey (config criterion) "column"))
                           "selected" = JStr s).
  { apply (getEntryValue_truthy_text sorterTextKeys);
      [| unfold sorterTextKeys; elem_of_listed | exact Ht].
    apply textAtM_entryOf. intros e He. now apply (textAt_find _ _ _ _ Hcf He). }
  destruct Hsel as [s ->]. cbn [quoteValue asString mbind result_bind].
  now eexists.
Qed.

(** X6.  The Sorter translator returns a text and never raises on a tree in
    which no element keyed [selected] is typed xboolean. *)
Theorem sorter_returns_on_text_trees (nodeConfig : Elem)
    (previousNodeName : option string) :
  textAt sorterTextKeys nodeConfig = true ->
  exists s, Sorter.convertSorterNodeToSQL nodeConfig previousNodeName = Ret s.
Proof.
  intros Hcfg. destruct (textAt_children _ _ Hcfg) as (_ & _ & Hcf).
  unfold Sorter.convertSorterNodeToSQL.
  destruct (negb (isStr _ Sorter.SORTER_FACTORY)); [now eexists |].
  destruct (findConfigByKey (config nodeConfig) "model") as [modelNode|] eqn:Hmodel;
    [| now eexists].
  destruct (_ || _); [now eexists |].
  destruct (negb (present _)); [now eexists |].
  destruct (textAt_find _ _ _ _ Hcf Hmodel) as [Hm _].
  destruct (textAt_children _ _ Hm) as (_ & _ & Hmc).
  assert (Hcrit : textAtM sorterTextKeys
                    (configOf (findConfigByKey (config modelNode) "sortingCriteria"))
                  = true).
  { apply textAtM_entryOf. intros e He. now apply (textAt_find _ _ _ _ Hmc He). }
  apply textAtM_toArray in Hcrit.
  unfold Sorter.orderByPartsOf.
  destruct (traverse_returns
              (Sorter.criterionTerm (getEntryValue (entry modelNode) "missingToEnd")) _
              (Forall_impl _ _ _ Hcrit (criterionTerm_returns _)))
    as [pushed ->].
  cbn [mbind result_bind]. destruct (omap id pushed); now eexists.
Qed.

Lemma sorter_returns_on_text_trees_witness :
  exists s, Sorter.convertSorterNodeToSQL Ex.sorter (Some "t") = Ret s.
Proof.
  apply (sorter_returns_on_text_trees Ex.sorter (Some "t")). reflexivity.
Defined.

End TextTrees.

(** ** Quoting and wildcards *)

Section Quoting.
Import JS.

Lemma append_cancel_r (a b c : string) : a +:+ c = b +:+ c -> a = b.
Proof.
  revert b. induction a as [|x a IH]; intros [|y b] H.
  - reflexivity.
  - apply (f_equal String.length) in H.
    rewrite append_nil_l, append_cons in H.
    simpl in H. rewrite length_append in H. lia.
  - apply (f_equal String.length) in H.
    rewrite append_nil_l, append_cons in H.
    simpl in H. rewrite length_append in H. lia.
  - rewrite !append_cons in H. injection H as -> H. f_equal. now apply IH.
Qed.

Lemma doubling_inj (c : ascii) (s1 s2 : string) :
  replaceChar c (String c (str1 c)) s1 = replaceChar c (String c (str1 c)) s2 ->
  s1 = s2.
Proof.
  revert s2. induction s1 as [|a s1 IH]; intros [|b s2]; simpl; unfold str1.
  - reflexivity.
  - destruct (Ascii.eqb b c); rewrite !append_cons; discriminate.
  - destruct (Ascii.eqb a c); rewrite !append_cons; discriminate.
  - destruct (Ascii.eqb_spec a c) as [-> | Ha], (Ascii.eqb_spec b c) as [-> | Hb];
      rewrite !append_cons, ?append_nil_l; intros H.
    + injection H as H. f_equal. now apply IH.
    + injection H as H _. congruence.
    + injection H as H _. congruence.
    + injection H as -> H. f_equal. now apply IH.
Qed.

(** X1.  Quoting loses nothing: two identifiers with the same quoted form
    are the same, and two texts with the same escaped form are the
    same. *)
Theorem quoting_is_injective :
  (forall s1 s2, quoteIdent s1 = quoteIdent s2 -> s1 = s2)
  /\ (forall s1 s2, escapeQuote s1 = escapeQuote s2 -> s1 = s2).
Proof.
  split.
  - intros s1 s2 H. unfold quoteIdent, dq, str1 in H.
    rewrite !append_cons, !append_nil_l in H.
    injection H as H. apply append_cancel_r in H.
    now apply (doubling_inj dqc).
  - intros s1 s2 H. now apply (doubling_inj "'"%char).
Qed.

Lemma quoting_is_injective_witness :
  quoteIdent (String "a" (String dqc "b"))
  = dq +:+ "a" +:+ dq +:+ dq +:+ "b" +:+ dq
  /\ (quoteIdent "ab" = quoteIdent "ab" -> "ab" = "ab").
Proof.
  split; [reflexivity |].
  exact (proj1 quoting_is_injective "ab" "ab").
Defined.

Lemma hasChar_replaceChar (d c : ascii) (by_ s : string) :
  hasChar d (replaceChar c by_ s)
  = (hasChar c s && hasChar d by_) || (negb (Ascii.eqb d c) && hasChar d s).
Proof.
  induction s as [|a s IH]; simpl; [now rewrite andb_false_r |].
  rewrite hasChar_append, IH.
  destruct (Ascii.eqb_spec a c) as [-> | Hac];
    destruct (Ascii.eqb_spec d c) as [-> | Hdc]; simpl;
    rewrite ?Ascii.eqb_refl; simpl.
  - destruct (hasChar c by_), (hasChar c s); reflexivity.
  - assert (Hcd : Ascii.eqb c d = false) by (apply Ascii.eqb_neq; congruence).
    rewrite ?Hcd.
    destruct (hasChar d by_), (hasChar c s), (hasChar d s); reflexivity.
  - assert (Hab : Ascii.eqb a c = false) by (now apply Ascii.eqb_neq).
    rewrite ?Hab. destruct (hasChar c by_), (hasChar c s); reflexivity.
  - destruct (Ascii.eqb a d), (hasChar d by_), (hasChar c s), (hasChar d s);
      reflexivity.
Qed.

(** X4.  The LIKE pattern made from a KNIME pattern has no [*] and no [?]
    left; a pattern without any of the four special characters is kept
    as it is; and the pattern grows by one backslash for each literal
    [%] and [_], never shrinks. *)
Theorem wildcard_translation (s : string) :
  hasChar "*" (RowFilter.translateKnimeWildcardToSQL (JStr s)) = false
  /\ hasChar "?" (RowFilter.translateKnimeWildcardToSQL (JStr s)) = false
  /\ (hasChar "%" s || hasChar "_" s || hasChar "*" s || hasChar "?" s = false ->
      RowFilter.translateKnimeWildcardToSQL (JStr s) = s)
  /\ String.length s
     <= String.length (RowFilter.translateKnimeWildcardToSQL (JStr s)).
Proof.
  unfold RowFilter.translateKnimeWildcardToSQL, RowFilter.knimeToSqlWildcards,
    RowFilter.escapeSqlWildcards.
  repeat split.
  - rewrite !hasChar_replaceChar. simpl. now rewrite !andb_false_r.
  - rewrite !hasChar_replaceChar. simpl. now rewrite !andb_false_r.
  - intros H. apply orb_false_iff in H as [H Hq].
    apply orb_false_iff in H as [H Hs]. apply orb_false_iff in H as [Hp Hu].
    rewrite (hasChar_false_replaceChar "%" _ s Hp).
    rewrite (hasChar_false_replaceChar "_" _ s Hu).
    rewrite (hasChar_false_replaceChar "*" _ s Hs).
    now rewrite (hasChar_false_replaceChar "?" _ s Hq).
  - rewrite (replaceChar_length_1 "?" "_"), (replaceChar_length_1 "*" "%").
    destruct (replaceChar_length_2 "%" "\" "%" s) as [H1 _].
    destruct (replaceChar_length_2 "_" "\" "_"
                (replaceChar "%" (String "\" (str1 "%")) s)) as [H2 _].
    change (String "\" (str1 "%")) with "\%" in *.
    change (String "\" (str1 "_")) with "\_" in *.
    lia.
Qed.

Lemma wildcard_translation_witness :
  RowFilter.translateKnimeWildcardToSQL (JStr "abc") = "abc".
Proof.
  apply (proj1 (proj2 (proj2 (wildcard_translation "abc")))). reflexivity.
Defined.

End Quoting.

(** ** GroupBy aggregations *)

Section Aggregations.
Import JS GroupBy.

Lemma traverse_Fault_iff {A B : Type} (f : A -> result B) (l : list A) :
  traverse f l = Fault <-> Exists (fun x => f x = Fault) l.
Proof.
  induction l as [|x l IH]; simpl.
  - split; [discriminate | intros H; inversion H].
  - rewrite Exists_cons. destruct (f x) as [|y]; cbn [mbind result_bind].
    + split; [now left | reflexivity].
    + destruct (traverse f l) as [|ys]; cbn [mbind result_bind].
      * split; [intros _; right; now apply IH | reflexivity].
      * split; [discriminate |].
        intros [H | H]; [discriminate | now apply IH in H].
Qed.

Ltac split_method m :=
  repeat
    match goal with
    | |- context [String.eqb m ?k] =>
        destruct (String.eqb_spec m k) as [-> | ?]
    end.

Lemma aggregation_Fault_iff (columnNamePolicy valueDelimiter : jsval)
    (colName knimeMethod : string) :
  aggregation columnNamePolicy valueDelimiter colName knimeMethod = Fault
  <-> (knimeMethod = "List" \/ knimeMethod = "Concatenate")
      /\ asString valueDelimiter = Fault.
Proof.
  unfold aggregation, mapKnimeAggregationToSQL.
  split_method knimeMethod; try discriminate;
    cbn -[quoteIdent String.append replaceAll cleanName isStr asString escapeQuote].
  all: try (split; [discriminate | intros [[H | H] _]; congruence]).
  all: destruct (asString valueDelimiter) as [|d]; cbn [mbind result_bind].
  all: try (split; [discriminate | intros [_ H]; discriminate]).
  all: split; [intros _; split; [auto | reflexivity] | reflexivity].
Qed.

Lemma asString_orDefault (v : jsval) (d : string) :
  asString (orDefault v d) = Fault <-> v = JBool true.
Proof.
  unfold orDefault. destruct v as [| [|] | s]; simpl.
  - split; discriminate.
  - split; reflexivity.
  - split; discriminate.
  - destruct (negb (String.eqb s EmptyString)); simpl; split; discriminate.
Qed.

Variable getArrayValuesFromConfig : option Elem -> list string.

(** X7.  The accessor [getArrayValuesFromConfig] is not among the sources;
    here it is any function that answers every node with a list of
    texts, and nothing is said of an accessor that raises or answers
    with something else.  For such an accessor the GroupBy translator
    raises in one case only: the model is in place, its
    [valueDelimiter] entry is the boolean [true], and one of the zipped
    aggregations asks for [List] or [Concatenate]. *)
Theorem groupBy_faults_exactly_on_boolean_delimiter (nodeConfig : Elem)
    (previousNodeName : option string) :
  convertGroupByNodeToSQL getArrayValuesFromConfig nodeConfig previousNodeName
  = Fault
  <-> isStr (getEntryValue (entry nodeConfig) "factory") GROUPBY_FACTORY = true
      /\ exists modelNode,
           findConfigByKey (config nodeConfig) "model" = Some modelNode
           /\ present (config modelNode) = true
           /\ present (entry modelNode) = true
           /\ getEntryValue (entry modelNode) "valueDelimiter" = JBool true
           /\ exists col method,
                (col, method) ∈ zip (aggColumnNamesOf getArrayValuesFromConfig modelNode)
                                    (aggMethodsOf getArrayValuesFromConfig modelNode)
                /\ (method = "List" \/ method = "Concatenate").
Proof.
  unfold convertGroupByNodeToSQL.
  destruct (isStr (getEntryValue (entry nodeConfig) "factory") GROUPBY_FACTORY);
    cbn [negb]; [| split; [discriminate | intros [H _]; discriminate]].
  destruct (findConfigByKey (config nodeConfig) "model") as [modelNode|];
    [| split; [discriminate | intros (_ & m & H & _); discriminate]].
  destruct (present (config modelNode)) eqn:Hpc;
    [| split; [discriminate | intros (_ & m & H & Hc & _); congruence]].
  destruct (present (entry modelNode)) eqn:Hpe;
    [| split; [discriminate | intros (_ & m & H & _ & He & _); congruence]].
  cbn [negb orb].
  assert (Haggs :
    aggregationsOf getArrayValuesFromConfig modelNode = Fault
    <-> getEntryValue (entry modelNode) "valueDelimiter" = JBool true
        /\ exists col method,
             (col, method) ∈ zip (aggColumnNamesOf getArrayValuesFromConfig modelNode)
                                 (aggMethodsOf getArrayValuesFromConfig modelNode)
             /\ (method = "List" \/ method = "Concatenate")).
  { unfold aggregationsOf. fold (aggColumnNamesOf getArrayValuesFromConfig modelNode).
    fold (aggMethodsOf getArrayValuesFromConfig modelNode).
    set (pairs := zip _ _).
    match goal with
    | |- context [traverse ?f pairs] => set (step := f)
    end.
    assert (Htr : traverse step pairs = Fault
                  <-> Exists (fun p => step p = Fault) pairs)
      by apply traverse_Fault_iff.
    destruct (traverse step pairs) as [|pushed]; cbn [mbind result_bind].
    - split; [intros _ | reflexivity].
      pose proof (proj1 Htr eq_refl) as H. apply Exists_exists in H as [[col m] [Hin Hf]].
      subst step. cbn in Hf. apply aggregation_Fault_iff in Hf as [Hm Hd].
      apply asString_orDefault in Hd.
      split; [exact Hd |]. exists col, m. split; [exact Hin | exact Hm].
    - split; [discriminate |]. intros (Hd & col & m & Hin & Hm).
      assert (Hex : Exists (fun p => step p = Fault) pairs).
      { apply Exists_exists. exists (col, m). split; [exact Hin |].
        subst step. cbn. apply aggregation_Fault_iff. split; [exact Hm |].
        now apply asString_orDefault. }
      apply Htr in Hex. discriminate. }
  destruct (aggregationsOf getArrayValuesFromConfig modelNode) as [|aggs];
    cbn [mbind result_bind].
  - split; [intros _ | reflexivity].
    split; [reflexivity |]. exists modelNode.
    destruct (proj1 Haggs eq_refl) as [Hd Hex]. auto.
  - split; [discriminate |].
    intros (_ & m & Hm & _ & _ & Hd & Hex). injection Hm as <-.
    assert (H : @Fault (list string) = Ret aggs) by (symmetry; apply Haggs; auto).
    discriminate.
Qed.

End Aggregations.

Lemma groupBy_faults_exactly_on_boolean_delimiter_witness :
  GroupBy.convertGroupByNodeToSQL IndexedList.getArrayValuesFromConfig
    (Build.settings GroupBy.GROUPBY_FACTORY
       [Build.leaf "valueDelimiter" "xboolean" "true"]
       [Build.node "aggregationColumn" []
          [Ex.listNode "columnNames" ["tag"];
           Ex.listNode "aggregationMethod" ["List"]]])
    None
  = Fault.
Proof.
  apply (proj2 (groupBy_faults_exactly_on_boolean_delimiter
                  IndexedList.getArrayValuesFromConfig _ None)).
  split; [reflexivity |].
  eexists. split; [reflexivity |]. split; [reflexivity |].
  split; [reflexivity |]. split; [reflexivity |].
  exists "tag", "List". split; [| now left].
  apply list_elem_of_In. vm_compute. now left.
Defined.

Section Aliases.
Import JS GroupBy.

Lemma allChars_append (p : ascii -> bool) (a b : string) :
  allChars p (a +:+ b) = allChars p a && allChars p b.
Proof.
  induction a as [|x a IH]; [reflexivity |].
  rewrite append_cons. simpl. rewrite IH. apply andb_assoc.
Qed.

Lemma cleanName_alnum (s : string) : allChars isAlnum_ (cleanName s) = true.
Proof.
  induction s as [|c s IH]; [reflexivity |].
  simpl. rewrite IH, andb_true_r.
  destruct (isAlnum_ c) eqn:Hc; [exact Hc | reflexivity].
Qed.

Lemma alnum_has_no (d : ascii) (s : string) :
  isAlnum_ d = false -> allChars isAlnum_ s = true -> hasChar d s = false.
Proof.
  intros Hd. induction s as [|c s IH]; [reflexivity |].
  simpl. intros H. apply andb_true_iff in H as [Hc Hs].
  rewrite (IH Hs), orb_false_r.
  apply Ascii.eqb_neq. intros ->. congruence.
Qed.

(** X8.  The alias of an aggregation is made of letters, digits and
    underscores only (every other character of the method and of the
    column has become an underscore), so it is quoted as it is; each
    aggregation reads: call, [AS], quoted alias. *)
Theorem aggregation_alias_is_plain (columnNamePolicy valueDelimiter : jsval)
    (colName knimeMethod text : string) :
  aggregation columnNamePolicy valueDelimiter colName knimeMethod
  = Ret (Some text) ->
  exists call alias,
    text = call +:+ " AS " +:+ dq +:+ alias +:+ dq
    /\ allChars isAlnum_ alias = true
    /\ hasChar "_" alias = true
    /\ String.length colName < String.length alias.
Proof.
  unfold aggregation.
  destruct (mapKnimeAggregationToSQL knimeMethod) as [template|]; [| discriminate].
  match goal with
  | |- context [mbind _ ?c] => destruct c as [|call]
  end; [discriminate |].
  cbn [mbind result_bind]. intros H. injection H as <-.
  set (alias :=
         if isStr columnNamePolicy "Aggregation method (column name)"
         then cleanName knimeMethod +:+ "_" +:+ cleanName colName
         else if isStr columnNamePolicy "Column name (aggregation method)"
              then cleanName colName +:+ "_" +:+ cleanName knimeMethod
              else cleanName colName +:+ "_agg").
  assert (Hlen : forall s, String.length (cleanName s) = String.length s)
    by (induction s as [|c s IH]; simpl; congruence).
  assert (Hal : allChars isAlnum_ alias = true
                /\ hasChar "_" alias = true
                /\ String.length colName < String.length alias).
  { subst alias.
    destruct (isStr columnNamePolicy "Aggregation method (column name)");
      [| destruct (isStr columnNamePolicy "Column name (aggregation method)")];
      rewrite !allChars_append, !cleanName_alnum, !hasChar_append, !length_append,
        !Hlen; simpl; rewrite ?orb_true_r; repeat split; lia. }
  exists call, alias. destruct Hal as (Ha & Hu & Hl).
  split; [| split; [exact Ha | split; [exact Hu | exact Hl]]].
  unfold quoteIdent.
  rewrite (hasChar_false_replaceChar dqc _ alias
             (alnum_has_no dqc alias eq_refl Ha)).
  reflexivity.
Qed.

End Aliases.

Lemma aggregation_alias_is_plain_witness :
  exists call alias,
    "SUM(" +:+ JS.dq +:+ "sales" +:+ JS.dq +:+ ") AS " +:+ JS.dq +:+ "Sum_sales" +:+ JS.dq
    = call +:+ " AS " +:+ JS.dq +:+ alias +:+ JS.dq
    /\ JS.allChars JS.isAlnum_ alias = true
    /\ JS.hasChar "_" alias = true
    /\ String.length "sales" < String.length alias.
Proof.
  apply (aggregation_alias_is_plain (JStr "Aggregation method (column name)")
           (JStr ", ") "sales" "Sum").
  reflexivity.
Defined.

Section Templates.
Import JS GroupBy.

Lemma expandReplacement_plain (matched before after repl : string) :
  hasChar "$" repl = false ->
  expandReplacement matched before after repl = repl.
Proof.
  induction repl as [|a t IH]; [reflexivity |].
  simpl. intros H. apply orb_false_iff in H as [Ha Ht].
  rewrite Ha. now rewrite IH.
Qed.

Lemma quoteIdent_no_dollar (col : string) :
  hasChar "$" col = false -> hasChar "$" (quoteIdent col) = false.
Proof.
  intros H. unfold quoteIdent.
  rewrite !hasChar_append, hasChar_replaceChar, H.
  destruct (hasChar dqc col); reflexivity.
Qed.

(** X9.  For a column name without a dollar sign, the two templates get the
    quoted column in place of their placeholder.  (The condition is
    needed: the column name is the replacement text of [replace], where
    a dollar sign has a meaning of its own.) *)
Theorem template_aggregations (columnNamePolicy valueDelimiter : jsval)
    (colName : string) :
  hasChar "$" colName = false ->
  exists alias1 alias2,
    aggregation columnNamePolicy valueDelimiter colName "Unique count"
    = Ret (Some ("COUNT(DISTINCT " +:+ quoteIdent colName +:+ ")"
                 +:+ " AS " +:+ quoteIdent alias1))
    /\ aggregation columnNamePolicy valueDelimiter colName "Missing value count"
       = Ret (Some ("SUM(CASE WHEN " +:+ quoteIdent colName
                    +:+ " IS NULL THEN 1 ELSE 0 END)"
                    +:+ " AS " +:+ quoteIdent alias2)).
Proof.
  intros H. apply quoteIdent_no_dollar in H.
  assert (H1 : replaceAll "$$col$$" (quoteIdent colName) "COUNT(DISTINCT $$col$$)"
               = "COUNT(DISTINCT "
                 +:+ expandReplacement "$$col$$" "COUNT(DISTINCT " ")"
                       (quoteIdent colName)
                 +:+ ")") by reflexivity.
  assert (H2 : replaceAll "$$col$$" (quoteIdent colName)
                 "SUM(CASE WHEN $$col$$ IS NULL THEN 1 ELSE 0 END)"
               = "SUM(CASE WHEN "
                 +:+ expandReplacement "$$col$$" "SUM(CASE WHEN "
                       " IS NULL THEN 1 ELSE 0 END)" (quoteIdent colName)
                 +:+ " IS NULL THEN 1 ELSE 0 END)") by reflexivity.
  rewrite expandReplacement_plain in H1, H2 by exact H.
  eexists _, _. split.
  - unfold aggregation.
    change (mapKnimeAggregationToSQL "Unique count")
      with (Some "COUNT(DISTINCT $$col$$)").
    cbv beta iota.
    change (includes "$$col$$" "COUNT(DISTINCT $$col$$)") with true.
    cbv beta iota. rewrite H1. cbn [mbind result_bind].
    rewrite !append_assoc. reflexivity.
  - unfold aggregation.
    change (mapKnimeAggregationToSQL "Missing value count")
      with (Some "SUM(CASE WHEN $$col$$ IS NULL THEN 1 ELSE 0 END)").
    cbv beta iota.
    change (includes "$$col$$" "SUM(CASE WHEN $$col$$ IS NULL THEN 1 ELSE 0 END)")
      with true.
    cbv beta iota. rewrite H2. cbn [mbind result_bind].
    rewrite !append_assoc. reflexivity.
Qed.

Lemma template_aggregations_witness :
  exists alias1 alias2,
    aggregation JNull (JStr ", ") "id" "Unique count"
    = Ret (Some ("COUNT(DISTINCT " +:+ quoteIdent "id" +:+ ")"
                 +:+ " AS " +:+ quoteIdent alias1))
    /\ aggregation JNull (JStr ", ") "id" "Missing value count"
       = Ret (Some ("SUM(CASE WHEN " +:+ quoteIdent "id"
                    +:+ " IS NULL THEN 1 ELSE 0 END)"
                    +:+ " AS " +:+ quoteIdent alias2)).
Proof.
  apply (template_aggregations JNull (JStr ", ") "id"). reflexivity.
Defined.

(** What the condition keeps out: in a column name, a dollar sign and
    an ampersand bring the placeholder back. *)
Example template_with_dollar_ampersand :
  replaceAll "$$col$$" (quoteIdent "a$&b") "COUNT(DISTINCT $$col$$)"
  = "COUNT(DISTINCT " +:+ dq +:+ "a$$col$$b" +:+ dq +:+ ")".
Proof. reflexivity. Qed.

Variable getArrayValuesFromConfig : option Elem -> list string.

(** X10.  The two lists are zipped by position: every aggregation of the
    SELECT comes from a column and the method at the same position, a
    method that is mapped; and there are no more aggregations than the
    shorter of the two lists is long. *)
Theorem aggregations_are_positional (modelNode : Elem) (aggregations : list string) :
  aggregationsOf getArrayValuesFromConfig modelNode = Ret aggregations ->
  let names := aggColumnNamesOf getArrayValuesFromConfig modelNode in
  let methods := aggMethodsOf getArrayValuesFromConfig modelNode in
  length aggregations <= Nat.min (length names) (length methods)
  /\ Forall (fun text =>
               exists i col method,
                 names !! i = Some col
                 /\ methods !! i = Some method
                 /\ is_Some (mapKnimeAggregationToSQL method)
                 /\ aggregation
                      (orDefault (getEntryValue (entry modelNode) "columnNamePolicy")
                                 "Aggregation method (column name)")
                      (orDefault (getEntryValue (entry modelNode) "valueDelimiter")
                                 ", ")
                      col method
                    = Ret (Some text))
            aggregations.
Proof.
  intros H names methods. unfold aggregationsOf in H.
  fold (aggColumnNamesOf getArrayValuesFromConfig modelNode) in H.
  fold (aggMethodsOf getArrayValuesFromConfig modelNode) in H.
  fold names methods in H.
  match type of H with
  | context [traverse ?f (zip names methods)] => set (step := f) in H
  end.
  destruct (traverse step (zip names methods)) as [|pushed] eqn:Htr;
    [discriminate |].
  cbn [mbind result_bind] in H. injection H as <-. split.
  - pose proof (Forall2_length _ _ _ (traverse_Forall2 _ _ _ Htr)) as Hlen.
    rewrite length_zip in Hlen.
    assert (Hle : length (omap id pushed) <= length pushed).
    { clear. induction pushed as [|[y|] l IH]; csimpl; lia. }
    lia.
  - apply Forall_forall. intros text Htext.
    destruct (traverse_kept _ _ _ _ Htr Htext) as [[col method] [Hin Hstep]].
    apply list_elem_of_lookup in Hin as [i Hi].
    apply lookup_zip_with_Some in Hi as (c & m & Heq & Hc & Hm).
    injection Heq as <- <-.
    exists i, col, method. split; [exact Hc |]. split; [exact Hm |].
    subst step. cbn in Hstep. split; [| exact Hstep].
    unfold aggregation in Hstep.
    destruct (mapKnimeAggregationToSQL method); [eauto | discriminate].
Qed.

End Templates.

Lemma aggregations_are_positional_witness :
  length ["SUM(" +:+ JS.dq +:+ "sales" +:+ JS.dq +:+ ") AS "
          +:+ JS.dq +:+ "Sum_sales" +:+ JS.dq]
  <= Nat.min
       (length (aggColumnNamesOf IndexedList.getArrayValuesFromConfig regionSumModel))
       (length (aggMethodsOf IndexedList.getArrayValuesFromConfig regionSumModel))
  /\ Forall (fun text =>
               exists i col method,
                 aggColumnNamesOf IndexedList.getArrayValuesFromConfig regionSumModel
                   !! i = Some col
                 /\ aggMethodsOf IndexedList.getArrayValuesFromConfig regionSumModel
                      !! i = Some method
                 /\ is_Some (GroupBy.mapKnimeAggregationToSQL method)
                 /\ GroupBy.aggregation
                      (GroupBy.orDefault
                         (getEntryValue (entry regionSumModel) "columnNamePolicy")
                         "Aggregation method (column name)")
                      (GroupBy.orDefault
                         (getEntryValue (entry regionSumModel) "valueDelimiter") ", ")
                      col method
                    = Ret (Some text))
            ["SUM(" +:+ JS.dq +:+ "sales" +:+ JS.dq +:+ ") AS "
             +:+ JS.dq +:+ "Sum_sales" +:+ JS.dq].
Proof.
  apply (aggregations_are_positional IndexedList.getArrayValuesFromConfig
           regionSumModel).
  reflexivity.
Defined.

(** ** The order of column names *)

Section ColumnOrder.
Import Concatenate.

Lemma ascii_compare_spec (a b : ascii) :
  CompareSpec (a = b) (N_of_ascii a < N_of_ascii b)%N (N_of_ascii b < N_of_ascii a)%N
              (Ascii.compare a b).
Proof.
  unfold Ascii.compare.
  destruct (N.compare_spec (N_of_ascii a) (N_of_ascii b)) as [H | H | H];
    constructor; try assumption.
  rewrite <- (ascii_N_embedding a), <- (ascii_N_embedding b). now rewrite H.
Qed.

Lemma leb_cons (c1 c2 : ascii) (t1 t2 : string) :
  String.leb (String c1 t1) (String c2 t2)
  = match Ascii.compare c1 c2 with
    | Lt => true
    | Eq => String.leb t1 t2
    | Gt => false
    end.
Proof. unfold String.leb. simpl. destruct (Ascii.compare c1 c2); reflexivity. Qed.

#[local] Instance strLe_trans : Transitive strLe.
Proof.
  unfold strLe. intros s1. induction s1 as [|c1 t1 IH]; intros s2 s3 H12 H23.
  - destruct s3; reflexivity.
  - destruct s2 as [|c2 t2]; [discriminate |].
    destruct s3 as [|c3 t3]; [discriminate |].
    rewrite leb_cons in *.
    destruct (ascii_compare_spec c1 c2) as [-> | H1 | H1]; [| | discriminate].
    + destruct (ascii_compare_spec c2 c3) as [-> | H2 | H2];
        [now apply (IH t2) | reflexivity | discriminate].
    + destruct (ascii_compare_spec c2 c3) as [-> | H2 | H2]; [| | discriminate].
      * destruct (ascii_compare_spec c1 c3) as [-> | H3 | H3]; [lia | reflexivity | lia].
      * destruct (ascii_compare_spec c1 c3) as [-> | H3 | H3]; [lia | reflexivity | lia].
Qed.

#[local] Instance strLe_antisym : AntiSymm eq strLe.
Proof. intros x y. apply String.leb_antisym. Qed.

(** Two lists of column names with the same members are sorted into the
    same list, once repeats are out. *)
Lemma sortColumns_by_members (l1 l2 : list string) :
  NoDup l1 -> NoDup l2 -> (forall c, c ∈ l1 <-> c ∈ l2) ->
  sortColumns l1 = sortColumns l2.
Proof.
  intros H1 H2 Hmem.
  apply (Sorted_unique strLe); try apply _.
  - apply Sorted_merge_sort, strLe_total.
  - apply Sorted_merge_sort, strLe_total.
  - unfold sortColumns. rewrite !merge_sort_Permutation.
    now apply NoDup_Permutation.
Qed.

End ColumnOrder.

(** ** Concatenate: validation and what the output depends on *)

Section ConcatenateMore.
Import JS Concatenate.

Lemma validate_inl (l : list (option Pred)) (k i : nat) (p : option Pred) :
  validate k l = inl (i, p)
  <-> exists j,
        i = k + j /\ l !! j = Some p /\ isValidPred p = false
        /\ Forall (fun q => isValidPred q = true) (take j l).
Proof.
  revert k. induction l as [|p0 l IH]; intros k.
  - simpl. split; [discriminate | intros (j & _ & H & _); discriminate].
  - destruct (isValidPred p0) eqn:Hv.
    + assert (Hstep : validate k (p0 :: l)
                      = match validate (S k) l with
                        | inl bad => inl bad
                        | inr ok =>
                            match p0 with
                            | Some q => inr ((nodeName q, default [] (nodes q)) :: ok)
                            | None => inr ok
                            end
                        end).
      { destruct p0 as [[name [cols|]]|]; try discriminate. simpl in *.
        apply negb_true_iff in Hv. rewrite Hv.
        destruct (validate (S k) l); reflexivity. }
      split.
      * intros H. rewrite Hstep in H.
        destruct (validate (S k) l) as [bad|ok] eqn:Hrest;
          [| destruct p0; discriminate].
        injection H as ->. apply IH in Hrest as (j & -> & Hj & Hp & Hall).
        exists (S j). repeat split; [lia | exact Hj | exact Hp |].
        simpl. now constructor.
      * intros (j & -> & Hj & Hp & Hall). destruct j as [|j].
        { simpl in Hj. injection Hj as ->. congruence. }
        simpl in Hj, Hall. inversion Hall as [|? ? _ Hall']; subst.
        rewrite Hstep.
        assert (Hrest : validate (S k) l = inl (k + S j, p)).
        { apply IH. exists j. repeat split; [lia | exact Hj | exact Hp | exact Hall']. }
        now rewrite Hrest.
    + assert (Hstep : validate k (p0 :: l) = inl (k, p0)).
      { destruct p0 as [[name [cols|]]|]; try reflexivity. simpl in *.
        apply negb_false_iff in Hv. now rewrite Hv. }
      rewrite Hstep. split.
      * intros H. injection H as <- <-. exists 0.
        repeat split; [lia | exact Hv | constructor].
      * intros (j & -> & Hj & Hp & Hall). destruct j as [|j].
        { simpl in Hj. injection Hj as ->. f_equal. f_equal. lia. }
        simpl in Hall. inversion Hall; congruence.
Qed.

Lemma validate_inr (l : list (option Pred)) (k : nat)
    (preds : list (string * list string)) :
  validate k l = inr preds ->
  l = map (fun p => Some (mkPred p.1 (Some p.2))) preds
  /\ Forall (fun p => p.1 <> EmptyString) preds.
Proof.
  revert k preds. induction l as [|p0 l IH]; intros k preds; simpl.
  - intros H. injection H as <-. split; [reflexivity | constructor].
  - destruct p0 as [[name [cols|]]|]; try discriminate.
    destruct (String.eqb_spec name EmptyString) as [| Hname]; [discriminate |].
    destruct (validate (S k) l) as [bad|ok] eqn:Hrest; [discriminate |].
    intros H. injection H as <-. destruct (IH _ _ Hrest) as [-> Hall].
    split; [reflexivity | now constructor].
Qed.

(** X11.  The validation loop of Concatenate reports the first context that
    is not a name with a list of columns: the index it gives is that of
    an invalid context and every context before it is valid; and it
    lets a list through exactly when every context is valid. *)
Theorem validate_reports_first_invalid (l : list (option Pred)) :
  (forall i p,
      validate 0 l = inl (i, p)
      <-> l !! i = Some p /\ isValidPred p = false
          /\ Forall (fun q => isValidPred q = true) (take i l))
  /\ (forall preds,
        validate 0 l = inr preds
        <-> l = map (fun p => Some (mkPred p.1 (Some p.2))) preds
            /\ Forall (fun p => p.1 <> EmptyString) preds).
Proof.
  split.
  - intros i p. rewrite validate_inl. split.
    + intros (j & -> & H). exact H.
    + intros H. now exists i.
  - intros preds. split; [apply validate_inr |].
    intros [-> H]. now apply validate_contextOf.
Qed.

Lemma validate_reports_first_invalid_witness :
  validate 0 [Some Ex.predAB; None; Some (mkPred EmptyString None)] = inl (1, None).
Proof.
  apply (proj1 (validate_reports_first_invalid _)).
  split; [reflexivity |]. split; [reflexivity |]. repeat constructor.
Defined.

(** The output on valid predecessor contexts, step by step. *)
Lemma concatenate_on_valid (nodeConfig : Elem) (preds : list (string * list string)) :
  isStr (getEntryValue (entry nodeConfig) "factory") CONCATENATE_FACTORY = true ->
  2 <= length preds ->
  Forall (fun p => p.1 <> EmptyString) preds ->
  convertConcatenateNodeToSQL nodeConfig (contextOf preds)
  = let flag := intersectionFlag nodeConfig in
    let unsorted := finalColumnsOf flag (map (fun pred => setOf pred.2) preds) in
    if flag && bool_decide (unsorted = []) then
      "Error: Intersection of columns resulted in an empty column set."
    else
      let final := sortColumns unsorted in
      match final with
      | [] => "Error: No columns determined for the output."
      | _ :: _ =>
          trim (commentFor nodeConfig
                +:+ join (nl +:+ "UNION ALL" +:+ nl)
                         (map (selectStatement final) preds))
          +:+ ";"
      end.
Proof.
  intros Hfactory Hlen Hvalid.
  unfold convertConcatenateNodeToSQL, contextOf.
  rewrite Hfactory. cbn [negb default]. unfold id.
  rewrite bool_decide_eq_true_2 by eauto.
  rewrite length_map.
  destruct (Nat.ltb_spec (length preds) 2) as [Hlt | _]; [lia |].
  cbn [negb orb]. rewrite validate_contextOf by exact Hvalid.
  reflexivity.
Qed.

Lemma selectStatement_by_members (final : list string)
    (p p' : string * list string) :
  p.1 = p'.1 -> (forall c, c ∈ p.2 <-> c ∈ p'.2) ->
  selectStatement final p = selectStatement final p'.
Proof.
  intros Hname Hmem. unfold selectStatement, selectListOf. rewrite Hname.
  assert (Hmap : map (selectItem (quoteIdent p'.1) (setOf p.2)) final
                 = map (selectItem (quoteIdent p'.1) (setOf p'.2)) final).
  { apply map_ext. intros col. unfold selectItem.
    assert (Hhas : has (setOf p.2) col = has (setOf p'.2) col).
    { apply eq_true_iff_eq. rewrite !has_elem_of, !elem_of_setOf. apply Hmem. }
    now rewrite Hhas. }
  now rewrite Hmap.
Qed.

Lemma finalColumns_by_members (flag : bool) (preds preds' : list (string * list string)) :
  Forall2 (fun p p' => p.1 = p'.1 /\ forall c, c ∈ p.2 <-> c ∈ p'.2) preds preds' ->
  forall c,
    c ∈ finalColumnsOf flag (map (fun pred => setOf pred.2) preds)
    <-> c ∈ finalColumnsOf flag (map (fun pred => setOf pred.2) preds').
Proof.
  intros H c. destruct preds as [|p0 preds].
  { inversion H. reflexivity. }
  destruct preds' as [|p0' preds']; [inversion H |].
  rewrite !elem_of_finalColumnsOf by discriminate.
  destruct flag.
  - split; intros Hall q Hq.
    + apply list_elem_of_lookup in Hq as [i Hi].
      destruct (Forall2_lookup_r _ _ _ _ _ H Hi) as (q0 & Hi0 & _ & Hmem).
      apply Hmem, Hall. apply list_elem_of_lookup. eauto.
    + apply list_elem_of_lookup in Hq as [i Hi].
      destruct (Forall2_lookup_l _ _ _ _ _ H Hi) as (q0 & Hi0 & _ & Hmem).
      apply Hmem, Hall. apply list_elem_of_lookup. eauto.
  - split; intros (q & Hq & Hc).
    + apply list_elem_of_lookup in Hq as [i Hi].
      destruct (Forall2_lookup_l _ _ _ _ _ H Hi) as (q0 & Hi0 & _ & Hmem).
      exists q0. split; [apply list_elem_of_lookup; eauto | now apply Hmem].
    + apply list_elem_of_lookup in Hq as [i Hi].
      destruct (Forall2_lookup_r _ _ _ _ _ H Hi) as (q0 & Hi0 & _ & Hmem).
      exists q0. split; [apply list_elem_of_lookup; eauto | now apply Hmem].
Qed.

Lemma nil_by_members (l1 l2 : list string) :
  (forall c, c ∈ l1 <-> c ∈ l2) -> l1 = [] <-> l2 = [].
Proof.
  intros H. split; intros ->.
  - destruct l2 as [|c l2]; [reflexivity |].
    exfalso. apply (not_elem_of_nil c), H, list_elem_of_here.
  - destruct l1 as [|c l1]; [reflexivity |].
    exfalso. apply (not_elem_of_nil c), H, list_elem_of_here.
Qed.

(** X12.  With at least two valid predecessors, the text that Concatenate
    returns depends on each predecessor's columns as a set only: the
    order of the column names in a context, and repeats among them,
    change nothing. *)
Theorem concatenate_ignores_column_order (nodeConfig : Elem)
    (preds preds' : list (string * list string)) :
  2 <= length preds ->
  Forall (fun p => p.1 <> EmptyString) preds ->
  Forall2 (fun p p' => p.1 = p'.1 /\ forall c, c ∈ p.2 <-> c ∈ p'.2) preds preds' ->
  convertConcatenateNodeToSQL nodeConfig (contextOf preds)
  = convertConcatenateNodeToSQL nodeConfig (contextOf preds').
Proof.
  intros Hlen Hvalid Hrel.
  destruct (isStr (getEntryValue (entry nodeConfig) "factory") CONCATENATE_FACTORY)
    eqn:Hfactory.
  2: { unfold convertConcatenateNodeToSQL. now rewrite Hfactory. }
  assert (Hlen' : 2 <= length preds')
    by (rewrite <- (Forall2_length _ _ _ Hrel); exact Hlen).
  assert (Hvalid' : Forall (fun p => p.1 <> EmptyString) preds').
  { clear Hlen Hlen'. induction Hrel as [|p p' l l' [Hn _] _ IH]; [constructor |].
    inversion Hvalid; subst. constructor; [congruence | auto]. }
  rewrite !concatenate_on_valid by assumption. cbv zeta.
  set (flag := intersectionFlag nodeConfig).
  pose proof (finalColumns_by_members flag _ _ Hrel) as Hmem.
  set (u := finalColumnsOf flag (map (fun pred => setOf pred.2) preds)) in *.
  set (u' := finalColumnsOf flag (map (fun pred => setOf pred.2) preds')) in *.
  assert (Hsort : sortColumns u = sortColumns u')
    by (apply sortColumns_by_members;
        [apply NoDup_finalColumnsOf | apply NoDup_finalColumnsOf | exact Hmem]).
  assert (Hnil : bool_decide (u = []) = bool_decide (u' = []))
    by (apply bool_decide_ext, nil_by_members, Hmem).
  rewrite Hnil, Hsort.
  destruct (flag && bool_decide (u' = [])); [reflexivity |].
  destruct (sortColumns u') as [|c cs]; [reflexivity |].
  f_equal. f_equal. f_equal. f_equal.
  clear -Hrel. induction Hrel as [|p p' l l' [Hn Hm] _ IH]; [reflexivity |].
  simpl. rewrite IH. f_equal. now apply selectStatement_by_members.
Qed.

Lemma concatenate_ignores_column_order_witness :
  convertConcatenateNodeToSQL (Ex.concatenate false)
    (contextOf [("t1", ["a"; "b"]); ("t2", ["b"; "c"])])
  = convertConcatenateNodeToSQL (Ex.concatenate false)
      (contextOf [("t1", ["b"; "a"; "b"]); ("t2", ["c"; "b"])]).
Proof.
  apply concatenate_ignores_column_order.
  - simpl. lia.
  - repeat constructor; discriminate.
  - constructor;
      [split; [reflexivity
              | intros c; simpl; rewrite ?elem_of_cons, ?elem_of_nil; tauto] |].
    constructor;
      [split; [reflexivity
              | intros c; simpl; rewrite ?elem_of_cons, ?elem_of_nil; tauto] |].
    constructor.
Defined.

(** X13.  The final columns do not depend on the order of the predecessors;
    that order only decides the order of the SELECT statements. *)
Theorem final_columns_ignore_predecessor_order (flag : bool)
    (preds preds' : list (string * list string)) :
  preds ≡ₚ preds' ->
  sortColumns (finalColumnsOf flag (map (fun pred => setOf pred.2) preds))
  = sortColumns (finalColumnsOf flag (map (fun pred => setOf pred.2) preds'))
  /\ forall final,
       map (selectStatement final) preds ≡ₚ map (selectStatement final) preds'.
Proof.
  intros Hperm. split.
  - apply sortColumns_by_members; try apply NoDup_finalColumnsOf.
    intros c. destruct preds as [|p0 preds].
    { apply Permutation_nil_l in Hperm. subst. reflexivity. }
    assert (Hne' : preds' <> [])
      by (intros ->; now apply Permutation_nil_r in Hperm).
    rewrite !elem_of_finalColumnsOf by (discriminate || exact Hne').
    destruct flag.
    + split; intros Hall q Hq; apply Hall; [now rewrite Hperm | now rewrite <- Hperm].
    + split; intros (q & Hq & Hc); exists q;
        (split; [| exact Hc]); [now rewrite <- Hperm | now rewrite Hperm].
  - intros final. now apply Permutation_map.
Qed.

Lemma final_columns_ignore_predecessor_order_witness :
  sortColumns (finalColumnsOf false
                 (map (fun pred : string * list string => setOf pred.2)
                      [("t1", ["a"; "b"]); ("t2", ["b"; "c"])]))
  = sortColumns (finalColumnsOf false
                   (map (fun pred : string * list string => setOf pred.2)
                        [("t2", ["b"; "c"]); ("t1", ["a"; "b"])])).
Proof.
  apply (final_columns_ignore_predecessor_order false
           [("t1", ["a"; "b"]); ("t2", ["b"; "c"])]
           [("t2", ["b"; "c"]); ("t1", ["a"; "b"])]).
  apply perm_swap.
Defined.

End ConcatenateMore.

(** ** The viewer: paths, ids and the two maps *)

Section ViewerMore.
Import JS Viewer.

Lemma splitOn_cons (sep : ascii) (s : string) :
  exists h t, splitOn sep s = h :: t.
Proof.
  induction s as [|c s (h & t & IH)]; simpl; [now eexists _, _ |].
  destruct (Ascii.eqb c sep); [now eexists _, _ |].
  rewrite IH. now eexists _, _.
Qed.

Lemma splitOn_plain (sep : ascii) (s : string) :
  hasChar sep s = false -> splitOn sep s = [s].
Proof.
  induction s as [|c s IH]; simpl; [reflexivity |].
  intros H. apply orb_false_iff in H as [Hc Hs].
  rewrite Hc, (IH Hs). reflexivity.
Qed.

Lemma splitOn_snoc (sep : ascii) (p name : string) :
  hasChar sep name = false ->
  splitOn sep (p +:+ String sep name) = (splitOn sep p ++ [name])%list.
Proof.
  intros Hname. induction p as [|c p IH].
  - rewrite append_nil_l. simpl. rewrite Ascii.eqb_refl.
    now rewrite (splitOn_plain sep name Hname).
  - rewrite append_cons. simpl. rewrite IH.
    destruct (Ascii.eqb c sep); [reflexivity |].
    destruct (splitOn_cons sep p) as (h & t & ->). reflexivity.
Qed.

(** X16.  [formatNodeType] gives the text after the last dot: a type without
    a dot is kept whole, a dotted type gives its last part, and a type
    that ends in a dot is kept whole. *)
Theorem formatNodeType_last_part (prefix name : string) :
  hasChar "." name = false ->
  Display.formatNodeType name = name
  /\ (name <> EmptyString ->
      Display.formatNodeType (prefix +:+ "." +:+ name) = name)
  /\ Display.formatNodeType (prefix +:+ ".") = prefix +:+ ".".
Proof.
  intros Hname. unfold Display.formatNodeType. repeat split.
  - rewrite (splitOn_plain "." name Hname). simpl.
    destruct (String.eqb_spec name EmptyString); congruence.
  - intros Hne. change ("." +:+ name) with (String "." name).
    rewrite (splitOn_snoc "." prefix name Hname), rev_app_distr. simpl.
    apply String.eqb_neq in Hne. now rewrite Hne.
  - change "." with (String "."%char EmptyString).
    rewrite (splitOn_snoc "." prefix EmptyString eq_refl), rev_app_distr.
    reflexivity.
Qed.

Lemma formatNodeType_last_part_witness :
  Display.formatNodeType "RowFilterNodeFactory" = "RowFilterNodeFactory"
  /\ Display.formatNodeType
       ("org.knime.base.node.preproc.filter.row3" +:+ "." +:+ "RowFilterNodeFactory")
     = "RowFilterNodeFactory".
Proof.
  destruct (formatNodeType_last_part "org.knime.base.node.preproc.filter.row3"
              "RowFilterNodeFactory" eq_refl) as (H1 & H2 & _).
  split; [exact H1 | apply H2; discriminate].
Defined.

Lemma spanDigits_digits (digits rest : string) :
  allChars isDigit digits = true ->
  headIs isDigit rest = false ->
  spanDigits (digits +:+ rest) = (String.length digits, rest).
Proof.
  intros Hd Hr. induction digits as [|c d IH].
  - rewrite append_nil_l. destruct rest as [|x r]; [reflexivity |].
    simpl in *. now rewrite Hr.
  - rewrite append_cons. simpl in *. apply andb_true_iff in Hd as [Hc Hd].
    rewrite Hc, (IH Hd). reflexivity.
Qed.

Lemma takeChars_append (a b : string) : takeChars (String.length a) (a +:+ b) = a.
Proof.
  induction a as [|c a IH]; [destruct b; reflexivity |].
  rewrite append_cons. simpl. now rewrite IH.
Qed.

Lemma spanDigits_keeps_hash (a b : string) :
  hasChar "#" (spanDigits (a +:+ String "#" b)).2 = true.
Proof.
  induction a as [|x a IH].
  - reflexivity.
  - rewrite append_cons. simpl. destruct (isDigit x).
    + destruct (spanDigits (a +:+ String "#" b)) as [n r]. exact IH.
    + simpl. rewrite hasChar_append. simpl.
      now rewrite !orb_true_r.
Qed.

Lemma matchTrailingId_suffix (name digits closing : string) :
  someAll isDigit digits = true ->
  closing = EmptyString \/ closing = ")" ->
  matchTrailingId (name +:+ String "#" (digits +:+ closing)) = Some digits.
Proof.
  intros Hd Hc.
  assert (Hall : allChars isDigit digits = true /\ digits <> EmptyString)
    by (destruct digits; [discriminate | split; [exact Hd | discriminate]]).
  destruct Hall as [Hall Hne].
  assert (Hhere : matchTrailingId (String "#" (digits +:+ closing)) = Some digits).
  { simpl. rewrite (spanDigits_digits digits closing Hall)
      by (destruct Hc as [-> | ->]; reflexivity).
    assert (Hpos : Nat.ltb 0 (String.length digits) = true)
      by (destruct digits; [congruence | reflexivity]).
    rewrite Hpos, takeChars_append.
    destruct Hc as [-> | ->]; reflexivity. }
  induction name as [|c name IH]; [exact Hhere |].
  rewrite append_cons. simpl.
  destruct (Ascii.eqb c "#"); [| exact IH].
  pose proof (spanDigits_keeps_hash name (digits +:+ closing)) as Hk.
  destruct (spanDigits (name +:+ String "#" (digits +:+ closing))) as [n r].
  simpl in Hk.
  destruct r as [|x [|y r]]; try discriminate.
  - destruct (Ascii.eqb_spec x ")") as [-> | Hx]; [discriminate |].
    replace (String.eqb (String x EmptyString) ")") with false
      by (symmetry; apply String.eqb_neq; congruence).
    rewrite andb_false_r. exact IH.
  - replace (String.eqb (String x (String y r)) ")") with false
      by (symmetry; apply String.eqb_neq; destruct r; discriminate).
    rewrite andb_false_r. exact IH.
Qed.

(** Below 2^53 the Number value of an integer is the integer. *)
Lemma toNumber_exact (n : N) : (n < 2 ^ 53)%N -> toNumber n = Finite n.
Proof.
  intros Hn. unfold toNumber. cbv zeta.
  assert (He : (N.log2 n - 52 = 0)%N).
  { destruct (N.eq_dec n 0%N) as [-> | Hpos]; [reflexivity |].
    assert (Hlog : (N.log2 n < 53)%N) by (apply N.log2_lt_pow2; lia).
    lia. }
  rewrite He, !N.shiftr_0_r, !N.shiftl_0_r, N.sub_diag.
  change (N.shiftr 1 1) with 0%N.
  change (N.ltb 0 0) with false. rewrite andb_false_r. cbn [orb].
  assert (Hbig : (n < 2 ^ 1024)%N).
  { apply (N.lt_trans _ (2 ^ 53)); [exact Hn |].
    apply N.pow_lt_mono_r; lia. }
  apply N.ltb_lt in Hbig. now rewrite Hbig.
Qed.

(** Above 2^53 [parseInt] rounds: to the even neighbour when the digits
    spell the middle of two numbers, and to [Infinity] in the end. *)
Example ids_above_2_53_are_rounded :
  parseDigits "9007199254740993" = Finite 9007199254740992
  /\ parseDigits "9007199254740995" = Finite 9007199254740996
  /\ parseDigits "18014398509481987" = Finite 18014398509481988.
Proof. repeat split; vm_compute; reflexivity. Qed.

(** X15.  The id of a settings document is read from its folder.  For a path
    that ends in a folder and [settings.xml], where the folder's name
    ends in a hash sign, one or more digits and an optional closing
    parenthesis, the path is kept as a settings document and, when the
    digits spell a number below 2^53, the id is that number; a folder
    name without a hash sign gives no id. *)
Theorem node_id_from_path (dir name digits closing : string) :
  someAll isDigit digits = true ->
  (digitsValue digits < 2 ^ 53)%N ->
  closing = EmptyString \/ closing = ")" ->
  hasChar "/" name = false ->
  let folder := name +:+ String "#" (digits +:+ closing) in
  let path := dir +:+ String "/" folder +:+ "/settings.xml" in
  isSettingsPath path = true
  /\ nodeFolderOf path = Some folder
  /\ nodeIdOf folder = Some (Finite (digitsValue digits))
  /\ (hasChar "#" name = false -> nodeIdOf name = None).
Proof.
  intros Hd Hsafe Hc Hname folder path.
  assert (Hfolder : hasChar "/" folder = false).
  { unfold folder. rewrite hasChar_append, Hname. simpl.
    rewrite hasChar_append.
    assert (Hdig : hasChar "/" digits = false).
    { destruct digits as [|c d]; [reflexivity |]. simpl in Hd.
      clear -Hd. revert c Hd. induction d as [|x d IH]; intros c Hd.
      - simpl in *. rewrite andb_true_r in Hd. rewrite orb_false_r.
        apply Ascii.eqb_neq. intros ->. discriminate.
      - simpl in Hd. apply andb_true_iff in Hd as [Hc Hd].
        change (hasChar "/" (String c (String x d)))
          with (Ascii.eqb c "/" || hasChar "/" (String x d)).
        rewrite (IH x Hd), orb_false_r.
        apply Ascii.eqb_neq. intros ->. discriminate. }
    rewrite Hdig. destruct Hc as [-> | ->]; reflexivity. }
  assert (Hsplit : rev (splitOn "/" path)
                   = "settings.xml" :: folder :: rev (splitOn "/" dir)).
  { unfold path. rewrite <- append_assoc.
    change "/settings.xml" with (String "/" "settings.xml").
    rewrite (splitOn_snoc "/" _ "settings.xml" eq_refl).
    rewrite (splitOn_snoc "/" dir folder Hfolder).
    rewrite !rev_app_distr. reflexivity. }
  repeat split.
  - unfold isSettingsPath. rewrite Hsplit. reflexivity.
  - unfold nodeFolderOf. rewrite Hsplit. reflexivity.
  - unfold nodeIdOf, folder, parseDigits.
    rewrite (matchTrailingId_suffix name digits closing) by assumption.
    cbn [fmap option_fmap option_map]. now rewrite (toNumber_exact _ Hsafe).
  - intros Hhash. unfold nodeIdOf.
    assert (Hnone : matchTrailingId name = None).
    { clear -Hhash. induction name as [|c s IH]; [reflexivity |].
      simpl in *. apply orb_false_iff in Hhash as [Hc Hs].
      rewrite Hc. now apply IH. }
    now rewrite Hnone.
Qed.

Lemma node_id_from_path_witness :
  isSettingsPath ("wf" +:+ String "/" ("Row Filter (" +:+ String "#" ("12" +:+ ")"))
                  +:+ "/settings.xml") = true
  /\ nodeFolderOf ("wf" +:+ String "/" ("Row Filter (" +:+ String "#" ("12" +:+ ")"))
                   +:+ "/settings.xml")
     = Some ("Row Filter (" +:+ String "#" ("12" +:+ ")"))
  /\ nodeIdOf ("Row Filter (" +:+ String "#" ("12" +:+ ")")) = Some (Finite 12)
  /\ (hasChar "#" "Row Filter (" = false -> nodeIdOf "Row Filter (" = None).
Proof.
  apply (node_id_from_path "wf" "Row Filter (" "12" ")");
    [reflexivity | reflexivity | now right | reflexivity].
Defined.

End ViewerMore.

Section ViewerMaps.
Import Viewer.



Lemma next_fold_lookup (connections : list Connection) (m : gmap N (list N)) (i : N) :
  default []
    (foldl (fun m conn =>
              <[sourceID conn := (default [] (m !! sourceID conn) ++ [destID conn])%list]> m)
           m connections !! i)
  = (default [] (m !! i)
     ++ (destID <$> filter (fun conn => sourceID conn = i) connections))%list.
Proof.
  revert m. induction connections as [|conn l IH]; intros m; simpl.
  - now rewrite app_nil_r.
  - rewrite IH. rewrite filter_cons.
    destruct (decide (sourceID conn = i)) as [<- | Hne].
    + rewrite lookup_insert_eq. simpl. now rewrite <- app_assoc.
    + now rewrite lookup_insert_ne.
Qed.

Lemma next_fold_is_Some (connections : list Connection) (m : gmap N (list N)) (i : N) :
  is_Some (foldl (fun m conn =>
                    <[sourceID conn := (default [] (m !! sourceID conn) ++ [destID conn])%list]> m)
                 m connections !! i)
  <-> is_Some (m !! i) \/ i ∈ sourceID <$> connections.
Proof.
  revert m. induction connections as [|conn l IH]; intros m; simpl.
  - rewrite elem_of_nil. tauto.
  - rewrite IH, lookup_insert_is_Some, elem_of_cons.
    destruct (decide (sourceID conn = i)); intuition congruence.
Qed.

(** X17.  The successor map lists, for each source, the destinations of its
    connections in the order the connections are declared; a node is in
    the map exactly when some connection starts from it. *)
Theorem nextNodeMap_keeps_declaration_order (connections : list Connection) (i : N) :
  default [] (nextNodeMapOf connections !! i)
  = destID <$> filter (fun conn => sourceID conn = i) connections
  /\ (is_Some (nextNodeMapOf connections !! i) <-> i ∈ sourceID <$> connections).
Proof.
  unfold nextNodeMapOf. split.
  - rewrite next_fold_lookup, lookup_empty. reflexivity.
  - rewrite next_fold_is_Some, lookup_empty.
    split; [intros [[x Hx] | H]; [discriminate | exact H] | now right].
Qed.

Lemma order_fold_absent (ps : list (nat * WfNode)) (m : gmap N nat) (i : N) :
  i ∉ wf_id <$> ps.*2 ->
  foldl (fun m p => <[wf_id p.2 := p.1]> m) m ps !! i = m !! i.
Proof.
  revert m. induction ps as [|p ps IH]; intros m Hi; simpl; [reflexivity |].
  simpl in Hi. apply not_elem_of_cons in Hi as [Hne Hi].
  rewrite IH by exact Hi. now apply lookup_insert_ne.
Qed.

Lemma order_fold_position (l : list WfNode) (s : nat) (m : gmap N nat)
    (j : nat) (n : WfNode) :
  NoDup (wf_id <$> l) -> l !! j = Some n ->
  foldl (fun m p => <[wf_id p.2 := p.1]> m) m (zip (seq s (length l)) l) !! wf_id n
  = Some (s + j).
Proof.
  revert s m j. induction l as [|n0 l IH]; intros s m j Hnd Hj; [discriminate |].
  simpl in Hnd. apply NoDup_cons in Hnd as [Hfresh Hnd].
  simpl. destruct j as [|j].
  - injection Hj as ->. rewrite order_fold_absent.
    + rewrite lookup_insert_eq. f_equal. lia.
    + rewrite snd_zip by (rewrite length_seq; lia). exact Hfresh.
  - simpl in Hj. rewrite (IH (S s) _ j Hnd Hj). f_equal. lia.
Qed.

(** X18.  With the ids of the descriptor all different, the order of a node
    is its position in the descriptor's node list. *)
Theorem nodeOrderMap_is_position (nodes : list WfNode) (k : nat) (n : WfNode) :
  NoDup (wf_id <$> nodes) ->
  nodes !! k = Some n ->
  nodeOrderMapOf nodes !! wf_id n = Some k.
Proof.
  intros Hnd Hk. unfold nodeOrderMapOf.
  now rewrite (order_fold_position nodes 0 ∅ k n Hnd Hk).
Qed.

Lemma nodeOrderMap_is_position_witness :
  nodeOrderMapOf Ex.wfNodes !! 2%N = Some 1.
Proof.
  apply (nodeOrderMap_is_position Ex.wfNodes 1 (mkWfNode 2));
    [| reflexivity].
  repeat constructor; rewrite ?elem_of_cons, ?elem_of_nil; intuition discriminate.
Defined.

End ViewerMaps.

(** ** Values placed in a condition *)

Section PlainValues.
Import JS.
















End PlainValues.

Section ValueInCondition.
Import JS RowFilter.



End ValueInCondition.
